(** * HAARVI sample cleaning: the validation pipeline of [script_0.2.py]

    A shallow embedding of the four column validators, of the table builder
    and of the diagnostics log, followed by the properties of the pipeline.

    The consolidated table is a pandas [DataFrame] with a dense [RangeIndex]
    (it comes out of [pd.concat(..., ignore_index=True)]); it is modelled as
    a list of rows addressed by position.  The log file is opened in append
    mode by every call of [log_invalid_row]; it is modelled as the list of
    the blocks written so far, oldest first.  Python exceptions that the
    script does not catch are results of the monad [M].

    The pandas operations the script calls ([is_unique], [duplicated],
    [groupby(...).groups], [to_datetime]) are modelled on the values the
    columns hold, with the defaults of pandas 2.  What the clock answers
    ([Timestamp.now()], [date.today()]) is a parameter of the validator
    that reads it. *)

From Stdlib Require Import ZArith String Ascii Bool Lia.
From stdpp Require Import base list strings pretty sorting.

Open Scope list_scope.
Open Scope nat_scope.
Open Scope stdpp_scope.

(** ** Cell values *)

(** The missing markers pandas knows: [float('nan')], [None], [pd.NaT] and
    [pd.NA].  [pd.isnull] answers [True] on each of them. *)
Inductive NullKind := NaN | PyNone | NaT | NA.

(** A [datetime.date]. *)
Record date := Date { d_year : Z; d_month : Z; d_day : Z }.

(** A [pd.Timestamp] without time zone: a calendar date, the seconds
    elapsed since midnight and the nanoseconds elapsed since that second. *)
Record Timestamp := Stamp {
  ts_year : Z; ts_month : Z; ts_day : Z; ts_secs : Z; ts_nanos : Z
}.

(** What a cell of an identifier column ([Barcode_ID], [Patient_Study_ID])
    holds: a missing marker or a [str] (of characters below 256).  Numeric
    and date cells in these two columns are outside the model. *)
Inductive Ident :=
| INull (k : NullKind)
| IStr (s : string).

(** What a cell of the [Date_Collected] or of the [Available] column may
    hold: a missing marker, a [str] (of characters below 256), a [bool] or
    a timestamp ([datetime] or [Timestamp]). *)
Inductive Cell :=
| VNull (k : NullKind)
| VStr (s : string)
| VBool (b : bool)
| VTime (t : Timestamp).

#[global] Instance NullKind_eq_dec : EqDecision NullKind.
Proof. solve_decision. Defined.
#[global] Instance date_eq_dec : EqDecision date.
Proof. solve_decision. Defined.
#[global] Instance Timestamp_eq_dec : EqDecision Timestamp.
Proof. solve_decision. Defined.
#[global] Instance Ident_eq_dec : EqDecision Ident.
Proof. solve_decision. Defined.
#[global] Instance Cell_eq_dec : EqDecision Cell.
Proof. solve_decision. Defined.

(** The two functions the validators apply to a value whatever its type:
    [str(row)], which is also what an f-string replacement field [{row}]
    inserts, and [pd.isnull(row)]. *)
Class PyValue (V : Type) := {
  py_str : V -> string;
  isnull : V -> bool
}.

Definition null_str (k : NullKind) : string :=
  match k with
  | NaN => "nan"
  | PyNone => "None"
  | NaT => "NaT"
  | NA => "<NA>"
  end.

(** Decimal numeral of [n] left-padded with zeros to [width] characters
    (Python's [%02d], [%04d]). *)
Fixpoint zeros (n : nat) : string :=
  match n with O => "" | S n' => String "0" (zeros n') end.

Definition zfill (width : nat) (n : Z) : string :=
  let s := pretty n in zeros (width - String.length s) +:+ s.

(** The fraction of a second as [isoformat] writes it: nothing when it is
    zero, six digits when it is a whole number of microseconds, nine
    otherwise. *)
Definition fraction_str (nanos : Z) : string :=
  if (nanos =? 0)%Z then ""
  else if (nanos mod 1000 =? 0)%Z then "." +:+ zfill 6 (nanos / 1000)%Z
  else "." +:+ zfill 9 nanos.

(** [str(t)] for a [Timestamp]: [YYYY-MM-DD HH:MM:SS], followed by the
    fraction of a second. *)
Definition Timestamp_str (t : Timestamp) : string :=
  zfill 4 (ts_year t) +:+ "-" +:+ zfill 2 (ts_month t) +:+ "-" +:+ zfill 2 (ts_day t)
  +:+ " " +:+ zfill 2 (ts_secs t / 3600)%Z +:+ ":" +:+ zfill 2 ((ts_secs t / 60) mod 60)%Z
  +:+ ":" +:+ zfill 2 (ts_secs t mod 60)%Z +:+ fraction_str (ts_nanos t).

#[global] Instance Ident_PyValue : PyValue Ident := {|
  py_str v := match v with
              | INull k => null_str k
              | IStr s => s
              end;
  isnull v := match v with INull _ => true | IStr _ => false end
|}.

#[global] Instance Cell_PyValue : PyValue Cell := {|
  py_str v := match v with
              | VNull k => null_str k
              | VStr s => s
              | VBool true => "True"
              | VBool false => "False"
              | VTime t => Timestamp_str t
              end;
  isnull v := match v with VNull _ => true | _ => false end
|}.

(** Equality of two identifier cells as pandas' object hash table sees
    it: equal strings, or the same missing marker (every NaN equals every
    NaN there). *)
Definition py_eqb (a b : Ident) : bool := bool_decide (a = b).

(** [a < b] and [a <= b] for two instants, field by field. *)
Definition ts_ltb (a b : Timestamp) : bool :=
  ((ts_year a <? ts_year b) ||
   ((ts_year a =? ts_year b) &&
    ((ts_month a <? ts_month b) ||
     ((ts_month a =? ts_month b) &&
      ((ts_day a <? ts_day b) ||
       ((ts_day a =? ts_day b) &&
        ((ts_secs a <? ts_secs b) ||
         ((ts_secs a =? ts_secs b) && (ts_nanos a <? ts_nanos b)))))))))%Z.

Definition ts_leb (a b : Timestamp) : bool := negb (ts_ltb b a).

(** [row == "N"]: a comparison of a cell with a string literal. *)
Definition eq_str (c : Cell) (lit : string) : bool :=
  match c with VStr s => String.eqb s lit | _ => false end.

(** ** Rows, the table and the log *)

(** One row of the consolidated table: the four domain columns and the
    two provenance columns [extract_data] adds. *)
Record Row := mkRow {
  Barcode_ID : Ident;
  Patient_Study_ID : Ident;
  Date_Collected : Cell;
  Available : Cell;
  SourceFile : string;
  OriginalRow : Z
}.

Abbreviation Table := (list Row).

(** One call of [log_invalid_row]: the block it appends to the log file. *)
Record DiagnosticEntry := mkEntry {
  file_name : string;
  master_index : nat;
  source_row_index : Z;
  issues : list string
}.

Abbreviation Log := (list DiagnosticEntry).

(** The text [log_invalid_row] writes for one entry. *)
Definition entry_text (e : DiagnosticEntry) : string :=
  "File: '" +:+ file_name e +:+ "', MasterIndex: " +:+ pretty (master_index e)
  +:+ ", SourceRowIndex: " +:+ pretty (source_row_index e) +:+ String "010" ""
  +:+ foldr (fun issue rest => " - " +:+ issue +:+ String "010" rest) "" (issues e)
  +:+ String "010" "".

Definition log_text (l : Log) : string :=
  foldr (fun e rest => entry_text e +:+ rest) "" l.

(** ** The monad of the script: a mutable table, an append-only log,
       and exceptions *)

Inductive Exn :=
| UnboundLocalError (name : string)
| KeyError (idx : nat)
| ValueError (msg : string).

Inductive Result (A : Type) :=
| Ok (a : A)
| Raised (e : Exn).
Arguments Ok {A} a.
Arguments Raised {A} e.

Record Env := mkEnv { df : Table; log : Log }.

Definition M (A : Type) : Type := Env -> Result A * Env.

Definition ret {A} (a : A) : M A := fun s => (Ok a, s).

Definition bind {A B} (m : M A) (k : A -> M B) : M B :=
  fun s => match m s with
           | (Ok a, s') => k a s'
           | (Raised e, s') => (Raised e, s')
           end.

Definition raise {A} (e : Exn) : M A := fun s => (Raised e, s).

Declare Scope py_scope.
Delimit Scope py_scope with py.
Notation "x <- m ;; k" := (bind m (fun x => k))
  (at level 100, m at next level, right associativity) : py_scope.
Notation "m ;;; k" := (bind m (fun _ => k))
  (at level 100, right associativity) : py_scope.
Open Scope py_scope.

(** The state a computation leaves behind, whether it returned or raised. *)
Definition exec {A} (m : M A) (s : Env) : Env := snd (m s).

(** How a computation ended. *)
Definition outcome {A} (m : M A) (s : Env) : Result A := fst (m s).

Definition get_df : M Table := fun s => (Ok (df s), s).

Definition set_df (t : Table) : M unit := fun s => (Ok tt, mkEnv t (log s)).

(** [log_invalid_row(file_name, master_index, source_row_index, issues)]. *)
Definition log_invalid_row (fname : string) (midx : nat) (sidx : Z)
    (iss : list string) : M unit :=
  fun s => (Ok tt, mkEnv (df s) (log s ++ [mkEntry fname midx sidx iss])).

(** [df.at[idx, col]] for a reading: a [KeyError] when the label is absent. *)
Definition df_at {A} (idx : nat) (col : Row -> A) : M A :=
  t <- get_df ;;
  match t !! idx with
  | Some r => ret (col r)
  | None => raise (KeyError idx)
  end.

(** The three lines every validator uses to log the row at [idx]. *)
Definition log_row (idx : nat) (iss : list string) : M unit :=
  fname <- df_at idx SourceFile ;;
  sidx <- df_at idx OriginalRow ;;
  log_invalid_row fname idx sidx iss.

(** [df[col].items()]: the pairs of index label and value, in row order. *)
Definition items {V} (col : Row -> V) (t : Table) : list (nat * V) :=
  imap (fun i r => (i, col r)) t.

(** A [for] loop over a list.  [locals] are the variables the body
    assigns; they keep their last value once the loop is over. *)
Fixpoint for_each {A L} (xs : list A) (body : A -> L -> M L) (locals : L) : M L :=
  match xs with
  | [] => ret locals
  | x :: xs' => l' <- body x locals ;; for_each xs' body l'
  end.

(** ** Python and pandas helpers *)

(** [needle in hay] for two strings. *)
Fixpoint contains (needle hay : string) : bool :=
  String.prefix needle hay ||
  match hay with
  | "" => false
  | String _ hay' => contains needle hay'
  end.

(** [sep.join(xs)]. *)
Fixpoint join (sep : string) (xs : list string) : string :=
  match xs with
  | [] => ""
  | [x] => x
  | x :: xs' => x +:+ sep +:+ join sep xs'
  end.

(** [str(list(indicies))] for a list of integer labels: [[0, 2]]. *)
Definition list_repr (idxs : list nat) : string :=
  "[" +:+ join ", " (pretty <$> idxs) +:+ "]".

(** [bool(issues)] for a list. *)
Definition nonempty {A} (l : list A) : bool :=
  match l with [] => false | _ => true end.

Definition column {V} (col : Row -> V) (t : Table) : list V := col <$> t.

(** How many cells of a column equal [v]. *)
Definition occurrences (v : Ident) (c : list Ident) : nat :=
  length (List.filter (py_eqb v) c).

(** [Series.is_unique]: no two cells are equal (missing values count). *)
Fixpoint is_unique (c : list Ident) : bool :=
  match c with
  | [] => true
  | v :: c' => negb (existsb (py_eqb v) c') && is_unique c'
  end.

(** [df.duplicated("Barcode_ID", keep=False)]: the mask of the rows whose
    value occurs in another row as well. *)
Definition duplicated (c : list Ident) : list bool :=
  (fun v => 2 <=? occurrences v c) <$> c.

(** [df[mask]]: the selected rows, each with its index label. *)
Definition select (mask : list bool) (its : list (nat * Ident)) : list (nat * Ident) :=
  fst <$> List.filter snd (zip its mask).

(** The distinct values of a column, each by its first occurrence. *)
Fixpoint uniques (c : list Ident) : list Ident :=
  match c with
  | [] => []
  | v :: c' => v :: List.filter (fun x => negb (py_eqb v x)) (uniques c')
  end.

(** The order in which [groupby] sorts its keys: strings by code point.
    (No key is a missing marker.) *)
Definition key_leb (a b : Ident) : bool :=
  match a, b with
  | IStr s, IStr s' => String.leb s s'
  | IStr _, INull _ => true
  | INull _, IStr _ => false
  | INull _, INull _ => true
  end.

Fixpoint insert_key (k : Ident) (ks : list Ident) : list Ident :=
  match ks with
  | [] => [k]
  | k' :: ks' => if key_leb k k' then k :: ks else k' :: insert_key k ks'
  end.

Definition sort_keys (ks : list Ident) : list Ident := foldr insert_key [] ks.

(** [frame.groupby("Barcode_ID").groups]: a dict from each key to the
    index labels of its rows.  [groupby] has [dropna=True] and [sort=True]
    by default: rows whose key is missing belong to no group, and the keys
    come out sorted. *)
Definition group_labels (k : Ident) (its : list (nat * Ident)) : list nat :=
  fst <$> List.filter (fun it => py_eqb k (snd it)) its.

Definition groupby_groups (its : list (nat * Ident)) : list (Ident * list nat) :=
  let keys := sort_keys (uniques (List.filter (fun v => negb (isnull v)) (snd <$> its))) in
  (fun k => (k, group_labels k its)) <$> keys.

(** ** validate_barcodeid *)

(** The body of the [try] of the per-row loop: what [issues] holds once
    the row is examined.  Nothing in it raises, so the [except] never runs. *)
Definition barcode_row_issues (row : Ident) : list string :=
  if negb (String.length (py_str row) =? 8)
  then ["Barcode_ID '" +:+ py_str row +:+ "' length is not equal to 8"]
  else if isnull row then ["Barcode_ID is NA"]
  else [].

Definition duplicate_issue (barcode_value : Ident) (indicies : list nat) : string :=
  "Duplicate Barcode_ID: '" +:+ py_str barcode_value +:+ "' found in rows: "
  +:+ list_repr indicies.

(** Reading a local variable that no statement has assigned yet. *)
Definition read_local {A} (name : string) (v : option A) : M A :=
  match v with
  | Some a => ret a
  | None => raise (UnboundLocalError name)
  end.

(** The function as written: the [if issues:] block stands after the
    per-row loop, at the indentation of the [for], and [grouped] is
    assigned only under [if not df["Barcode_ID"].is_unique]. *)
Definition validate_barcodeid : M unit :=
  t <- get_df ;;
  (* for idx, row in df["Barcode_ID"].items(): *)
  locals <- for_each (items Barcode_ID t)
              (fun '(idx, row) _ => ret (Some (idx, barcode_row_issues row)))
              None ;;
  (* if issues: *)
  last <- read_local "issues" locals ;;
  (let '(idx, iss) := last in
   if nonempty iss then log_row idx iss else ret tt) ;;;
  (* if not df["Barcode_ID"].is_unique: *)
  let grouped :=
    if negb (is_unique (column Barcode_ID t))
    then
      let duplicates := select (duplicated (column Barcode_ID t)) (items Barcode_ID t) in
      Some (groupby_groups duplicates)
    else None in
  (* for barcode_value, indicies in grouped.items(): *)
  groups <- read_local "grouped" grouped ;;
  for_each groups
    (fun '(barcode_value, indicies) _ =>
       let issue := duplicate_issue barcode_value indicies in
       for_each indicies (fun idx _ => log_row idx [issue]) tt)
    tt.

(** ** validate_ptid *)

Definition identifiers : list string := ["C"; "H"; "IN"].

Definition ptid_row_issues (row : Ident) : list string :=
  if isnull row then ["PTID is NA"]
  else if negb (existsb (fun identifier => contains identifier (py_str row)) identifiers)
  then ["PTID '" +:+ py_str row +:+ "' is not correctly formatted"]
  else [].

Definition validate_ptid : M unit :=
  t <- get_df ;;
  for_each (items Patient_Study_ID t)
    (fun '(idx, row) _ =>
       let iss := ptid_row_issues row in
       if nonempty iss then log_row idx iss else ret tt)
    tt.

(** ** validate_collection_date *)

(** *** [pd.to_datetime(..., errors='coerce', format="%m/%d/%Y")]

    pandas turns the format into a regular expression, one alternation
    per directive, and matches it against the text the way Python's [re]
    does: alternatives in the order written, the first complete match
    wins.  Each function below lists the ways one directive can match a
    prefix of the text, best first, with the text left over. *)

Definition char_between (lo hi c : ascii) : bool :=
  (nat_of_ascii lo <=? nat_of_ascii c) && (nat_of_ascii c <=? nat_of_ascii hi).

Definition digit_val (c : ascii) : Z := Z.of_nat (nat_of_ascii c - 48).

(** [%m]: [1[0-2]|0[1-9]|[1-9]]. *)
Definition re_month (s : string) : list (Z * string) :=
  match s with
  | String c r =>
      (match r with
       | String c2 r2 =>
           (if Ascii.eqb c "1" && char_between "0" "2" c2
            then [((10 + digit_val c2)%Z, r2)] else []) ++
           (if Ascii.eqb c "0" && char_between "1" "9" c2
            then [(digit_val c2, r2)] else [])
       | "" => []
       end) ++
      (if char_between "1" "9" c then [(digit_val c, r)] else [])
  | "" => []
  end.

(** [%d]: [3[01]|[12]\d|0[1-9]|[1-9]| [1-9]]. *)
Definition re_day (s : string) : list (Z * string) :=
  match s with
  | String c r =>
      (match r with
       | String c2 r2 =>
           (if Ascii.eqb c "3" && char_between "0" "1" c2
            then [((30 + digit_val c2)%Z, r2)] else []) ++
           (if char_between "1" "2" c && char_between "0" "9" c2
            then [((10 * digit_val c + digit_val c2)%Z, r2)] else []) ++
           (if Ascii.eqb c "0" && char_between "1" "9" c2
            then [(digit_val c2, r2)] else [])
       | "" => []
       end) ++
      (if char_between "1" "9" c then [(digit_val c, r)] else []) ++
      (match r with
       | String c2 r2 =>
           if Ascii.eqb c " " && char_between "1" "9" c2
           then [(digit_val c2, r2)] else []
       | "" => []
       end)
  | "" => []
  end.

(** [%Y]: four digits. *)
Definition re_year (s : string) : list (Z * string) :=
  match s with
  | String a (String b (String c (String d r))) =>
      if char_between "0" "9" a && char_between "0" "9" b &&
         char_between "0" "9" c && char_between "0" "9" d
      then [((1000 * digit_val a + 100 * digit_val b + 10 * digit_val c + digit_val d)%Z, r)]
      else []
  | _ => []
  end.

(** A literal character of the format. *)
Definition re_char (ch : ascii) (s : string) : list string :=
  match s with
  | String c r => if Ascii.eqb c ch then [r] else []
  | "" => []
  end.

(** All the matches of [%m/%d/%Y] at the start of [s], in the order the
    backtracking matcher tries them. *)
Definition re_mdY (s : string) : list (Z * Z * Z * string) :=
  '(m, r1) ← re_month s;
  r2 ← re_char "/" r1;
  '(d, r3) ← re_day r2;
  r4 ← re_char "/" r3;
  '(y, r5) ← re_year r4;
  [(m, d, y, r5)].

Definition is_leap (y : Z) : bool :=
  ((y mod 4 =? 0) && (negb (y mod 100 =? 0) || (y mod 400 =? 0)))%Z.

Definition days_in_month (y m : Z) : Z :=
  (if (m =? 2) then (if is_leap y then 29 else 28)
   else if (m =? 4) || (m =? 6) || (m =? 9) || (m =? 11) then 30
   else 31)%Z.

(** Whether [datetime.date(y, m, d)] exists. *)
Definition valid_date (y m d : Z) : bool :=
  ((1 <=? y) && (y <=? 9999) && (1 <=? m) && (m <=? 12) &&
   (1 <=? d) && (d <=? days_in_month y m))%Z.

(** The instants a nanosecond [datetime64] (the resolution of the column
    [pd.to_datetime] builds) can hold: from 1677-09-21 00:12:43.145224193
    to 2262-04-11 23:47:16.854775807. *)
Definition ts_min : Timestamp := Stamp 1677 9 21 763 145224193.
Definition ts_max : Timestamp := Stamp 2262 4 11 85636 854775807.

Definition in_bounds (t : Timestamp) : bool := ts_leb ts_min t && ts_leb t ts_max.

(** Matching one text against the format, which the parser does once it
    has found the text to be neither ["now"] nor ["today"] (see
    [to_datetime]): the first match must use the whole text, the date must
    exist and the instant must be representable; [None] stands for the
    error that [errors='coerce'] turns into [NaT]. *)
Definition strptime_mdY (s : string) : option Timestamp :=
  match re_mdY s with
  | (m, d, y, rest) :: _ =>
      if String.eqb rest "" && valid_date y m d && in_bounds (Stamp y m d 0 0)
      then Some (Stamp y m d 0 0) else None
  | [] => None
  end.

(** The two texts the parser reads as the current instant before it looks
    at the format. *)
Definition today_or_now (s : string) : bool :=
  String.eqb s "now" || String.eqb s "today".

(** What [errors='coerce'] leaves of an instant: itself if the column can
    hold it, [NaT] otherwise. *)
Definition coerce (t : Timestamp) : Cell :=
  if in_bounds t then VTime t else VNull NaT.

(** One element of the column.  [now] is what [Timestamp.now()] answers
    if the parser asks for it while it handles this element.  A missing
    value becomes [NaT]; a timestamp is kept if the column can hold it;
    anything else is parsed from its [str]: ["now"] and ["today"] give the
    current instant, any other text is matched against the format (the
    texts pandas reads as missing, such as [""] and ["NaT"], do not match
    it and so become [NaT] as well). *)
Definition to_datetime (now : Timestamp) (c : Cell) : Cell :=
  match c with
  | VNull _ => VNull NaT
  | VTime t => coerce t
  | _ => if today_or_now (py_str c) then coerce now
         else match strptime_mdY (py_str c) with
              | Some t => VTime t
              | None => VNull NaT
              end
  end.

(** [pd.Timestamp(d)] for a [datetime.date]: midnight of that day. *)
Definition Timestamp_of_date (d : date) : Timestamp :=
  Stamp (d_year d) (d_month d) (d_day d) 0 0.

Definition start_date : date := Date 2020 2 14.

(** The body of the [try] of the per-row loop.  A value that is neither
    missing nor a timestamp cannot be compared with one: the [TypeError] is
    caught by the [except], and [issues] stays empty. *)
Definition date_row_issues (today : date) (row : Cell) : list string :=
  if isnull row then ["Date_Collected is NA"]
  else match row with
       | VTime t =>
           if ts_ltb t (Timestamp_of_date start_date) || ts_ltb (Timestamp_of_date today) t
           then ["Date_Collected is outside of range, date: " +:+ py_str row]
           else []
       | _ => []
       end.

Definition set_Date_Collected (v : Cell) (r : Row) : Row :=
  mkRow (Barcode_ID r) (Patient_Study_ID r) v (Available r) (SourceFile r) (OriginalRow r).

(** The table once its [Date_Collected] column is replaced by the column
    [pd.to_datetime] returns.  [clock i] is the reading of the clock while
    the element at position [i] is handled: the parser reads the clock
    once for each element that asks for it. *)
Definition to_datetime_column (clock : nat -> Timestamp) (t : Table) : Table :=
  imap (fun i r => set_Date_Collected (to_datetime (clock i) (Date_Collected r)) r) t.

(** [clock] gives the readings of the clock during [pd.to_datetime];
    [today] is what [date.today()] answers afterwards. *)
Definition validate_collection_date (clock : nat -> Timestamp) (today : date) : M unit :=
  t <- get_df ;;
  (* df['Date_Collected'] = pd.to_datetime(df['Date_Collected'], ...) *)
  set_df (to_datetime_column clock t) ;;;
  t' <- get_df ;;
  for_each (items Date_Collected t')
    (fun '(idx, row) _ =>
       let iss := date_row_issues today row in
       if nonempty iss then log_row idx iss else ret tt)
    tt.

(** ** validate_available *)

Definition set_Available (v : Cell) (r : Row) : Row :=
  mkRow (Barcode_ID r) (Patient_Study_ID r) (Date_Collected r) v (SourceFile r) (OriginalRow r).

(** [df.at[idx, "Available"] = v], on a column of Python objects, which
    stores the boolean as it is.  The validator only writes at labels it
    got from [items], which are labels of the table. *)
Definition df_at_put_Available (idx : nat) (v : Cell) : M unit :=
  fun s => (Ok tt, mkEnv (alter (set_Available v) idx (df s)) (log s)).

Definition unknown_issue (idx : nat) : string :=
  "Availability is unknown at index: " +:+ pretty idx +:+ ", check to confirm availability".

(** The variables [idx] and [issues], unbound until the loop assigns them. *)
Abbreviation Locals := (option (nat * list string)).

(** One iteration of the loop: the [try] block, in which nothing raises. *)
Definition available_row : nat * Cell -> Locals -> M Locals :=
  fun '(idx, row) _ =>
    if isnull row then
      df_at_put_Available idx (VBool true) ;;; ret (Some (idx, []))
    else if eq_str row "N" then
      df_at_put_Available idx (VBool false) ;;; ret (Some (idx, []))
    else if eq_str row "Y" then
      df_at_put_Available idx (VBool true) ;;; ret (Some (idx, []))
    else
      df_at_put_Available idx (VBool true) ;;;
      ret (Some (idx, [unknown_issue idx])).

(** The function as written: here too the [if issues:] block stands after
    the loop, at the indentation of the [for]. *)
Definition validate_available : M unit :=
  t <- get_df ;;
  locals <- for_each (items Available t) available_row None ;;
  last <- read_local "issues" locals ;;
  let '(idx, iss) := last in
  if nonempty iss then log_row idx iss else ret tt.

(** ** extract_data, from the reading of the spreadsheets on *)

(** The four domain columns of a spreadsheet row. *)
Record SheetRow := mkSheetRow {
  sheet_Barcode_ID : Ident;
  sheet_Patient_Study_ID : Ident;
  sheet_Date_Collected : Cell;
  sheet_Available : Cell
}.

(** What [pd.read_excel(file)] did for one file: it returned a frame or it
    raised, in which case the [except] prints and the file is skipped. *)
Inductive ReadOutcome :=
| Sheet (rows : list SheetRow)
| ReadError.

(** [df["SourceFile"] = file.name; df["OriginalRow"] = df.index + 2]. *)
Definition tag_row (name : string) (i : nat) (r : SheetRow) : Row :=
  mkRow (sheet_Barcode_ID r) (sheet_Patient_Study_ID r) (sheet_Date_Collected r)
        (sheet_Available r) name (Z.of_nat i + 2).

(** The list [master_raw_df] once the loop over the files is over. *)
Fixpoint read_all (files : list (string * ReadOutcome)) : list Table :=
  match files with
  | [] => []
  | (name, Sheet rows) :: files' => imap (tag_row name) rows :: read_all files'
  | (name, ReadError) :: files' => read_all files'
  end.

(** [pd.concat(frames, ignore_index=True)]. *)
Definition pd_concat (frames : list Table) : Result Table :=
  match frames with
  | [] => Raised (ValueError "No objects to concatenate")
  | _ => Ok (concat frames)
  end.

Definition extract_data (files : list (string * ReadOutcome)) : Result Table :=
  pd_concat (read_all files).

(** ** The processing section of the script *)

Definition pipeline (clock : nat -> Timestamp) (today : date) : M unit :=
  validate_barcodeid ;;;
  validate_ptid ;;;
  validate_collection_date clock today ;;;
  validate_available.

(** ** Vocabulary of the properties *)

(** The entries of the log that name the row at table index [idx]. *)
Definition entries_at (idx : nat) (l : Log) : Log :=
  List.filter (fun e => master_index e =? idx) l.

(** What a computation appended to the log. *)
Definition appended {A} (m : M A) (s : Env) : Log :=
  drop (length (log s)) (log (exec m s)).

(** [needle] occurs in [hay]. *)
Definition substring_of (needle hay : string) : Prop :=
  exists pre post, hay = pre +:+ needle +:+ post.

(** The body of a loop that examines one cell and logs at once: the
    shape of the loops of [validate_ptid] and [validate_collection_date]. *)
Definition log_body {V} (f : V -> list string) : nat * V -> unit -> M unit :=
  fun '(idx, row) _ =>
    let iss := f row in
    if nonempty iss then log_row idx iss else ret tt.

(** What such a loop writes for the row [r] at index [i]. *)
Definition row_entries {V} (f : V -> list string) (col : Row -> V)
    (i : nat) (r : Row) : Log :=
  if nonempty (f (col r))
  then [mkEntry (SourceFile r) i (OriginalRow r) (f (col r))]
  else [].

(** The value [validate_available] leaves in place of [c]. *)
Definition available_value (c : Cell) : Cell :=
  if isnull c then VBool true
  else if eq_str c "N" then VBool false
  else VBool true.

(** Whether [validate_available] takes its last branch on [c]. *)
Definition available_unknown (c : Cell) : bool :=
  negb (isnull c) && negb (eq_str c "N") && negb (eq_str c "Y").

(** The [issues] of the iteration on the row [idx] holding [c]. *)
Definition available_row_issues (idx : nat) (c : Cell) : list string :=
  if available_unknown c then [unknown_issue idx] else [].

Definition available_column (t : Table) : Table :=
  (fun r => set_Available (available_value (Available r)) r) <$> t.

(** The locals a loop leaves when it examined the rows [rows], the first
    of them at index [k], having started with [loc]. *)
Fixpoint locals_after {V} (issues_of : nat -> V -> list string) (col : Row -> V)
    (k : nat) (rows : Table) (loc : Locals) : Locals :=
  match rows with
  | [] => loc
  | r :: rows' => locals_after issues_of col (S k) rows' (Some (k, issues_of k (col r)))
  end.

(** The groups the duplicate pass of [validate_barcodeid] iterates over. *)
Definition barcode_groups (t : Table) : list (Ident * list nat) :=
  groupby_groups (select (duplicated (column Barcode_ID t)) (items Barcode_ID t)).

(** The entry [log_row idx iss] writes, when [idx] is a label of [t]. *)
Definition entry_of (t : Table) (iss : list string) (idx : nat) : option DiagnosticEntry :=
  match t !! idx with
  | Some r => Some (mkEntry (SourceFile r) idx (OriginalRow r) iss)
  | None => None
  end.

(** The entries of one duplicate group, and of all of them. *)
Definition group_entries (t : Table) (g : Ident * list nat) : Log :=
  omap (entry_of t [duplicate_issue (fst g) (snd g)]) (snd g).

Definition duplicate_entries (t : Table) : Log :=
  concat (group_entries t <$> barcode_groups t).

(** What the [if issues:] after the per-row loop of [validate_barcodeid]
    writes: the entry of the last row of the table, if that row has issues. *)
Definition first_pass_entries (t : Table) : Log :=
  match last t with
  | Some r => row_entries barcode_row_issues Barcode_ID (length t - 1) r
  | None => []
  end.

(** The table indices of the rows whose value equals [v]. *)
Definition indices_of (v : Ident) (c : list Ident) : list nat :=
  fst <$> List.filter (fun it => py_eqb v (snd it)) (imap pair c).

(** The order of two instants, field by field. *)
Definition ts_lt (a b : Timestamp) : Prop :=
  (ts_year a < ts_year b \/
   (ts_year a = ts_year b /\
    (ts_month a < ts_month b \/
     (ts_month a = ts_month b /\
      (ts_day a < ts_day b \/
       (ts_day a = ts_day b /\
        (ts_secs a < ts_secs b \/
         (ts_secs a = ts_secs b /\ ts_nanos a < ts_nanos b))))))))%Z.

Definition ts_le (a b : Timestamp) : Prop := ts_lt a b \/ a = b.

(** *** A date written as month/day/year *)

(** A month and a day of the month are written in decimal, with a zero
    before a single digit or without it; a single-digit day may also follow
    a space.  The year takes four digits. *)
Definition month_text (m : Z) (s : string) : Prop :=
  (1 <= m <= 12)%Z /\ (s = pretty m \/ s = zfill 2 m).

Definition day_text (d : Z) (s : string) : Prop :=
  (1 <= d <= 31)%Z /\
  (s = pretty d \/ s = zfill 2 d \/ ((d < 10)%Z /\ s = " " +:+ pretty d)).

Definition year_text (y : Z) (s : string) : Prop :=
  (0 <= y <= 9999)%Z /\ s = zfill 4 y.

(** [s] writes the day [d] of the month [m] of the year [y]. *)
Definition mdY_text (m d y : Z) (s : string) : Prop :=
  exists ms ds ys,
    month_text m ms /\ day_text d ds /\ year_text y ys /\
    s = ms +:+ "/" +:+ ds +:+ "/" +:+ ys.

Definition leap_year (y : Z) : Prop :=
  ((y mod 4 = 0)%Z /\ (y mod 100 <> 0)%Z) \/ (y mod 400 = 0)%Z.

#[global] Instance leap_year_dec (y : Z) : Decision (leap_year y).
Proof. unfold leap_year. apply _. Defined.

(** The lengths of the twelve months of the year [y]. *)
Definition month_lengths (y : Z) : list Z :=
  [31; if decide (leap_year y) then 29 else 28; 31; 30; 31; 30; 31; 31; 30; 31; 30; 31]%Z.

(** The calendar has a day [d] in the month [m] of the year [y], the
    years counted from 1 to 9999. *)
Definition calendar_day (y m d : Z) : Prop :=
  (1 <= y <= 9999)%Z /\ (1 <= m)%Z /\
  exists n, month_lengths y !! Z.to_nat (m - 1) = Some n /\ (1 <= d <= n)%Z.

(** The days whose midnight a column of nanoseconds holds: from 1677-09-22
    to 2262-04-11, the date being read as the number [yyyymmdd]. *)
Definition representable_day (y m d : Z) : Prop :=
  (16770922 <= y * 10000 + m * 100 + d <= 22620411)%Z.

(** The instants a column of nanoseconds holds. *)
Definition representable (t : Timestamp) : Prop :=
  ts_le (Stamp 1677 9 21 763 145224193) t /\ ts_le t (Stamp 2262 4 11 85636 854775807).

(** What the collection-date validator stores in place of a value, [now]
    being the current instant.  A missing value becomes [NaT]; an instant
    stays if the column holds it; a text that writes a day of the calendar
    as month/day/year becomes midnight of that day; the texts ["now"] and
    ["today"] become the current instant; whatever else becomes [NaT]. *)
Inductive parsed_date (now : Timestamp) : Cell -> Cell -> Prop :=
| parsed_missing (k : NullKind) :
    parsed_date now (VNull k) (VNull NaT)
| parsed_instant (t : Timestamp) :
    representable t ->
    parsed_date now (VTime t) (VTime t)
| parsed_instant_out (t : Timestamp) :
    ~ representable t ->
    parsed_date now (VTime t) (VNull NaT)
| parsed_text (s : string) (m d y : Z) :
    mdY_text m d y s -> calendar_day y m d -> representable_day y m d ->
    parsed_date now (VStr s) (VTime (Stamp y m d 0 0))
| parsed_clock (s : string) :
    s = "now" \/ s = "today" ->
    representable now ->
    parsed_date now (VStr s) (VTime now)
| parsed_clock_out (s : string) :
    s = "now" \/ s = "today" ->
    ~ representable now ->
    parsed_date now (VStr s) (VNull NaT)
| parsed_no_date (s : string) :
    s <> "now" -> s <> "today" ->
    ~ (exists m d y, mdY_text m d y s /\ calendar_day y m d /\ representable_day y m d) ->
    parsed_date now (VStr s) (VNull NaT)
| parsed_bool (b : bool) :
    parsed_date now (VBool b) (VNull NaT).

(** The reading of the duplicate pass under which no value is excluded:
    every row whose barcode occurs twice or more, missing or not, has an
    entry with the issue naming the value and all the rows that hold it. *)
Definition every_duplicate_reported (s : Env) : Prop :=
  forall (i : nat) (r : Row),
    df s !! i = Some r ->
    2 <= occurrences (Barcode_ID r) (column Barcode_ID (df s)) ->
    In (mkEntry (SourceFile r) i (OriginalRow r)
          [duplicate_issue (Barcode_ID r)
             (indices_of (Barcode_ID r) (column Barcode_ID (df s)))])
       (appended validate_barcodeid s).

(** The collection-date validator, then the availability validator, each
    leaving its state to the next whatever its outcome. *)
Definition normalize (clock : nat -> Timestamp) (today : date) (s : Env) : Env :=
  exec validate_available (exec (validate_collection_date clock today) s).

(** A row whose collection date is an instant from the lower bound to
    [today]. *)
Definition in_range (today : date) (r : Row) : Prop :=
  exists t, Date_Collected r = VTime t /\
            ts_le (Timestamp_of_date start_date) t /\ ts_le t (Timestamp_of_date today).

(** The parsing step as the specification words it: a text that does not
    write a day of the calendar as month/day/year is a parse failure; the
    row then holds the missing marker and is logged as such. *)
Definition parse_failure_gives_missing (clock : nat -> Timestamp) (today : date)
    (s : Env) : Prop :=
  forall (idx : nat) (r : Row) (text : string),
    df s !! idx = Some r ->
    Date_Collected r = VStr text ->
    ~ (exists m d y, mdY_text m d y text /\ calendar_day y m d) ->
    exists r', df (exec (validate_collection_date clock today) s) !! idx = Some r' /\
               isnull (Date_Collected r') = true /\
               entries_at idx (appended (validate_collection_date clock today) s)
               = [mkEntry (SourceFile r) idx (OriginalRow r) ["Date_Collected is NA"]].

(** Idempotence as the specification words it: a second run changes no
    date, no availability, and logs nothing for the rows in range. *)
Definition rerun_changes_nothing (clock : nat -> Timestamp) (today : date) (s : Env) : Prop :=
  let s1 := normalize clock today s in
  let s2 := normalize clock today s1 in
  Date_Collected <$> df s2 = Date_Collected <$> df s1 /\
  Available <$> df s2 = Available <$> df s1 /\
  forall (idx : nat) (r1 : Row),
    df s1 !! idx = Some r1 -> in_range today r1 ->
    entries_at idx (drop (length (log s1)) (log s2)) = [].

(** [r'] is [r] up to its [Date_Collected] and [Available] fields. *)
Definition keeps_provenance (r r' : Row) : Prop :=
  r' = mkRow (Barcode_ID r) (Patient_Study_ID r) (Date_Collected r') (Available r')
             (SourceFile r) (OriginalRow r).

(** ** Sample tables *)

(** Three rows: a missing patient ID, a lower-case one, a well-formed one. *)
Definition ptid_sample : Env :=
  mkEnv [ mkRow (IStr "AB000001") (INull NaN) (VStr "03/01/2021") (VStr "Y") "a.xlsx" 2;
          mkRow (IStr "AB000002") (IStr "in-7") (VStr "03/02/2021") (VStr "Y") "a.xlsx" 3;
          mkRow (IStr "AB000003") (IStr "221C") (VStr "03/03/2021") (VStr "N") "b.xlsx" 2 ]
        [].

(** The day of a run. *)
Definition run_day : date := Date 2026 11 4.

(** The clock during that run: ten in the morning and a fraction, a
    microsecond later for each element. *)
Definition run_clock (i : nat) : Timestamp :=
  Stamp 2026 11 4 36000 (123456000 + 1000 * Z.of_nat i).

(** Three rows whose collection dates are the texts ["now"] and ["today"]
    and a word that is no date. *)
Definition now_sample : Env :=
  mkEnv [ mkRow (IStr "AB000001") (IStr "C-01") (VStr "now") (VStr "Y") "a.xlsx" 2;
          mkRow (IStr "AB000002") (IStr "C-02") (VStr "today") (VStr "Y") "a.xlsx" 3;
          mkRow (IStr "AB000003") (IStr "C-03") (VStr "tomorrow") (VStr "N") "a.xlsx" 4 ]
        [].

(** Five rows whose collection dates are the day before the lower bound,
    the lower bound, a text that is no date, the day of the run and the day
    after it. *)
Definition date_sample : Env :=
  mkEnv [ mkRow (IStr "AB000001") (IStr "C-01") (VStr "02/13/2020") (VStr "Y") "a.xlsx" 2;
          mkRow (IStr "AB000002") (IStr "C-02") (VStr "02/14/2020") (VStr "Y") "a.xlsx" 3;
          mkRow (IStr "AB000003") (IStr "C-03") (VStr "unknown") (VStr "N") "a.xlsx" 4;
          mkRow (IStr "AB000004") (IStr "C-04") (VStr "11/04/2026") (VStr "N") "b.xlsx" 2;
          mkRow (IStr "AB000005") (IStr "C-05") (VStr "11/5/2026") (VStr "N") "b.xlsx" 3 ]
        [].

(** The end-to-end example of the specification: a 7-character barcode,
    then an 8-character one that a third row repeats. *)
Definition barcode_sample : Env :=
  mkEnv [ mkRow (IStr "AB12345") (IStr "C-01") (VStr "03/01/2021") (VStr "Y") "a.xlsx" 2;
          mkRow (IStr "AB123456") (IStr "C-02") (VStr "03/02/2021") (VStr "Y") "a.xlsx" 3;
          mkRow (IStr "AB123456") (IStr "C-03") (VStr "03/03/2021") (VStr "N") "b.xlsx" 2 ]
        [].

(** Two rows without a barcode, after a pair of rows sharing one. *)
Definition missing_barcode_sample : Env :=
  mkEnv [ mkRow (IStr "AB123456") (IStr "C-01") (VStr "03/01/2021") (VStr "Y") "a.xlsx" 2;
          mkRow (INull NaN) (IStr "C-02") (VStr "03/02/2021") (VStr "Y") "a.xlsx" 3;
          mkRow (IStr "AB123456") (IStr "C-03") (VStr "03/03/2021") (VStr "N") "b.xlsx" 2;
          mkRow (INull NaN) (IStr "C-04") (VStr "03/04/2021") (VStr "N") "b.xlsx" 3 ]
        [].

(** Two rows with distinct, well-formed barcodes. *)
Definition unique_sample : Env :=
  mkEnv [ mkRow (IStr "AB000001") (IStr "C-01") (VStr "03/01/2021") (VStr "Y") "a.xlsx" 2;
          mkRow (IStr "AB000002") (IStr "C-02") (VStr "03/02/2021") (VStr "N") "a.xlsx" 3 ]
        [].

(** An availability nobody can read, in a row that is not the last. *)
Definition available_sample : Env :=
  mkEnv [ mkRow (IStr "AB000001") (IStr "C-01") (VStr "03/01/2021") (VStr "maybe") "a.xlsx" 2;
          mkRow (IStr "AB000002") (IStr "C-02") (VStr "03/02/2021") (VStr "Y") "a.xlsx" 3 ]
        [].

(** A row without a barcode at the end of a table. *)
Definition missing_last_sample : Env :=
  mkEnv ([ mkRow (IStr "AB000001") (IStr "C-01") (VStr "03/01/2021") (VStr "Y") "a.xlsx" 2 ]
         ++ [ mkRow (INull NaN) (IStr "C-02") (VStr "03/02/2021") (VStr "Y") "a.xlsx" 3 ])
        [].

(** One valid row, not available. *)
Definition rerun_sample : Env :=
  mkEnv [ mkRow (IStr "AB000001") (IStr "C-01") (VStr "03/01/2021") (VStr "N") "a.xlsx" 2 ] [].

(** Two spreadsheets, one of which cannot be read. *)
Definition files_sample : list (string * ReadOutcome) :=
  [ ("a.xlsx", Sheet [ mkSheetRow (IStr "AB000001") (IStr "C-01") (VStr "03/01/2021") (VStr "Y");
                       mkSheetRow (IStr "AB000002") (IStr "C-02") (VStr "03/02/2021") (VStr "N") ]);
    ("b.xlsx", ReadError) ].


(** ** What each validator appends *)

(** The entries of the loops of [validate_ptid] and
    [validate_collection_date], and of the [if issues:] that follows the
    loop of [validate_available]. *)
Definition ptid_entries (t : Table) : Log :=
  concat (imap (row_entries ptid_row_issues Patient_Study_ID) t).

Definition date_entries (today : date) (t : Table) : Log :=
  concat (imap (row_entries (date_row_issues today) Date_Collected) t).

Definition available_entries (t : Table) : Log :=
  match last t with
  | Some r => row_entries (available_row_issues (length t - 1)) Available (length t - 1) r
  | None => []
  end.

(** An entry that names a row of [t] by its index, carries that row's
    provenance, and lists at least one issue. *)
Definition traceable (t : Table) (e : DiagnosticEntry) : Prop :=
  exists r, t !! master_index e = Some r /\
            file_name e = SourceFile r /\
            source_row_index e = OriginalRow r /\
            issues e <> [].

(** An entry of the duplicate pass: its one issue is a duplicate report. *)
Definition duplicate_report (e : DiagnosticEntry) : Prop :=
  exists barcode_value indicies, issues e = [duplicate_issue barcode_value indicies].

(** ** extract_data: the spreadsheets read *)

(** Whether [pd.read_excel] returned for a file. *)
Definition readable (f : string * ReadOutcome) : bool :=
  match snd f with Sheet _ => true | ReadError => false end.

(** The names, [file.name], of the spreadsheets read, in the order read. *)
Definition sheet_names (files : list (string * ReadOutcome)) : list string :=
  fst <$> List.filter readable files.

(** The provenance of a row. *)
Definition origin (r : Row) : string * Z := (SourceFile r, OriginalRow r).

(** ** extract_data: the choice of the archive *)

(** A path of [zip_files] with what [f.stat().st_atime] answers for it: the
    time of the last access, of which only the order matters, or nothing
    when [stat] raises. *)
Record ZipPath := mkZip { zip_name : string; st_atime : option Z }.

(** The key of every path, as [list.sort] computes them before it sorts:
    nothing if one call of the key function raises. *)
Fixpoint stat_all (zip_files : list ZipPath) : option (list (Z * string)) :=
  match zip_files with
  | [] => Some []
  | z :: zs =>
      match st_atime z, stat_all zs with
      | Some a, Some keyed => Some ((a, zip_name z) :: keyed)
      | _, _ => None
      end
  end.

(** [sort(key=..., reverse=True)]: by decreasing key, two paths of equal
    key staying in the order they had (the sort is stable, reversed or not). *)
Fixpoint insert_recent (x : Z * string) (l : list (Z * string)) : list (Z * string) :=
  match l with
  | [] => [x]
  | y :: l' => if (fst y <=? fst x)%Z then x :: l else y :: insert_recent x l'
  end.

Definition sort_recent (l : list (Z * string)) : list (Z * string) :=
  foldr insert_recent [] l.

(** The [try] block: [most_recent_zip] stays [None] when [stat] raises or
    when [zip_files[0]] raises an [IndexError], the [except] catching both. *)
Definition most_recent_zip (zip_files : list ZipPath) : option string :=
  match stat_all zip_files with
  | None => None
  | Some keyed =>
      match sort_recent keyed with
      | [] => None
      | z :: _ => Some (snd z)
      end
  end.

(** Three archives: the second and the third were accessed last, at the
    same time. *)
Definition zips_sample : list ZipPath :=
  [ mkZip "jan.zip" (Some 100%Z); mkZip "mar.zip" (Some 300%Z); mkZip "feb.zip" (Some 300%Z) ].

(** ** What a validator reads *)

(** Two tables whose rows have, one by one, the same provenance. *)
Definition same_origin (t t' : Table) : Prop :=
  Forall2 (fun r r' => origin r = origin r') t t'.

(** Two tables whose rows have, one by one, the same provenance and the
    same value in the column [col]. *)
Definition agree_on {V} (col : Row -> V) (t t' : Table) : Prop :=
  Forall2 (fun r r' => col r = col r' /\ origin r = origin r') t t'.

(** The barcodes and the provenance of [barcode_sample], with other
    patients, dates and availabilities, and a log that is not empty. *)
Definition other_columns_sample : Env :=
  mkEnv [ mkRow (IStr "AB12345") (INull NaN) (VNull NaN) (VStr "maybe") "a.xlsx" 2;
          mkRow (IStr "AB123456") (IStr "221C") (VStr "13/40/2021") (VStr "N") "a.xlsx" 3;
          mkRow (IStr "AB123456") (IStr "C-09") (VStr "03/03/1999") (VNull PyNone) "b.xlsx" 2 ]
        [ mkEntry "old.xlsx" 0 2 ["PTID is NA"] ].
(** * Properties *)

(** Two steps that come back in the proofs: reading the final state off
    the equation of a run, and ordering two concrete instants. *)
Ltac by_run H := unfold exec, outcome; rewrite H; reflexivity.

Ltac ts_order := unfold ts_lt; simpl; lia.

(** ** The logging loop shared by the validators *)

Lemma log_row_ok (t : Table) (l : Log) (idx : nat) (r : Row) (iss : list string) :
  t !! idx = Some r ->
  log_row idx iss (mkEnv t l)
  = (Ok tt, mkEnv t (l ++ [mkEntry (SourceFile r) idx (OriginalRow r) iss])).
Proof.
  intros H. unfold log_row, df_at, bind, get_df, log_invalid_row, ret. cbn.
  rewrite H. cbn. rewrite H. reflexivity.
Qed.

Section LoggingLoop.
Context {V : Type}.
Variable f : V -> list string.
Variable col : Row -> V.

Lemma row_entries_index (i : nat) (r : Row) (e : DiagnosticEntry) :
  In e (row_entries f col i r) -> master_index e = i.
Proof.
  unfold row_entries. destruct (nonempty _); simpl; [|tauto].
  intros [<-|[]]. reflexivity.
Qed.

Lemma for_each_log (suffix prefix : Table) (l : Log) :
  for_each (imap (fun i r => (length prefix + i, col r)) suffix) (log_body f) tt
           (mkEnv (prefix ++ suffix) l)
  = (Ok tt,
     mkEnv (prefix ++ suffix)
           (l ++ concat (imap (fun i r => row_entries f col (length prefix + i) r) suffix))).
Proof.
  revert prefix l. induction suffix as [|r rest IH]; intros prefix l.
  - simpl. unfold ret. rewrite !app_nil_r. reflexivity.
  - rewrite !imap_cons. cbn [for_each]. unfold bind at 1.
    assert (Hr : (prefix ++ r :: rest) !! (length prefix + 0) = Some r).
    { rewrite Nat.add_0_r. apply list_lookup_middle. reflexivity. }
    assert (Hstep : log_body f (length prefix + 0, col r) tt (mkEnv (prefix ++ r :: rest) l)
                    = (Ok tt, mkEnv (prefix ++ r :: rest)
                                    (l ++ row_entries f col (length prefix + 0) r))).
    { unfold log_body, row_entries. simpl.
      destruct (nonempty (f (col r))).
      - apply log_row_ok, Hr.
      - unfold ret. rewrite app_nil_r. reflexivity. }
    rewrite Hstep.
    specialize (IH (prefix ++ [r]) (l ++ row_entries f col (length prefix + 0) r)).
    rewrite <- app_assoc in IH. simpl in IH.
    rewrite (imap_ext _ (fun i r0 => (length (prefix ++ [r]) + i, col r0))).
    2:{ intros i x _. simpl. rewrite length_app. simpl. f_equal. lia. }
    rewrite IH. simpl concat. rewrite <- app_assoc. do 5 f_equal.
    apply imap_ext. intros i x _. simpl. rewrite length_app. simpl. f_equal. lia.
Qed.

Lemma for_each_log_items (t : Table) (l : Log) :
  for_each (items col t) (log_body f) tt (mkEnv t l)
  = (Ok tt, mkEnv t (l ++ concat (imap (row_entries f col) t))).
Proof.
  exact (for_each_log t [] l).
Qed.

Lemma entries_at_rows (t : Table) (k idx : nat) :
  entries_at idx (concat (imap (fun i r => row_entries f col (k + i) r) t))
  = if decide (k <= idx)
    then match t !! (idx - k) with Some r => row_entries f col idx r | None => [] end
    else [].
Proof.
  revert k. induction t as [|r rest IH]; intros k.
  - simpl. destruct (decide _); reflexivity.
  - rewrite imap_cons. simpl concat. unfold entries_at in *.
    rewrite List.filter_app.
    rewrite (imap_ext _ (fun i r0 => row_entries f col (S k + i) r0)).
    2:{ intros i x _. simpl. f_equal. lia. }
    rewrite IH. rewrite Nat.add_0_r.
    destruct (decide (k = idx)) as [->|Hne].
    + replace (idx - idx) with 0 by lia. simpl.
      destruct (decide (S idx <= idx)); [lia|].
      destruct (decide (idx <= idx)); [|lia].
      rewrite app_nil_r. apply forallb_filter_id.
      apply forallb_forall. intros e He.
      apply row_entries_index in He. apply Nat.eqb_eq, He.
    + assert (Hnil : List.filter (fun e => master_index e =? idx) (row_entries f col k r) = []).
      { unfold row_entries. destruct (nonempty _); simpl; [|reflexivity].
        destruct (Nat.eqb_spec k idx); [contradiction|reflexivity]. }
      rewrite Hnil. simpl.
      destruct (decide (S k <= idx)), (decide (k <= idx)); try lia; [|reflexivity].
      replace (idx - k) with (S (idx - S k)) by lia. reflexivity.
Qed.

Lemma entries_at_items (t : Table) (idx : nat) (r : Row) :
  t !! idx = Some r ->
  entries_at idx (concat (imap (row_entries f col) t)) = row_entries f col idx r.
Proof.
  intros H. pose proof (entries_at_rows t 0 idx) as E. simpl in E.
  destruct (decide (0 <= idx)); [|lia].
  rewrite Nat.sub_0_r, H in E. exact E.
Qed.
End LoggingLoop.

Lemma appended_app {A} (m : M A) (s : Env) (new : Log) :
  log (exec m s) = log s ++ new -> appended m s = new.
Proof.
  intros H. unfold appended. rewrite H. apply drop_app_length.
Qed.

Lemma append_assoc (a b c : string) : (a +:+ b) +:+ c = a +:+ (b +:+ c).
Proof.
  induction a as [|x a IH]; [reflexivity|].
  change (String x ((a +:+ b) +:+ c) = String x (a +:+ (b +:+ c))). rewrite IH. reflexivity.
Qed.

(** The text of the log file grows by the text of what is appended. *)
Lemma log_text_app (l l' : Log) : log_text (l ++ l') = log_text l +:+ log_text l'.
Proof.
  induction l as [|e l IH]; [reflexivity|].
  change (entry_text e +:+ log_text (l ++ l')
          = (entry_text e +:+ log_text l) +:+ log_text l').
  rewrite IH, append_assoc. reflexivity.
Qed.

Example entry_text_block :
  entry_text (mkEntry "a.xlsx" 1 3 ["PTID is NA"])
  = "File: 'a.xlsx', MasterIndex: 1, SourceRowIndex: 3" +:+ String "010"
      (" - PTID is NA" +:+ String "010" (String "010" "")).
Proof. reflexivity. Qed.

(** ** Substrings *)

Lemma append_cons (a : ascii) (s t : string) : String a s +:+ t = String a (s +:+ t).
Proof. reflexivity. Qed.

Lemma prefix_spec (needle hay : string) :
  String.prefix needle hay = true <-> exists post, hay = needle +:+ post.
Proof.
  revert hay. induction needle as [|a needle IH]; intros hay.
  - simpl. destruct hay; split; eauto.
  - destruct hay as [|b hay]; simpl.
    + split; [discriminate|]. intros [post H]. discriminate.
    + destruct (ascii_dec a b) as [->|Hne].
      * rewrite IH. split; intros [post H]; exists post;
          rewrite append_cons in *; congruence.
      * split; [discriminate|]. intros [post H]. rewrite append_cons in H. congruence.
Qed.

Lemma contains_spec (needle hay : string) :
  contains needle hay = true <-> substring_of needle hay.
Proof.
  unfold substring_of. induction hay as [|b hay IH].
  - simpl. rewrite orb_false_r. change (match needle with "" => true | String _ _ => false end)
      with (String.prefix needle ""). rewrite prefix_spec. split.
    + intros [post H]. exists "", post. exact H.
    + intros [pre [post H]]. destruct pre; [eauto|discriminate].
  - cbn [contains]. rewrite orb_true_iff, IH, prefix_spec. split.
    + intros [[post H]|[pre [post H]]].
      * exists "", post. exact H.
      * exists (String b pre), post. rewrite append_cons. congruence.
    + intros [[|c pre] [post H]].
      * left. eauto.
      * right. exists pre, post. rewrite append_cons in H. congruence.
Qed.

Lemma contains_none (hay : string) :
  existsb (fun identifier => contains identifier hay) identifiers = false <->
  (forall identifier, In identifier identifiers -> ~ substring_of identifier hay).
Proof.
  split.
  - intros H identifier Hin Hsub. apply contains_spec in Hsub.
    assert (existsb (fun i => contains i hay) identifiers = true); [|congruence].
    apply existsb_exists. eauto.
  - intros H. destruct (existsb _ _) eqn:E; [|reflexivity].
    apply existsb_exists in E as [i [Hin Hc]]. apply contains_spec in Hc.
    exfalso. eapply H; eauto.
Qed.

(** ** validate_ptid *)

Lemma validate_ptid_run (s : Env) :
  validate_ptid s
  = (Ok tt,
     mkEnv (df s) (log s ++ concat (imap (row_entries ptid_row_issues Patient_Study_ID) (df s)))).
Proof.
  destruct s as [t l]. unfold validate_ptid, bind, get_df. cbn [df log].
  apply (for_each_log_items ptid_row_issues Patient_Study_ID).
Qed.

(** C7. The patient-ID validator returns normally and leaves the table as
    it found it; it only appends to the log, and for every row: a missing
    [Patient_Study_ID] gives exactly one entry, with the single issue
    [PTID is NA]; a value whose text contains none of [C], [H], [IN] gives
    exactly one entry, with the single issue [PTID '<value>' is not correctly
    formatted]; a value whose text contains one of them gives no entry. *)
Theorem validate_ptid_correct (s : Env) :
  outcome validate_ptid s = Ok tt /\
  df (exec validate_ptid s) = df s /\
  log (exec validate_ptid s) = log s ++ appended validate_ptid s /\
  forall (idx : nat) (r : Row), df s !! idx = Some r ->
    let v := Patient_Study_ID r in
    let entry issue := mkEntry (SourceFile r) idx (OriginalRow r) [issue] in
    (isnull v = true ->
       entries_at idx (appended validate_ptid s) = [entry "PTID is NA"]) /\
    (isnull v = false ->
     (forall identifier, In identifier identifiers -> ~ substring_of identifier (py_str v)) ->
       entries_at idx (appended validate_ptid s)
       = [entry ("PTID '" +:+ py_str v +:+ "' is not correctly formatted")]) /\
    (isnull v = false ->
     (exists identifier, In identifier identifiers /\ substring_of identifier (py_str v)) ->
       entries_at idx (appended validate_ptid s) = []).
Proof.
  pose proof (validate_ptid_run s) as Hrun.
  assert (Hlog : log (exec validate_ptid s)
                 = log s ++ concat (imap (row_entries ptid_row_issues Patient_Study_ID) (df s))).
  { by_run Hrun. }
  pose proof (appended_app _ _ _ Hlog) as Happ.
  rewrite Happ, Hlog. unfold outcome, exec. rewrite Hrun. cbn [fst snd df log].
  split; [reflexivity|]. split; [reflexivity|]. split; [reflexivity|].
  intros idx r Hr.
  rewrite (entries_at_items _ _ _ _ _ Hr).
  unfold row_entries, ptid_row_issues. set (v := Patient_Study_ID r).
  split; [|split].
  - intros ->. reflexivity.
  - intros -> Hnone. apply contains_none in Hnone. rewrite Hnone. reflexivity.
  - intros -> [identifier [Hin Hsub]].
    assert (E : existsb (fun i => contains i (py_str v)) identifiers = true).
    { apply existsb_exists. exists identifier. split; [exact Hin|].
      apply contains_spec, Hsub. }
    rewrite E. reflexivity.
Qed.

Lemma validate_ptid_correct_witness :
  entries_at 0 (appended validate_ptid ptid_sample)
    = [mkEntry "a.xlsx" 0 2 ["PTID is NA"]] /\
  entries_at 1 (appended validate_ptid ptid_sample)
    = [mkEntry "a.xlsx" 1 3 ["PTID 'in-7' is not correctly formatted"]] /\
  entries_at 2 (appended validate_ptid ptid_sample) = [].
Proof.
  destruct (validate_ptid_correct ptid_sample) as (_ & _ & _ & H).
  split; [|split].
  - apply (H 0 _ eq_refl). reflexivity.
  - apply (H 1 _ eq_refl); [reflexivity|].
    intros identifier Hin Hsub. apply contains_spec in Hsub.
    simpl in Hin. destruct Hin as [<-|[<-|[<-|[]]]]; discriminate Hsub.
  - apply (H 2 _ eq_refl); [reflexivity|].
    exists "C". split; [simpl; auto|]. exists "221", "". reflexivity.
Defined.

(** ** validate_collection_date *)

Lemma ts_ltb_lt (a b : Timestamp) : ts_ltb a b = true <-> ts_lt a b.
Proof.
  unfold ts_ltb, ts_lt.
  rewrite !orb_true_iff, !andb_true_iff, !orb_true_iff, !andb_true_iff,
    !orb_true_iff, !andb_true_iff, !orb_true_iff, !andb_true_iff, !Z.ltb_lt, !Z.eqb_eq.
  tauto.
Qed.

Lemma ts_leb_le (a b : Timestamp) : ts_leb a b = true <-> ts_le a b.
Proof.
  unfold ts_leb. rewrite negb_true_iff, <- not_true_iff_false, ts_ltb_lt.
  destruct a as [y m d s n], b as [y' m' d' s' n']. unfold ts_le, ts_lt. simpl. split.
  - intros H.
    destruct (decide (y = y' /\ m = m' /\ d = d' /\ s = s' /\ n = n'))
      as [(-> & -> & -> & -> & ->)|N].
    + right. reflexivity.
    + left. lia.
  - intros [H|E]; [lia|]. injection E. lia.
Qed.

Lemma in_bounds_representable (t : Timestamp) : in_bounds t = true <-> representable t.
Proof.
  unfold in_bounds, representable. rewrite andb_true_iff, !ts_leb_le. reflexivity.
Qed.

(** *** The characters of a date *)

Lemma char_between_elem (lo hi c : ascii) :
  char_between lo hi c = true ->
  In c (map ascii_of_nat (seq (nat_of_ascii lo) (S (nat_of_ascii hi) - nat_of_ascii lo))).
Proof.
  intros H. apply andb_true_iff in H as [H1 H2]. apply Nat.leb_le in H1, H2.
  rewrite <- (ascii_nat_embedding c). apply in_map, in_seq. lia.
Qed.

Lemma digit_val_range (c : ascii) :
  char_between "0" "9" c = true -> (0 <= digit_val c <= 9)%Z.
Proof.
  intros H. apply char_between_elem in H. vm_compute in H.
  repeat (destruct H as [<-|H]; [vm_compute; split; discriminate|]). destruct H.
Qed.

Lemma digit_val_inj (a b : ascii) :
  char_between "0" "9" a = true -> char_between "0" "9" b = true ->
  digit_val a = digit_val b -> a = b.
Proof.
  intros Ha Hb. apply char_between_elem in Ha, Hb. vm_compute in Ha, Hb.
  repeat (destruct Ha as [<-|Ha]; [|]);
    try (destruct Ha);
    repeat (destruct Hb as [<-|Hb]; [first [reflexivity|intros E; discriminate E]|]);
    destruct Hb.
Qed.

(** The numerals of four digits, one by one. *)
Lemma zfill4_digits :
  forallb (fun n =>
             match zfill 4 (Z.of_nat n) with
             | String a (String b (String c (String d ""))) =>
                 char_between "0" "9" a && char_between "0" "9" b &&
                 char_between "0" "9" c && char_between "0" "9" d &&
                 (1000 * digit_val a + 100 * digit_val b + 10 * digit_val c + digit_val d
                  =? Z.of_nat n)%Z
             | _ => false
             end)
          (seq 0 (Z.to_nat 10000)) = true.
Proof. vm_compute. reflexivity. Qed.

Lemma zfill4_shape (y : Z) :
  (0 <= y <= 9999)%Z ->
  exists a b c d,
    zfill 4 y = String a (String b (String c (String d ""))) /\
    char_between "0" "9" a = true /\ char_between "0" "9" b = true /\
    char_between "0" "9" c = true /\ char_between "0" "9" d = true /\
    (1000 * digit_val a + 100 * digit_val b + 10 * digit_val c + digit_val d = y)%Z.
Proof.
  intros Hy. pose proof zfill4_digits as H. rewrite forallb_forall in H.
  specialize (H (Z.to_nat y)). rewrite Z2Nat.id in H by lia.
  assert (Hin : In (Z.to_nat y) (seq 0 (Z.to_nat 10000))) by (apply in_seq; lia).
  specialize (H Hin).
  destruct (zfill 4 y) as [|a [|b [|c [|d [|? ?]]]]]; try discriminate H.
  exists a, b, c, d. rewrite !andb_true_iff, Z.eqb_eq in H.
  destruct H as ((((Ha & Hb) & Hc) & Hd) & Hv). auto 10.
Qed.

(** *** What the format matches *)

Lemma append_nil_l (s : string) : "" +:+ s = s.
Proof. reflexivity. Qed.

Ltac text_ok :=
  split; [vm_compute; split; discriminate|];
  first [left; reflexivity | right; left; reflexivity | right; reflexivity
        | right; right; split; [reflexivity|reflexivity]].

Lemma re_month_sound (s : string) (m : Z) (r : string) :
  In (m, r) (re_month s) -> exists ms, month_text m ms /\ s = ms +:+ r.
Proof.
  unfold re_month. destruct s as [|c s']; [intros []|].
  intros H. apply in_app_iff in H as [H|H].
  - destruct s' as [|c2 r2]; [destruct H|]. apply in_app_iff in H as [H|H].
    + destruct (Ascii.eqb c "1" && char_between "0" "2" c2) eqn:E; [|destruct H].
      destruct H as [[= <- <-]|[]]. apply andb_true_iff in E as [E1 E2].
      apply Ascii.eqb_eq in E1 as ->. apply char_between_elem in E2. vm_compute in E2.
      exists (String "1" (String c2 "")). split; [|reflexivity].
      repeat (destruct E2 as [<-|E2]; [text_ok|]). destruct E2.
    + destruct (Ascii.eqb c "0" && char_between "1" "9" c2) eqn:E; [|destruct H].
      destruct H as [[= <- <-]|[]]. apply andb_true_iff in E as [E1 E2].
      apply Ascii.eqb_eq in E1 as ->. apply char_between_elem in E2. vm_compute in E2.
      exists (String "0" (String c2 "")). split; [|reflexivity].
      repeat (destruct E2 as [<-|E2]; [text_ok|]). destruct E2.
  - destruct (char_between "1" "9" c) eqn:E; [|destruct H].
    destruct H as [[= <- <-]|[]]. apply char_between_elem in E. vm_compute in E.
    exists (String c ""). split; [|reflexivity].
    repeat (destruct E as [<-|E]; [text_ok|]). destruct E.
Qed.

Lemma re_day_sound (s : string) (d : Z) (r : string) :
  In (d, r) (re_day s) -> exists ds, day_text d ds /\ s = ds +:+ r.
Proof.
  unfold re_day. destruct s as [|c s']; [intros []|].
  intros H. apply in_app_iff in H as [H|H].
  - destruct s' as [|c2 r2]; [destruct H|].
    apply in_app_iff in H as [H|H]; [|apply in_app_iff in H as [H|H]].
    + destruct (Ascii.eqb c "3" && char_between "0" "1" c2) eqn:E; [|destruct H].
      destruct H as [[= <- <-]|[]]. apply andb_true_iff in E as [E1 E2].
      apply Ascii.eqb_eq in E1 as ->. apply char_between_elem in E2. vm_compute in E2.
      exists (String "3" (String c2 "")). split; [|reflexivity].
      repeat (destruct E2 as [<-|E2]; [text_ok|]). destruct E2.
    + destruct (char_between "1" "2" c && char_between "0" "9" c2) eqn:E; [|destruct H].
      destruct H as [[= <- <-]|[]]. apply andb_true_iff in E as [E1 E2].
      apply char_between_elem in E1, E2. vm_compute in E1, E2.
      exists (String c (String c2 "")). split; [|reflexivity].
      destruct E1 as [<-|[<-|[]]];
        repeat (destruct E2 as [<-|E2]; [text_ok|]); destruct E2.
    + destruct (Ascii.eqb c "0" && char_between "1" "9" c2) eqn:E; [|destruct H].
      destruct H as [[= <- <-]|[]]. apply andb_true_iff in E as [E1 E2].
      apply Ascii.eqb_eq in E1 as ->. apply char_between_elem in E2. vm_compute in E2.
      exists (String "0" (String c2 "")). split; [|reflexivity].
      repeat (destruct E2 as [<-|E2]; [text_ok|]). destruct E2.
  - apply in_app_iff in H as [H|H].
    + destruct (char_between "1" "9" c) eqn:E; [|destruct H].
      destruct H as [[= <- <-]|[]]. apply char_between_elem in E. vm_compute in E.
      exists (String c ""). split; [|reflexivity].
      repeat (destruct E as [<-|E]; [text_ok|]). destruct E.
    + destruct s' as [|c2 r2]; [destruct H|].
      destruct (Ascii.eqb c " " && char_between "1" "9" c2) eqn:E; [|destruct H].
      destruct H as [[= <- <-]|[]]. apply andb_true_iff in E as [E1 E2].
      apply Ascii.eqb_eq in E1 as ->. apply char_between_elem in E2. vm_compute in E2.
      exists (String " " (String c2 "")). split; [|reflexivity].
      repeat (destruct E2 as [<-|E2]; [text_ok|]). destruct E2.
Qed.

Lemma re_year_digits (a b c d : ascii) (r : string) :
  char_between "0" "9" a = true -> char_between "0" "9" b = true ->
  char_between "0" "9" c = true -> char_between "0" "9" d = true ->
  re_year (String a (String b (String c (String d r))))
  = [((1000 * digit_val a + 100 * digit_val b + 10 * digit_val c + digit_val d)%Z, r)].
Proof.
  intros Ha Hb Hc Hd. unfold re_year. rewrite Ha, Hb, Hc, Hd. reflexivity.
Qed.

Lemma re_year_sound (s : string) (y : Z) (r : string) :
  In (y, r) (re_year s) -> exists ys, year_text y ys /\ s = ys +:+ r.
Proof.
  unfold re_year. destruct s as [|a [|b [|c [|d r']]]]; try (intros []).
  destruct (char_between "0" "9" a) eqn:Ha; [|intros []].
  destruct (char_between "0" "9" b) eqn:Hb; [|intros []].
  destruct (char_between "0" "9" c) eqn:Hc; [|intros []].
  destruct (char_between "0" "9" d) eqn:Hd; [|intros []].
  intros [[= <- <-]|[]].
  pose proof (digit_val_range a Ha). pose proof (digit_val_range b Hb).
  pose proof (digit_val_range c Hc). pose proof (digit_val_range d Hd).
  set (y := (1000 * digit_val a + 100 * digit_val b + 10 * digit_val c + digit_val d)%Z).
  assert (Hy : (0 <= y <= 9999)%Z) by (unfold y; lia).
  destruct (zfill4_shape y Hy) as (a' & b' & c' & d' & Hz & Ha' & Hb' & Hc' & Hd' & Hv).
  pose proof (digit_val_range a' Ha'). pose proof (digit_val_range b' Hb').
  pose proof (digit_val_range c' Hc'). pose proof (digit_val_range d' Hd').
  assert (a' = a) as -> by (apply digit_val_inj; [assumption..|unfold y in Hv; lia]).
  assert (b' = b) as -> by (apply digit_val_inj; [assumption..|unfold y in Hv; lia]).
  assert (c' = c) as -> by (apply digit_val_inj; [assumption..|unfold y in Hv; lia]).
  assert (d' = d) as -> by (apply digit_val_inj; [assumption..|unfold y in Hv; lia]).
  exists (zfill 4 y). split; [split; [exact Hy|reflexivity]|]. rewrite Hz. reflexivity.
Qed.

Lemma re_char_sound (ch : ascii) (s r : string) :
  In r (re_char ch s) -> s = String ch r.
Proof.
  unfold re_char. destruct s as [|c s']; [intros []|].
  destruct (Ascii.eqb c ch) eqn:E; [|intros []].
  apply Ascii.eqb_eq in E as ->. intros [->|[]]. reflexivity.
Qed.

(** Every match of the format splits the text into a month, a day and a
    year between two slashes, and what is left over. *)
Lemma re_mdY_sound (s : string) (m d y : Z) (rest : string) :
  In (m, d, y, rest) (re_mdY s) ->
  exists ms ds ys,
    month_text m ms /\ day_text d ds /\ year_text y ys /\
    s = ms +:+ "/" +:+ ds +:+ "/" +:+ ys +:+ rest.
Proof.
  unfold re_mdY. intros H.
  apply list_elem_of_In, list_elem_of_bind in H as ([m' r1] & H & H1).
  apply list_elem_of_bind in H as (r2 & H & H2).
  apply list_elem_of_bind in H as ([d' r3] & H & H3).
  apply list_elem_of_bind in H as (r4 & H & H4).
  apply list_elem_of_bind in H as ([y' r5] & H & H5).
  apply list_elem_of_singleton in H. injection H as -> -> -> ->.
  apply list_elem_of_In in H1, H2, H3, H4, H5.
  apply re_month_sound in H1 as (ms & Hms & ->).
  apply re_char_sound in H2 as ->.
  apply re_day_sound in H3 as (ds & Hds & ->).
  apply re_char_sound in H4 as ->.
  apply re_year_sound in H5 as (ys & Hys & ->).
  exists ms, ds, ys. repeat (split; [assumption|]).
  reflexivity.
Qed.

Lemma bind_head {A B} (f : A -> list B) (l : list A) (x : A) (others : list A) :
  l = x :: others -> Forall (fun z => f z = []) others -> l ≫= f = f x.
Proof.
  intros -> H. change ((x :: others) ≫= f) with (f x ++ (others ≫= f)).
  assert (E : others ≫= f = []).
  { induction H as [|z o Hz _ IH]; [reflexivity|].
    change ((z :: o) ≫= f) with (f z ++ (o ≫= f)). rewrite Hz, IH. reflexivity. }
  rewrite E. apply app_nil_r.
Qed.

Ltac head_match :=
  eexists; split; [reflexivity|repeat constructor].

(** A month followed by a slash: the first match takes the whole month,
    and no other match is followed by a slash. *)
Lemma re_month_complete (m : Z) (ms r : string) :
  month_text m ms ->
  exists others,
    re_month (ms +:+ String "/" r) = (m, String "/" r) :: others /\
    Forall (fun z => re_char "/" (snd z) = []) others.
Proof.
  intros [Hm Hs].
  assert (Hc : In m [1; 2; 3; 4; 5; 6; 7; 8; 9; 10; 11; 12]%Z) by (cbn; lia).
  cbn in Hc.
  repeat (destruct Hc as [<-|Hc];
          [vm_compute in Hs; destruct Hs as [->| ->]; head_match|]).
  destruct Hc.
Qed.

Lemma re_day_complete (d : Z) (ds r : string) :
  day_text d ds ->
  exists others,
    re_day (ds +:+ String "/" r) = (d, String "/" r) :: others /\
    Forall (fun z => re_char "/" (snd z) = []) others.
Proof.
  intros [Hd Hs].
  assert (Hc : In d [1; 2; 3; 4; 5; 6; 7; 8; 9; 10; 11; 12; 13; 14; 15; 16; 17; 18; 19; 20;
                     21; 22; 23; 24; 25; 26; 27; 28; 29; 30; 31]%Z) by (cbn; lia).
  cbn in Hc.
  repeat (destruct Hc as [<-|Hc];
          [destruct Hs as [->|[->|[Hlt ->]]];
           [head_match|head_match|first [head_match|exfalso; lia]]|]).
  destruct Hc.
Qed.

Lemma re_mdY_complete (m d y : Z) (s : string) :
  mdY_text m d y s -> re_mdY s = [(m, d, y, "")].
Proof.
  intros (ms & ds & ys & Hm & Hd & [Hy ->] & ->).
  destruct (zfill4_shape y Hy) as (a & b & c & e & -> & Ha & Hb & Hc & He & Hv).
  set (ys := String a (String b (String c (String e "")))).
  destruct (re_month_complete m ms (ds +:+ String "/" ys) Hm) as (o1 & E1 & F1).
  destruct (re_day_complete d ds ys Hd) as (o2 & E2 & F2).
  unfold re_mdY.
  change (ms +:+ "/" +:+ ds +:+ "/" +:+ ys) with (ms +:+ String "/" (ds +:+ String "/" ys)).
  erewrite bind_head; [|exact E1|].
  2:{ eapply Forall_impl; [exact F1|]. intros [m' r1] Hz. cbn [snd] in Hz.
      rewrite Hz. reflexivity. }
  cbv beta iota.
  erewrite (bind_head _ (re_char "/" _)); [|reflexivity|constructor].
  cbv beta iota.
  erewrite bind_head; [|exact E2|].
  2:{ eapply Forall_impl; [exact F2|]. intros [d' r1] Hz. cbn [snd] in Hz.
      rewrite Hz. reflexivity. }
  cbv beta iota.
  erewrite (bind_head _ (re_char "/" _)); [|reflexivity|constructor].
  cbv beta iota.
  unfold ys. rewrite (re_year_digits a b c e "" Ha Hb Hc He), Hv. reflexivity.
Qed.

(** *** The calendar and the bounds of the column *)

Lemma is_leap_spec (y : Z) : is_leap y = true <-> leap_year y.
Proof.
  unfold is_leap, leap_year.
  rewrite andb_true_iff, orb_true_iff, negb_true_iff, !Z.eqb_eq, Z.eqb_neq.
  pose proof (Z.div_mod y 4 ltac:(lia)). pose proof (Z.mod_pos_bound y 4 ltac:(lia)).
  pose proof (Z.div_mod y 400 ltac:(lia)). lia.
Qed.

Lemma month_cases (m : Z) :
  (1 <= m <= 12)%Z -> In m [1; 2; 3; 4; 5; 6; 7; 8; 9; 10; 11; 12]%Z.
Proof. cbn. lia. Qed.

Lemma valid_date_calendar (y m d : Z) : valid_date y m d = true <-> calendar_day y m d.
Proof.
  unfold valid_date, calendar_day. rewrite !andb_true_iff, !Z.leb_le. split.
  - intros (((((Hy1 & Hy2) & Hm1) & Hm2) & Hd1) & Hd2).
    split; [lia|]. split; [lia|].
    exists (days_in_month y m). split; [|lia].
    pose proof (month_cases m (conj Hm1 Hm2)) as Hc. cbn in Hc.
    repeat (destruct Hc as [<-|Hc]; [try reflexivity|]); [|destruct Hc].
    unfold month_lengths, days_in_month. cbn.
    destruct (decide (leap_year y)) as [L|L], (is_leap y) eqn:E; try reflexivity.
    + apply is_leap_spec in L. congruence.
    + apply is_leap_spec in E. contradiction.
  - intros (Hy & Hm1 & n & Hn & Hd).
    assert (Hm2 : (m <= 12)%Z).
    { apply lookup_lt_Some in Hn. cbn in Hn. lia. }
    assert (E : n = days_in_month y m).
    { pose proof (month_cases m (conj Hm1 Hm2)) as Hc. cbn in Hc.
      repeat (destruct Hc as [<-|Hc];
              [try (cbn in Hn; injection Hn as <-; reflexivity)|]); [|destruct Hc].
      unfold month_lengths, days_in_month in *. cbn in Hn |- *.
      destruct (decide (leap_year y)) as [L|L], (is_leap y) eqn:E;
        injection Hn as <-; try reflexivity.
      - apply is_leap_spec in L. congruence.
      - apply is_leap_spec in E. contradiction. }
    subst n. lia.
Qed.

Lemma calendar_day_range (y m d : Z) :
  calendar_day y m d -> (1 <= m <= 12)%Z /\ (1 <= d <= 31)%Z.
Proof.
  intros H. apply valid_date_calendar in H. unfold valid_date in H.
  rewrite !andb_true_iff, !Z.leb_le in H.
  destruct H as (((((_ & _) & Hm1) & Hm2) & Hd1) & Hd2).
  split; [lia|]. split; [lia|].
  unfold days_in_month in Hd2.
  destruct (m =? 2)%Z; [destruct (is_leap y); lia|].
  destruct (_ || _); lia.
Qed.

Lemma in_bounds_day (y m d : Z) :
  (1 <= m <= 12)%Z -> (1 <= d <= 31)%Z ->
  in_bounds (Stamp y m d 0 0) = true <-> representable_day y m d.
Proof.
  intros Hm Hd. rewrite in_bounds_representable.
  unfold representable, representable_day, ts_le, ts_lt. cbn. split.
  - intros [[H1|E1] [H2|E2]]; try discriminate; lia.
  - intros H. split; left; lia.
Qed.

Lemma append_nil_r (s : string) : s +:+ "" = s.
Proof.
  induction s as [|a s IH]; [reflexivity|]. rewrite append_cons, IH. reflexivity.
Qed.

(** The parser, in the words of the specification: a text gives an instant
    exactly when it writes, as month/day/year, a day that the calendar has
    and the column holds, and the instant is midnight of that day. *)
Lemma strptime_mdY_spec (s : string) (t : Timestamp) :
  strptime_mdY s = Some t <->
  exists m d y,
    mdY_text m d y s /\ calendar_day y m d /\ representable_day y m d /\
    t = Stamp y m d 0 0.
Proof.
  unfold strptime_mdY. split.
  - destruct (re_mdY s) as [|[[[m d] y] rest] l] eqn:E; [discriminate|].
    destruct (String.eqb rest "" && valid_date y m d && in_bounds (Stamp y m d 0 0)) eqn:C;
      [|discriminate].
    intros [= <-]. apply andb_true_iff in C as [C Hb]. apply andb_true_iff in C as [Hr Hv].
    apply String.eqb_eq in Hr as ->. apply valid_date_calendar in Hv.
    destruct (calendar_day_range _ _ _ Hv) as [Hm Hd].
    apply (in_bounds_day y m d Hm Hd) in Hb.
    assert (Hin : In (m, d, y, "") (re_mdY s)) by (rewrite E; left; reflexivity).
    apply re_mdY_sound in Hin as (ms & ds & ys & Hms & Hds & Hys & ->).
    exists m, d, y. split; [|auto].
    exists ms, ds, ys. repeat (split; [assumption|]).
    rewrite append_nil_r. reflexivity.
  - intros (m & d & y & Ht & Hc & Hr & ->).
    rewrite (re_mdY_complete _ _ _ _ Ht).
    destruct (calendar_day_range _ _ _ Hc) as [Hm Hd].
    apply valid_date_calendar in Hc. apply (in_bounds_day y m d Hm Hd) in Hr.
    rewrite Hc, Hr. reflexivity.
Qed.

Lemma strptime_mdY_midnight (s : string) (t : Timestamp) :
  strptime_mdY s = Some t ->
  ts_secs t = 0%Z /\ ts_nanos t = 0%Z /\ in_bounds t = true.
Proof.
  unfold strptime_mdY. destruct (re_mdY s) as [|[[[m d] y] rest] _]; [discriminate|].
  destruct (String.eqb rest "" && valid_date y m d && in_bounds (Stamp y m d 0 0)) eqn:E;
    [|discriminate].
  intros [= <-]. apply andb_true_iff in E as [_ Hb]. auto.
Qed.

(** [to_datetime] answers an instant the column holds, or [NaT]. *)
Lemma to_datetime_cases (now : Timestamp) (c : Cell) :
  (exists t, to_datetime now c = VTime t /\ in_bounds t = true) \/
  to_datetime now c = VNull NaT.
Proof.
  assert (Hc : forall t, (exists t', coerce t = VTime t' /\ in_bounds t' = true) \/
                         coerce t = VNull NaT).
  { intros t. unfold coerce. destruct (in_bounds t) eqn:E; eauto. }
  unfold to_datetime. destruct c as [k|s|b|t]; auto.
  - destruct (today_or_now _); [apply Hc|].
    destruct (strptime_mdY _) as [t|] eqn:E; [|auto].
    left. exists t. split; [reflexivity|]. apply (strptime_mdY_midnight _ _ E).
  - destruct (today_or_now _); [apply Hc|].
    destruct (strptime_mdY _) as [t|] eqn:E; [|auto].
    left. exists t. split; [reflexivity|]. apply (strptime_mdY_midnight _ _ E).
Qed.

Lemma to_datetime_idempotent (now now' : Timestamp) (c : Cell) :
  to_datetime now' (to_datetime now c) = to_datetime now c.
Proof.
  destruct (to_datetime_cases now c) as [(t & -> & Hb)| ->]; [|reflexivity].
  cbn. unfold coerce. rewrite Hb. reflexivity.
Qed.

Lemma today_or_now_spec (s : string) :
  today_or_now s = true <-> s = "now" \/ s = "today".
Proof.
  unfold today_or_now. rewrite orb_true_iff, !String.eqb_eq. reflexivity.
Qed.

Lemma coerce_parsed (now t : Timestamp) (s : string) :
  s = "now" \/ s = "today" -> t = now -> parsed_date now (VStr s) (coerce t).
Proof.
  intros Hs ->. unfold coerce. destruct (in_bounds now) eqn:E.
  - apply parsed_clock; [exact Hs|]. apply in_bounds_representable, E.
  - apply parsed_clock_out; [exact Hs|]. rewrite <- in_bounds_representable, E. discriminate.
Qed.

(** What [to_datetime] stores is what [parsed_date] describes. *)
Lemma to_datetime_parsed (now : Timestamp) (c : Cell) : parsed_date now c (to_datetime now c).
Proof.
  destruct c as [k|s|b|t]; cbn [to_datetime py_str Cell_PyValue].
  - constructor.
  - destruct (today_or_now s) eqn:En.
    + apply coerce_parsed; [apply today_or_now_spec, En|reflexivity].
    + assert (Hn : s <> "now" /\ s <> "today").
      { split; intros ->; discriminate En. }
      destruct (strptime_mdY s) as [t|] eqn:E.
      * apply strptime_mdY_spec in E as (m & d & y & Ht & Hc & Hr & ->).
        apply parsed_text; assumption.
      * apply parsed_no_date; [apply Hn|apply Hn|].
        intros (m & d & y & Ht & Hc & Hr).
        assert (Some (Stamp y m d 0 0) = None) as Habs; [|discriminate Habs].
        rewrite <- E. symmetry. apply strptime_mdY_spec. eauto 10.
  - destruct b; constructor.
  - unfold coerce. destruct (in_bounds t) eqn:E.
    + apply parsed_instant, in_bounds_representable, E.
    + apply parsed_instant_out. rewrite <- in_bounds_representable, E. discriminate.
Qed.

Lemma mdY_text_unique (s : string) (m d y m' d' y' : Z) :
  mdY_text m d y s -> mdY_text m' d' y' s -> m = m' /\ d = d' /\ y = y'.
Proof.
  intros H H'. apply re_mdY_complete in H, H'. rewrite H in H'.
  injection H' as -> -> ->. auto.
Qed.

Lemma not_a_date (s : string) :
  re_mdY s = [] -> ~ (exists m d y, mdY_text m d y s /\ calendar_day y m d).
Proof.
  intros E (m & d & y & H & _). apply re_mdY_complete in H. rewrite E in H. discriminate H.
Qed.

Lemma mdY_text_not_clock (s : string) (m d y : Z) :
  mdY_text m d y s -> today_or_now s = false.
Proof.
  intros H. apply re_mdY_complete in H.
  destruct (today_or_now s) eqn:E; [|reflexivity].
  apply today_or_now_spec in E as [->| ->]; discriminate H.
Qed.

(** [parsed_date] leaves no choice: it names the value [to_datetime]
    computes, and no other. *)
Lemma parsed_date_to_datetime (now : Timestamp) (c c' : Cell) :
  parsed_date now c c' -> c' = to_datetime now c.
Proof.
  intros H.
  destruct H as [k|t Ht|t Ht|s m d y Hs Hc Hr|s Hs Hn|s Hs Hn|s Hn1 Hn2 Hs|b];
    cbn [to_datetime py_str Cell_PyValue].
  - reflexivity.
  - apply in_bounds_representable in Ht. unfold coerce. rewrite Ht. reflexivity.
  - unfold coerce. destruct (in_bounds t) eqn:E; [|reflexivity].
    apply in_bounds_representable in E. contradiction.
  - rewrite (mdY_text_not_clock _ _ _ _ Hs).
    assert (E : strptime_mdY s = Some (Stamp y m d 0 0)).
    { apply strptime_mdY_spec. eauto 10. }
    rewrite E. reflexivity.
  - apply today_or_now_spec in Hs. rewrite Hs.
    apply in_bounds_representable in Hn. unfold coerce. rewrite Hn. reflexivity.
  - apply today_or_now_spec in Hs. rewrite Hs.
    unfold coerce. destruct (in_bounds now) eqn:E; [|reflexivity].
    apply in_bounds_representable in E. contradiction.
  - destruct (today_or_now s) eqn:E.
    { apply today_or_now_spec in E as [E|E]; contradiction. }
    destruct (strptime_mdY s) as [t|] eqn:Ep; [|reflexivity].
    exfalso. apply Hs. apply strptime_mdY_spec in Ep as (m & d & y & H1 & H2 & H3 & _).
    eauto 10.
  - destruct b; reflexivity.
Qed.

Lemma parsed_date_functional (now : Timestamp) (c c1 c2 : Cell) :
  parsed_date now c c1 -> parsed_date now c c2 -> c1 = c2.
Proof.
  intros H1 H2. apply parsed_date_to_datetime in H1, H2. congruence.
Qed.

(** What [strptime_mdY] accepts: zero padding is optional, a day may be
    written with a leading space, the year takes four digits, nothing may
    follow, and the date must exist and be representable. *)
Example strptime_padded : strptime_mdY "02/13/2020" = Some (Stamp 2020 2 13 0 0).
Proof. reflexivity. Qed.

Example strptime_unpadded : strptime_mdY "2/5/2021" = Some (Stamp 2021 2 5 0 0).
Proof. reflexivity. Qed.

Example strptime_space_day : strptime_mdY "12/ 5/2021" = Some (Stamp 2021 12 5 0 0).
Proof. reflexivity. Qed.

Example strptime_leap_day : strptime_mdY "02/29/2024" = Some (Stamp 2024 2 29 0 0).
Proof. reflexivity. Qed.

Example strptime_no_leap_day : strptime_mdY "02/29/2023" = None.
Proof. reflexivity. Qed.

Example strptime_month_13 : strptime_mdY "13/01/2021" = None.
Proof. reflexivity. Qed.

Example strptime_short_year : strptime_mdY "02/05/21" = None.
Proof. reflexivity. Qed.

Example strptime_iso : strptime_mdY "2021-02-05" = None.
Proof. reflexivity. Qed.

Example strptime_trailing : strptime_mdY "02/05/2021 10:30" = None.
Proof. reflexivity. Qed.

Example strptime_out_of_bounds : strptime_mdY "01/01/1500" = None.
Proof. reflexivity. Qed.

(** How an instant is written: the fraction of a second is left out when
    it is zero, and takes six digits or nine. *)
Example Timestamp_str_seconds :
  Timestamp_str (Stamp 2026 11 4 36000 0) = "2026-11-04 10:00:00".
Proof. reflexivity. Qed.

Example Timestamp_str_micros :
  Timestamp_str (Stamp 2026 11 4 36000 5000) = "2026-11-04 10:00:00.000005".
Proof. reflexivity. Qed.

Example Timestamp_str_nanos :
  Timestamp_str (Stamp 2026 11 4 36000 123456789) = "2026-11-04 10:00:00.123456789".
Proof. reflexivity. Qed.

(** The current instant with its fraction of a second, and an instant
    from a spreadsheet that the column cannot hold. *)
Example to_datetime_now :
  py_str (to_datetime (run_clock 0) (VStr "now")) = "2026-11-04 10:00:00.123456".
Proof. reflexivity. Qed.

Example to_datetime_year_3000 :
  to_datetime (run_clock 0) (VTime (Stamp 3000 1 1 0 0)) = VNull NaT.
Proof. reflexivity. Qed.

Lemma validate_collection_date_run (clock : nat -> Timestamp) (today : date) (s : Env) :
  validate_collection_date clock today s
  = (Ok tt,
     mkEnv (to_datetime_column clock (df s))
           (log s ++ concat (imap (row_entries (date_row_issues today) Date_Collected)
                                  (to_datetime_column clock (df s))))).
Proof.
  destruct s as [t l]. unfold validate_collection_date, bind, get_df, set_df.
  cbn [df log].
  apply (for_each_log_items (date_row_issues today) Date_Collected).
Qed.

Lemma to_datetime_column_lookup (clock : nat -> Timestamp) (t : Table) (idx : nat) (r : Row) :
  t !! idx = Some r ->
  to_datetime_column clock t !! idx
  = Some (set_Date_Collected (to_datetime (clock idx) (Date_Collected r)) r).
Proof.
  intros H. unfold to_datetime_column. rewrite list_lookup_imap, H. reflexivity.
Qed.

Lemma length_to_datetime_column (clock : nat -> Timestamp) (t : Table) :
  length (to_datetime_column clock t) = length t.
Proof. apply length_imap. Qed.

Lemma to_datetime_column_last (clock : nat -> Timestamp) (t : Table) (r : Row) :
  last t = Some r ->
  last (to_datetime_column clock t)
  = Some (set_Date_Collected (to_datetime (clock (length t - 1)) (Date_Collected r)) r).
Proof.
  rewrite !last_lookup. intros H.
  rewrite length_to_datetime_column.
  rewrite (to_datetime_column_lookup _ _ _ _ H). do 4 f_equal. lia.
Qed.

(** C2. The collection-date validator returns normally, keeps the number
    of rows and only appends to the log.  Every row's [Date_Collected] is
    replaced, the other fields staying, by the one value [parsed_date]
    names: a text that writes a day of the calendar as month/day/year
    becomes midnight of that day, and what is no such text becomes the
    missing marker [NaT], except that the texts ["now"] and ["today"]
    become the instant of the run.  Then, for the normalized value of each
    row: missing gives exactly one entry with [Date_Collected is NA]; an
    instant strictly before 2020-02-14 or strictly after today gives
    exactly one entry with the out-of-range issue; an instant from
    2020-02-14 to today, both included, gives no entry. *)
Theorem validate_collection_date_correct (clock : nat -> Timestamp) (today : date)
    (s : Env) :
  outcome (validate_collection_date clock today) s = Ok tt /\
  length (df (exec (validate_collection_date clock today) s)) = length (df s) /\
  log (exec (validate_collection_date clock today) s)
    = log s ++ appended (validate_collection_date clock today) s /\
  forall (idx : nat) (r : Row), df s !! idx = Some r ->
    exists r' : Row,
      df (exec (validate_collection_date clock today) s) !! idx = Some r' /\
      r' = set_Date_Collected (Date_Collected r') r /\
      parsed_date (clock idx) (Date_Collected r) (Date_Collected r') /\
      (forall c, parsed_date (clock idx) (Date_Collected r) c -> c = Date_Collected r') /\
      let new := entries_at idx (appended (validate_collection_date clock today) s) in
      let entry issue := mkEntry (SourceFile r) idx (OriginalRow r) [issue] in
      (isnull (Date_Collected r') = true -> new = [entry "Date_Collected is NA"]) /\
      (forall t, Date_Collected r' = VTime t ->
         ts_lt t (Timestamp_of_date start_date) \/ ts_lt (Timestamp_of_date today) t ->
         new = [entry ("Date_Collected is outside of range, date: " +:+ Timestamp_str t)]) /\
      (forall t, Date_Collected r' = VTime t ->
         ts_le (Timestamp_of_date start_date) t -> ts_le t (Timestamp_of_date today) ->
         new = []).
Proof.
  pose proof (validate_collection_date_run clock today s) as Hrun.
  set (t' := to_datetime_column clock (df s)) in *.
  assert (Hlog : log (exec (validate_collection_date clock today) s)
                 = log s ++ concat (imap (row_entries (date_row_issues today) Date_Collected) t')).
  { by_run Hrun. }
  pose proof (appended_app _ _ _ Hlog) as Happ.
  rewrite Happ, Hlog. unfold outcome, exec. rewrite Hrun. cbn [fst snd df log].
  split; [reflexivity|].
  split; [apply length_to_datetime_column|].
  split; [reflexivity|].
  intros idx r Hr.
  pose proof (to_datetime_column_lookup clock _ _ _ Hr) as Hr'. fold t' in Hr'.
  eexists. split; [exact Hr'|]. split; [reflexivity|].
  cbn [Date_Collected set_Date_Collected].
  split; [apply to_datetime_parsed|].
  split; [intros c Hc; apply parsed_date_to_datetime, Hc|].
  rewrite (entries_at_items _ _ _ _ _ Hr').
  unfold row_entries, date_row_issues. cbn [Date_Collected set_Date_Collected SourceFile OriginalRow].
  split; [|split].
  - intros ->. reflexivity.
  - intros t -> Hout. cbn [isnull].
    assert (E : ts_ltb t (Timestamp_of_date start_date) || ts_ltb (Timestamp_of_date today) t = true).
    { apply orb_true_iff. rewrite !ts_ltb_lt. exact Hout. }
    rewrite E. reflexivity.
  - intros t -> Hlo Hhi. cbn [isnull].
    apply ts_leb_le in Hlo, Hhi. unfold ts_leb in Hlo, Hhi.
    apply negb_true_iff in Hlo, Hhi. rewrite Hlo, Hhi. reflexivity.
Qed.

Lemma validate_collection_date_correct_witness :
  entries_at 0 (appended (validate_collection_date run_clock run_day) date_sample)
    = [mkEntry "a.xlsx" 0 2
         ["Date_Collected is outside of range, date: 2020-02-13 00:00:00"]] /\
  entries_at 1 (appended (validate_collection_date run_clock run_day) date_sample) = [] /\
  entries_at 2 (appended (validate_collection_date run_clock run_day) date_sample)
    = [mkEntry "a.xlsx" 2 4 ["Date_Collected is NA"]] /\
  entries_at 3 (appended (validate_collection_date run_clock run_day) date_sample) = [] /\
  entries_at 4 (appended (validate_collection_date run_clock run_day) date_sample)
    = [mkEntry "b.xlsx" 4 3
         ["Date_Collected is outside of range, date: 2026-11-05 00:00:00"]] /\
  entries_at 0 (appended (validate_collection_date run_clock run_day) now_sample)
    = [mkEntry "a.xlsx" 0 2
         ["Date_Collected is outside of range, date: 2026-11-04 10:00:00.123456"]].
Proof.
  destruct (validate_collection_date_correct run_clock run_day date_sample) as (_ & _ & _ & H).
  destruct (validate_collection_date_correct run_clock run_day now_sample) as (_ & _ & _ & H').
  split; [|split; [|split; [|split; [|split]]]].
  - destruct (H 0 _ eq_refl) as (r' & Hr' & _ & _ & _ & _ & Hout & _).
    vm_compute in Hr'. injection Hr' as <-.
    rewrite (Hout _ eq_refl); [reflexivity|]. left. ts_order.
  - destruct (H 1 _ eq_refl) as (r' & Hr' & _ & _ & _ & _ & _ & Hin).
    vm_compute in Hr'. injection Hr' as <-.
    apply (Hin _ eq_refl); [right; reflexivity|left; ts_order].
  - destruct (H 2 _ eq_refl) as (r' & Hr' & _ & _ & _ & Hna & _ & _).
    vm_compute in Hr'. injection Hr' as <-.
    apply Hna. reflexivity.
  - destruct (H 3 _ eq_refl) as (r' & Hr' & _ & _ & _ & _ & _ & Hin).
    vm_compute in Hr'. injection Hr' as <-.
    apply (Hin _ eq_refl); [left; ts_order|right; reflexivity].
  - destruct (H 4 _ eq_refl) as (r' & Hr' & _ & _ & _ & _ & Hout & _).
    vm_compute in Hr'. injection Hr' as <-.
    rewrite (Hout _ eq_refl); [reflexivity|]. right. ts_order.
  - destruct (H' 0 _ eq_refl) as (r' & Hr' & _ & _ & _ & _ & Hout & _).
    vm_compute in Hr'. injection Hr' as <-.
    rewrite (Hout _ eq_refl); [reflexivity|]. right. ts_order.
Defined.

(** The parsing step as worded fails: the text ["now"] writes no date, yet
    the row does not hold the missing marker afterwards; it holds the
    instant of the run, and is logged as out of range. *)
Lemma text_now_is_not_missing : ~ parse_failure_gives_missing run_clock run_day now_sample.
Proof.
  intros H.
  destruct (H 0 _ "now" eq_refl eq_refl) as (r' & Hr' & Hnull & _).
  { apply not_a_date. reflexivity. }
  vm_compute in Hr'. injection Hr' as <-. discriminate Hnull.
Qed.

(** ** validate_available *)

Lemma available_row_step (idx : nat) (row : Cell) (loc : Locals) (t : Table) (l : Log) :
  available_row (idx, row) loc (mkEnv t l)
  = (Ok (Some (idx, available_row_issues idx row)),
     mkEnv (alter (set_Available (available_value row)) idx t) l).
Proof.
  unfold available_row, available_row_issues, available_unknown, available_value.
  destruct (isnull row); [reflexivity|].
  destruct (eq_str row "N"); [reflexivity|].
  destruct (eq_str row "Y"); reflexivity.
Qed.

Lemma locals_after_last {V} (issues_of : nat -> V -> list string) (col : Row -> V)
    (rows : Table) (k : nat) (loc : Locals) :
  locals_after issues_of col k rows loc
  = match last rows with
    | Some r => Some (k + length rows - 1, issues_of (k + length rows - 1) (col r))
    | None => loc
    end.
Proof.
  revert k loc. induction rows as [|r rows IH]; intros k loc; [reflexivity|].
  cbn [locals_after]. rewrite IH. destruct rows as [|r' rows].
  - simpl. replace (k + 1 - 1) with k by lia. reflexivity.
  - rewrite last_cons_cons.
    destruct (last (r' :: rows)) eqn:E.
    + cbn [length]. replace (S k + S (length rows) - 1) with (k + S (S (length rows)) - 1) by lia.
      reflexivity.
    + apply last_None in E. discriminate.
Qed.

Lemma for_each_available (suffix prefix done : Table) (l : Log) (loc : Locals) :
  length done = length prefix ->
  for_each (imap (fun i r => (length prefix + i, Available r)) suffix) available_row loc
           (mkEnv (done ++ suffix) l)
  = (Ok (locals_after available_row_issues Available (length prefix) suffix loc),
     mkEnv (done ++ available_column suffix) l).
Proof.
  revert prefix done loc. induction suffix as [|r rest IH]; intros prefix done loc Hlen.
  - reflexivity.
  - rewrite imap_cons. cbn [for_each]. unfold bind at 1.
    rewrite available_row_step.
    replace (alter (set_Available (available_value (Available r))) (length prefix + 0)
                   (done ++ r :: rest))
      with ((done ++ [set_Available (available_value (Available r)) r]) ++ rest).
    2:{ rewrite <- Hlen, alter_app_r, <- app_assoc. reflexivity. }
    rewrite (imap_ext _ (fun i r0 => (length (prefix ++ [r]) + i, Available r0))).
    2:{ intros i x _. simpl. rewrite length_app. simpl. f_equal. lia. }
    rewrite IH.
    2:{ rewrite !length_app. simpl. lia. }
    rewrite <- app_assoc, length_app, Nat.add_0_r. cbn [length locals_after app].
    rewrite Nat.add_1_r. reflexivity.
Qed.

Lemma available_column_lookup (t : Table) (idx : nat) (r : Row) :
  t !! idx = Some r ->
  available_column t !! idx = Some (set_Available (available_value (Available r)) r).
Proof.
  intros H. unfold available_column. rewrite list_lookup_fmap, H. reflexivity.
Qed.

(** What the whole function does: every row is rewritten, and only the
    last row of the table can be logged. *)
Lemma validate_available_run (s : Env) :
  validate_available s
  = match last (df s) with
    | None => (Raised (UnboundLocalError "issues"), s)
    | Some r =>
        let idx := length (df s) - 1 in
        (Ok tt,
         mkEnv (available_column (df s))
               (log s ++ row_entries (available_row_issues idx) Available idx r))
    end.
Proof.
  destruct s as [t l]. unfold validate_available, bind at 1, get_df. cbn [df log].
  unfold bind at 1.
  pose proof (for_each_available t [] [] l None eq_refl) as E.
  cbn [length app Nat.add] in E. unfold items. rewrite E.
  rewrite locals_after_last. cbn [Nat.add].
  destruct (last t) as [r|] eqn:Hlast.
  - unfold read_local, bind at 1, ret. unfold row_entries.
    assert (Hr : available_column t !! (length t - 1)
                 = Some (set_Available (available_value (Available r)) r)).
    { apply available_column_lookup. rewrite <- Hlast, last_lookup.
      f_equal. lia. }
    destruct (nonempty (available_row_issues (length t - 1) (Available r))) eqn:Hne.
    + rewrite (log_row_ok _ _ _ _ _ Hr). reflexivity.
    + rewrite app_nil_r. reflexivity.
  - apply last_None in Hlast. subst t. reflexivity.
Qed.

(** ** validate_barcodeid *)

Lemma for_each_pure {V} (f : V -> list string) (col : Row -> V)
    (rows : Table) (k : nat) (loc : Locals) (s : Env) :
  for_each (imap (fun i r => (k + i, col r)) rows)
           (fun '(idx, row) (_ : Locals) => ret (Some (idx, f row))) loc s
  = (Ok (locals_after (fun _ c => f c) col k rows loc), s).
Proof.
  revert k loc. induction rows as [|r rows IH]; intros k loc; [reflexivity|].
  rewrite imap_cons. cbn [for_each locals_after]. unfold bind, ret at 1.
  rewrite (imap_ext _ (fun i r0 => (S k + i, col r0))).
  2:{ intros i x _. simpl. f_equal. lia. }
  rewrite IH, Nat.add_0_r. reflexivity.
Qed.

Lemma for_each_log_rows (t : Table) (iss : list string) (idxs : list nat) (l : Log) :
  Forall (fun i => i < length t) idxs ->
  for_each idxs (fun idx (_ : unit) => log_row idx iss) tt (mkEnv t l)
  = (Ok tt, mkEnv t (l ++ omap (entry_of t iss) idxs)).
Proof.
  intros H. revert l. induction H as [|i idxs Hi _ IH]; intros l.
  - simpl. unfold ret. rewrite app_nil_r. reflexivity.
  - cbn [for_each omap list_omap]. unfold bind.
    apply lookup_lt_is_Some_2 in Hi as [r Hr].
    rewrite (log_row_ok _ _ _ _ _ Hr), IH.
    unfold entry_of at 2. rewrite Hr, <- app_assoc. reflexivity.
Qed.

Lemma for_each_groups (t : Table) (groups : list (Ident * list nat)) (l : Log) :
  Forall (fun g => Forall (fun i => i < length t) (snd g)) groups ->
  for_each groups
    (fun '(barcode_value, indicies) (_ : unit) =>
       let issue := duplicate_issue barcode_value indicies in
       for_each indicies (fun idx _ => log_row idx [issue]) tt)
    tt (mkEnv t l)
  = (Ok tt, mkEnv t (l ++ concat (group_entries t <$> groups))).
Proof.
  intros H. revert l. induction H as [|[k idxs] groups Hg _ IH]; intros l.
  - simpl. unfold ret. rewrite app_nil_r. reflexivity.
  - cbn [for_each]. unfold bind. cbn zeta.
    rewrite (for_each_log_rows _ _ _ _ Hg), IH.
    rewrite fmap_cons. cbn [concat]. rewrite <- app_assoc. reflexivity.
Qed.

Lemma items_label {V} (col : Row -> V) (t : Table) (it : nat * V) :
  In it (items col t) -> fst it < length t.
Proof.
  intros H. apply list_elem_of_In in H. unfold items in H.
  apply elem_of_lookup_imap in H as (i & r & -> & Hr).
  apply lookup_lt_Some in Hr. exact Hr.
Qed.

Lemma select_subset (mask : list bool) (its : list (nat * Ident)) (it : nat * Ident) :
  In it (select mask its) -> In it its.
Proof.
  unfold select. intros H. apply list_elem_of_In, list_elem_of_fmap in H as ([x b] & -> & H).
  apply list_elem_of_In, filter_In in H as [H _].
  apply list_elem_of_In, elem_of_zip_l in H. apply list_elem_of_In, H.
Qed.

Lemma group_labels_subset (k : Ident) (its : list (nat * Ident)) (i : nat) :
  In i (group_labels k its) -> exists it, In it its /\ fst it = i /\ py_eqb k (snd it) = true.
Proof.
  unfold group_labels. intros H.
  apply list_elem_of_In, list_elem_of_fmap in H as (it & -> & H).
  apply list_elem_of_In, filter_In in H as [H E]. eauto.
Qed.

Lemma barcode_groups_labels (t : Table) :
  Forall (fun g => Forall (fun i => i < length t) (snd g)) (barcode_groups t).
Proof.
  unfold barcode_groups, groupby_groups. apply Forall_fmap, Forall_forall.
  intros k _. cbn [snd]. apply Forall_forall. intros i Hi.
  apply list_elem_of_In, group_labels_subset in Hi as (it & Hit & <- & _).
  apply select_subset in Hit. eapply items_label, Hit.
Qed.

(** What the whole function does.  The first pass can log the last row
    only; the duplicate pass runs when some value is repeated, and the
    function raises otherwise. *)
Lemma validate_barcodeid_run (s : Env) :
  validate_barcodeid s
  = match last (df s) with
    | None => (Raised (UnboundLocalError "issues"), s)
    | Some _ =>
        let l1 := log s ++ first_pass_entries (df s) in
        if is_unique (column Barcode_ID (df s))
        then (Raised (UnboundLocalError "grouped"), mkEnv (df s) l1)
        else (Ok tt, mkEnv (df s) (l1 ++ duplicate_entries (df s)))
    end.
Proof.
  destruct s as [t l]. unfold validate_barcodeid, bind at 1, get_df. cbn [df log].
  unfold bind at 1.
  pose proof (for_each_pure barcode_row_issues Barcode_ID t 0 None (mkEnv t l)) as E.
  cbn [Nat.add] in E. unfold items. rewrite E. clear E.
  rewrite (locals_after_last (fun _ c => barcode_row_issues c)). cbn [Nat.add].
  unfold first_pass_entries.
  destruct (last t) as [r|] eqn:Hlast.
  - unfold read_local at 1, bind at 1, ret at 1. unfold bind at 1.
    assert (Hr : t !! (length t - 1) = Some r).
    { rewrite <- Hlast, last_lookup. f_equal. lia. }
    assert (Hfirst :
      (if nonempty (barcode_row_issues (Barcode_ID r))
       then log_row (length t - 1) (barcode_row_issues (Barcode_ID r))
       else ret tt) (mkEnv t l)
      = (Ok tt, mkEnv t (l ++ row_entries barcode_row_issues Barcode_ID (length t - 1) r))).
    { unfold row_entries. destruct (nonempty _).
      - apply log_row_ok, Hr.
      - unfold ret. rewrite app_nil_r. reflexivity. }
    rewrite Hfirst. clear Hfirst.
    destruct (is_unique (column Barcode_ID t)); cbn [negb].
    + reflexivity.
    + unfold read_local, bind, ret at 1.
      apply (for_each_groups t (barcode_groups t)), barcode_groups_labels.
  - reflexivity.
Qed.

(** *** Equality of cells is an equivalence *)

Lemma py_eqb_eq (a b : Ident) : py_eqb a b = true <-> a = b.
Proof. apply bool_decide_eq_true. Qed.

Lemma py_eqb_refl (a : Ident) : py_eqb a a = true.
Proof. apply py_eqb_eq. reflexivity. Qed.

Lemma py_eqb_sym (a b : Ident) : py_eqb a b = py_eqb b a.
Proof. apply bool_decide_ext. split; congruence. Qed.

Lemma py_eqb_trans (a b c : Ident) :
  py_eqb a b = true -> py_eqb b c = true -> py_eqb a c = true.
Proof. rewrite !py_eqb_eq. congruence. Qed.

Lemma py_eqb_isnull (a b : Ident) : py_eqb a b = true -> isnull a = isnull b.
Proof. rewrite py_eqb_eq. intros ->. reflexivity. Qed.

(** Two equal values occur equally often. *)
Lemma occurrences_eq (a b : Ident) (c : list Ident) :
  py_eqb a b = true -> occurrences a c = occurrences b c.
Proof.
  intros H. unfold occurrences. f_equal. apply filter_ext. intros x.
  destruct (py_eqb b x) eqn:E.
  - eapply py_eqb_trans; eauto.
  - destruct (py_eqb a x) eqn:E'; [|reflexivity].
    rewrite py_eqb_sym in H. rewrite (py_eqb_trans _ _ _ H E') in E. discriminate.
Qed.

Lemma occurrences_cons (v a : Ident) (c : list Ident) :
  occurrences v (a :: c) = (if py_eqb v a then 1 else 0) + occurrences v c.
Proof.
  unfold occurrences. simpl. destruct (py_eqb v a); reflexivity.
Qed.

Lemma occurrences_zero (v : Ident) (c : list Ident) :
  occurrences v c = 0 <-> existsb (py_eqb v) c = false.
Proof.
  induction c as [|a c IH]; [simpl; tauto|].
  rewrite occurrences_cons. simpl. destruct (py_eqb v a); simpl; [split; [lia|discriminate]|].
  exact IH.
Qed.

(** [is_unique] says that no value occurs in two rows. *)
Lemma is_unique_occurrences (c : list Ident) :
  is_unique c = true <-> forall v, occurrences v c <= 1.
Proof.
  induction c as [|a c IH].
  - simpl. split; [intros _ v; unfold occurrences; simpl; lia|reflexivity].
  - cbn [is_unique]. rewrite andb_true_iff, negb_true_iff, IH, <- occurrences_zero. split.
    + intros [Ha Hc] v. rewrite occurrences_cons.
      destruct (py_eqb v a) eqn:E; [|apply Hc].
      rewrite (occurrences_eq _ _ _ E), Ha. reflexivity.
    + intros H. split.
      * specialize (H a). rewrite occurrences_cons, py_eqb_refl in H. lia.
      * intros v. specialize (H v). rewrite occurrences_cons in H. lia.
Qed.

Lemma not_unique_occurrences (c : list Ident) :
  is_unique c = false <-> exists v, 2 <= occurrences v c.
Proof.
  split.
  - induction c as [|a c IH]; [discriminate|].
    cbn [is_unique]. rewrite andb_false_iff, negb_false_iff. intros [H|H].
    + exists a. rewrite occurrences_cons, py_eqb_refl.
      destruct (occurrences a c) eqn:E; [|lia].
      apply occurrences_zero in E. congruence.
    + destruct (IH H) as [v Hv]. exists v. rewrite occurrences_cons. lia.
  - intros [v Hv]. destruct (is_unique c) eqn:E; [|reflexivity].
    apply is_unique_occurrences with (v := v) in E. lia.
Qed.

(** C8. On a table whose barcode column holds no value twice, the
    identifier validator raises an unbound-name error: [grouped] is
    assigned only when the column has a repeated value (on a table without
    rows it is [issues] that is unbound).  It returns normally exactly
    when some value occurs in two rows or more. *)
Theorem validate_barcodeid_unbound (s : Env) :
  ((forall v, occurrences v (column Barcode_ID (df s)) < 2) ->
   outcome validate_barcodeid s
   = Raised (UnboundLocalError (if decide (df s = []) then "issues" else "grouped"))) /\
  (outcome validate_barcodeid s = Ok tt <->
   exists v, 2 <= occurrences v (column Barcode_ID (df s))).
Proof.
  unfold outcome. rewrite validate_barcodeid_run. split.
  - intros H.
    assert (U : is_unique (column Barcode_ID (df s)) = true).
    { apply is_unique_occurrences. intros v. specialize (H v). lia. }
    destruct (last (df s)) eqn:Hlast.
    + cbn zeta. rewrite U. destruct (decide (df s = [])) as [E|_]; [|reflexivity].
      rewrite E in Hlast. discriminate.
    + apply last_None in Hlast. rewrite Hlast. reflexivity.
  - rewrite <- not_unique_occurrences.
    destruct (last (df s)) eqn:Hlast.
    + cbn zeta. destruct (is_unique _); simpl; split; congruence.
    + apply last_None in Hlast. rewrite Hlast. simpl. split; discriminate.
Qed.

Lemma validate_barcodeid_unbound_witness :
  outcome validate_barcodeid unique_sample = Raised (UnboundLocalError "grouped") /\
  outcome validate_barcodeid barcode_sample = Ok tt.
Proof.
  split.
  - apply (proj1 (validate_barcodeid_unbound unique_sample)).
    intros v. apply Nat.lt_succ_r, is_unique_occurrences. reflexivity.
  - apply (proj2 (validate_barcodeid_unbound barcode_sample)).
    exists (IStr "AB123456"). vm_compute. lia.
Defined.

(** *** The duplicate groups *)

Lemma select_filter (m : Ident -> bool) (its : list (nat * Ident)) :
  select ((fun it => m (snd it)) <$> its) its = List.filter (fun it => m (snd it)) its.
Proof.
  unfold select. induction its as [|it its IH]; [reflexivity|].
  rewrite fmap_cons. cbn [zip zip_with List.filter snd].
  destruct (m (snd it)); cbn [fmap list_fmap fst]; rewrite <- IH; reflexivity.
Qed.

Lemma duplicated_items (col : Row -> Ident) (t : Table) :
  duplicated (column col t)
  = (fun it => 2 <=? occurrences (snd it) (column col t)) <$> items col t.
Proof.
  unfold duplicated, items, column. rewrite fmap_imap, <- list_fmap_compose.
  rewrite <- (imap_const _ t) at 1. reflexivity.
Qed.

(** The rows [df.duplicated] selects. *)
Lemma duplicates_filter (t : Table) :
  select (duplicated (column Barcode_ID t)) (items Barcode_ID t)
  = List.filter (fun it => 2 <=? occurrences (snd it) (column Barcode_ID t))
                (items Barcode_ID t).
Proof.
  rewrite duplicated_items.
  apply (select_filter (fun v => 2 <=? occurrences v (column Barcode_ID t))).
Qed.

Lemma items_column {V} (col : Row -> V) (t : Table) :
  items col t = imap pair (column col t).
Proof.
  unfold items, column. rewrite imap_fmap. reflexivity.
Qed.

(** The labels of the group of a repeated value are all the rows that
    hold the value. *)
Lemma group_labels_indices (t : Table) (k : Ident) :
  2 <= occurrences k (column Barcode_ID t) ->
  group_labels k (select (duplicated (column Barcode_ID t)) (items Barcode_ID t))
  = indices_of k (column Barcode_ID t).
Proof.
  intros Hk. rewrite duplicates_filter. unfold group_labels, indices_of.
  rewrite <- items_column. f_equal.
  induction (items Barcode_ID t) as [|it its IH]; [reflexivity|].
  cbn [List.filter]. destruct (py_eqb k (snd it)) eqn:E.
  - rewrite <- (occurrences_eq _ _ _ E). apply Nat.leb_le in Hk. rewrite Hk.
    cbn [List.filter]. rewrite E, IH. reflexivity.
  - destruct (2 <=? _); [cbn [List.filter]; rewrite E|]; exact IH.
Qed.

Lemma indices_of_eq (a b : Ident) (c : list Ident) :
  py_eqb a b = true -> indices_of a c = indices_of b c.
Proof.
  intros H. unfold indices_of. f_equal. apply filter_ext. intros it.
  destruct (py_eqb b (snd it)) eqn:E.
  - eapply py_eqb_trans; eauto.
  - destruct (py_eqb a (snd it)) eqn:E'; [|reflexivity].
    rewrite py_eqb_sym in H. rewrite (py_eqb_trans _ _ _ H E') in E. discriminate.
Qed.

(** The keys: sorting keeps them, and keeps them distinct. *)
Lemma existsb_insert_key (p : Ident -> bool) (a : Ident) (ks : list Ident) :
  existsb p (insert_key a ks) = p a || existsb p ks.
Proof.
  induction ks as [|k ks IH]; [reflexivity|].
  cbn [insert_key]. destruct (key_leb a k); [reflexivity|].
  cbn [existsb]. rewrite IH. destruct (p a), (p k); reflexivity.
Qed.

Lemma is_unique_insert_key (a : Ident) (ks : list Ident) :
  is_unique (insert_key a ks) = is_unique (a :: ks).
Proof.
  induction ks as [|k ks IH]; [reflexivity|].
  cbn [insert_key]. destruct (key_leb a k); [reflexivity|].
  cbn [is_unique existsb] in *. rewrite existsb_insert_key, IH, (py_eqb_sym k a).
  destruct (py_eqb a k), (existsb (py_eqb a) ks), (existsb (py_eqb k) ks), (is_unique ks);
    reflexivity.
Qed.

Lemma existsb_sort_keys (p : Ident -> bool) (ks : list Ident) :
  existsb p (sort_keys ks) = existsb p ks.
Proof.
  induction ks as [|k ks IH]; [reflexivity|].
  unfold sort_keys in *. cbn [foldr existsb]. rewrite existsb_insert_key, IH. reflexivity.
Qed.

Lemma is_unique_sort_keys (ks : list Ident) :
  is_unique (sort_keys ks) = is_unique ks.
Proof.
  induction ks as [|k ks IH]; [reflexivity|].
  unfold sort_keys in *. cbn [foldr]. rewrite is_unique_insert_key.
  cbn [is_unique]. rewrite IH. f_equal. f_equal.
  apply (existsb_sort_keys (py_eqb k)).
Qed.

Lemma existsb_filter (p q : Ident -> bool) (l : list Ident) :
  existsb p (List.filter q l) = existsb (fun x => q x && p x) l.
Proof.
  induction l as [|x l IH]; [reflexivity|].
  cbn [List.filter existsb]. destruct (q x); cbn [existsb andb]; rewrite IH; reflexivity.
Qed.

Lemma is_unique_filter (q : Ident -> bool) (l : list Ident) :
  is_unique l = true -> is_unique (List.filter q l) = true.
Proof.
  induction l as [|x l IH]; [reflexivity|].
  cbn [is_unique List.filter]. rewrite andb_true_iff, negb_true_iff. intros [Hx Hl].
  destruct (q x); [|auto]. cbn [is_unique].
  rewrite IH, andb_true_r, negb_true_iff, existsb_filter by exact Hl.
  destruct (existsb (fun y => q y && py_eqb x y) l) eqn:E; [|reflexivity].
  apply existsb_exists in E as (y & Hy & Hq). apply andb_true_iff in Hq as [_ Hq].
  assert (existsb (py_eqb x) l = true); [|congruence].
  apply existsb_exists. eauto.
Qed.

Lemma is_unique_uniques (c : list Ident) : is_unique (uniques c) = true.
Proof.
  induction c as [|v c IH]; [reflexivity|].
  cbn [uniques is_unique]. rewrite is_unique_filter, andb_true_r, negb_true_iff by exact IH.
  rewrite existsb_filter.
  destruct (existsb _ _) eqn:E; [|reflexivity].
  apply existsb_exists in E as (y & _ & Hy). destruct (py_eqb v y); discriminate.
Qed.

Lemma existsb_uniques (v : Ident) (c : list Ident) :
  existsb (fun k => py_eqb k v) (uniques c) = existsb (fun x => py_eqb x v) c.
Proof.
  induction c as [|a c IH]; [reflexivity|].
  cbn [uniques existsb]. rewrite existsb_filter, <- IH. clear IH.
  destruct (py_eqb a v) eqn:E; [reflexivity|]. cbn [orb].
  induction (uniques c) as [|k ks IHk]; [reflexivity|].
  cbn [existsb]. rewrite IHk. destruct (py_eqb k v) eqn:Ek; [|rewrite andb_false_r; reflexivity].
  destruct (py_eqb a k) eqn:Eak; [|reflexivity].
  rewrite (py_eqb_trans _ _ _ Eak Ek) in E. discriminate.
Qed.

(** The sorted keys of the groups of a table. *)
Lemma barcode_groups_keys (t : Table) :
  exists keys,
    barcode_groups t
    = (fun k => (k, group_labels k (select (duplicated (column Barcode_ID t))
                                           (items Barcode_ID t)))) <$> keys /\
    is_unique keys = true /\
    forall v, existsb (fun k => py_eqb k v) keys
              = negb (isnull v) && (2 <=? occurrences v (column Barcode_ID t)).
Proof.
  unfold barcode_groups, groupby_groups.
  set (its := select _ _). eexists. split; [reflexivity|]. split.
  - rewrite is_unique_sort_keys. apply is_unique_uniques.
  - intros v. rewrite existsb_sort_keys, existsb_uniques, existsb_filter.
    unfold its. rewrite duplicates_filter.
    set (c := column Barcode_ID t).
    assert (Hin : forall x, In x (snd <$> List.filter (fun it => 2 <=? occurrences (snd it) c)
                                          (items Barcode_ID t))
                            <-> In x c /\ 2 <= occurrences x c).
    { intros x. rewrite items_column. fold c. rewrite <- !list_elem_of_In, list_elem_of_fmap.
      split.
      - intros ([i y] & -> & H). apply list_elem_of_In, filter_In in H as [H Ho].
        apply list_elem_of_In, elem_of_lookup_imap in H as (j & z & Hz & Hl).
        injection Hz as -> ->. apply Nat.leb_le in Ho. split; [|exact Ho].
        eapply list_elem_of_lookup_2, Hl.
      - intros [H Ho]. apply list_elem_of_lookup_1 in H as [j Hj].
        exists (j, x). split; [reflexivity|].
        apply list_elem_of_In, filter_In. split; [|apply Nat.leb_le, Ho].
        apply list_elem_of_In, elem_of_lookup_imap. eauto. }
    destruct (existsb _ _) eqn:E.
    + apply existsb_exists in E as (x & Hx & Hq). apply Hin in Hx as [_ Ho].
      apply andb_true_iff in Hq as [Hn Hq]. symmetry. apply andb_true_iff.
      rewrite <- (py_eqb_isnull _ _ Hq), <- (occurrences_eq _ _ _ Hq). split; [exact Hn|].
      apply Nat.leb_le, Ho.
    + symmetry. apply not_true_iff_false. intros Hv. apply andb_true_iff in Hv as [Hn Ho].
      apply Nat.leb_le in Ho.
      assert (Hv : In v c).
      { destruct (existsb (py_eqb v) c) eqn:Ev.
        - apply existsb_exists in Ev as (x & Hx & Hq).
          (* the row holding a value equal to v *)
          assert (Hx' : In x c /\ 2 <= occurrences x c).
          { split; [exact Hx|]. rewrite <- (occurrences_eq _ _ _ Hq). exact Ho. }
          apply Hin in Hx'.
          assert (existsb (fun y => negb (isnull y) && py_eqb y v)
                    (snd <$> List.filter (fun it => 2 <=? occurrences (snd it) c)
                               (items Barcode_ID t)) = true); [|congruence].
          apply existsb_exists. exists x. split; [exact Hx'|].
          rewrite py_eqb_sym in Hq. rewrite (py_eqb_isnull _ _ Hq), Hn, Hq. reflexivity.
        - apply occurrences_zero in Ev. lia. }
      assert (existsb (fun y => negb (isnull y) && py_eqb y v)
                (snd <$> List.filter (fun it => 2 <=? occurrences (snd it) c)
                           (items Barcode_ID t)) = true); [|congruence].
      apply existsb_exists. exists v. split; [apply Hin; auto|].
      rewrite Hn, py_eqb_refl. reflexivity.
Qed.

Lemma entry_of_index (t : Table) (iss : list string) (j : nat) (e : DiagnosticEntry) :
  entry_of t iss j = Some e -> master_index e = j.
Proof.
  unfold entry_of. destruct (t !! j); [|discriminate]. intros [= <-]. reflexivity.
Qed.

Lemma entries_at_omap (t : Table) (iss : list string) (i : nat) (idxs : list nat) :
  entries_at i (omap (entry_of t iss) idxs)
  = omap (entry_of t iss) (List.filter (fun j => j =? i) idxs).
Proof.
  unfold entries_at. induction idxs as [|j idxs IH]; [reflexivity|].
  cbn [omap list_omap List.filter].
  destruct (entry_of t iss j) as [e|] eqn:He.
  - cbn [List.filter]. rewrite (entry_of_index _ _ _ _ He).
    destruct (j =? i); [|exact IH].
    cbn [omap list_omap]. rewrite He, IH. reflexivity.
  - destruct (j =? i); [|exact IH].
    cbn [omap list_omap]. rewrite He. exact IH.
Qed.

Lemma filter_indices (k : Ident) (c : list Ident) (n i : nat) :
  List.filter (fun j => j =? i)
    (fst <$> List.filter (fun it => py_eqb k (snd it)) (imap (fun j x => (n + j, x)) c))
  = if decide (n <= i)
    then match c !! (i - n) with
         | Some x => if py_eqb k x then [i] else []
         | None => []
         end
    else [].
Proof.
  revert n. induction c as [|x c IH]; intros n.
  - simpl. destruct (decide _); reflexivity.
  - rewrite imap_cons. cbn [List.filter snd].
    rewrite (imap_ext _ (fun j y => (S n + j, y))).
    2:{ intros j y _. simpl. f_equal. lia. }
    assert (Hrest := IH (S n)).
    destruct (py_eqb k x) eqn:E.
    + rewrite fmap_cons. cbn [List.filter fst]. rewrite Hrest, Nat.add_0_r.
      destruct (Nat.eqb_spec n i) as [->|Hne].
      * replace (i - i) with 0 by lia. cbn [lookup list_lookup]. rewrite E.
        destruct (decide (i <= i)); [|lia]. destruct (decide (S i <= i)); [lia|]. reflexivity.
      * destruct (decide (S n <= i)), (decide (n <= i)); try lia; [|reflexivity].
        replace (i - n) with (S (i - S n)) by lia. reflexivity.
    + rewrite Hrest.
      destruct (decide (S n <= i)), (decide (n <= i)); try lia; try reflexivity.
      * replace (i - n) with (S (i - S n)) by lia. reflexivity.
      * replace (i - n) with 0 by lia. cbn [lookup list_lookup]. rewrite E. reflexivity.
Qed.

Lemma filter_indices_of (k : Ident) (c : list Ident) (i : nat) (x : Ident) :
  c !! i = Some x ->
  List.filter (fun j => j =? i) (indices_of k c) = if py_eqb k x then [i] else [].
Proof.
  intros H. unfold indices_of. pose proof (filter_indices k c 0 i) as E.
  cbn [Nat.add] in E. destruct (decide (0 <= i)); [|lia].
  rewrite Nat.sub_0_r, H in E. exact E.
Qed.

Lemma entries_at_concat (i : nat) (ls : list Log) :
  entries_at i (concat ls) = concat (entries_at i <$> ls).
Proof.
  unfold entries_at. induction ls as [|l ls IH]; [reflexivity|].
  cbn [concat]. rewrite List.filter_app, IH. reflexivity.
Qed.

(** Among distinct keys, the one equal to [v] is the only one that
    contributes. *)
Lemma concat_unique_key (e : Ident -> Log) (v : Ident) (keys : list Ident) :
  is_unique keys = true ->
  existsb (fun k => py_eqb k v) keys = true ->
  exists k, In k keys /\ py_eqb k v = true /\
    concat ((fun k => if py_eqb k v then e k else []) <$> keys) = e k.
Proof.
  induction keys as [|a keys IH]; [discriminate|].
  cbn [is_unique existsb]. rewrite andb_true_iff, negb_true_iff. intros [Ha Hu] Hex.
  rewrite fmap_cons. cbn [concat].
  destruct (py_eqb a v) eqn:E.
  - exists a. split; [left; reflexivity|]. split; [exact E|].
    assert (Hnone : forall k, In k keys -> py_eqb k v = false).
    { intros k Hk. destruct (py_eqb k v) eqn:Ek; [|reflexivity].
      assert (existsb (py_eqb a) keys = true); [|congruence].
      apply existsb_exists. exists k. split; [exact Hk|].
      rewrite py_eqb_sym in Ek. eapply py_eqb_trans; eauto. }
    clear -Hnone. induction keys as [|k keys IHk]; [apply app_nil_r|].
    rewrite fmap_cons. cbn [concat]. rewrite (Hnone k) by (left; reflexivity).
    apply IHk. intros k' Hk'. apply Hnone. right. exact Hk'.
  - cbn [orb] in Hex. destruct (IH Hu Hex) as (k & Hk & Ek & Hc).
    exists k. split; [right; exact Hk|]. split; [exact Ek|]. exact Hc.
Qed.

Lemma concat_no_key (e : Ident -> Log) (v : Ident) (keys : list Ident) :
  existsb (fun k => py_eqb k v) keys = false ->
  concat ((fun k => if py_eqb k v then e k else []) <$> keys) = [].
Proof.
  induction keys as [|a keys IH]; [reflexivity|].
  cbn [existsb]. intros H. apply orb_false_iff in H as [Ha Hk].
  rewrite fmap_cons. cbn [concat]. rewrite Ha, (IH Hk). reflexivity.
Qed.

(** The entries of one group that name the row [i]. *)
Lemma group_entries_at (t : Table) (i : nat) (r : Row) (k : Ident) :
  t !! i = Some r ->
  2 <= occurrences k (column Barcode_ID t) ->
  entries_at i (group_entries t
                  (k, group_labels k (select (duplicated (column Barcode_ID t))
                                             (items Barcode_ID t))))
  = if py_eqb k (Barcode_ID r)
    then [mkEntry (SourceFile r) i (OriginalRow r)
            [duplicate_issue k (indices_of (Barcode_ID r) (column Barcode_ID t))]]
    else [].
Proof.
  intros Hr Hk.
  unfold group_entries. cbn [fst snd].
  rewrite entries_at_omap, (group_labels_indices t k Hk).
  set (c := column Barcode_ID t).
  assert (Hc : c !! i = Some (Barcode_ID r)).
  { unfold c, column. rewrite list_lookup_fmap, Hr. reflexivity. }
  rewrite (filter_indices_of k c i _ Hc).
  destruct (py_eqb k (Barcode_ID r)) eqn:Ek; [|reflexivity].
  cbn [omap list_omap]. unfold entry_of. rewrite Hr, (indices_of_eq _ _ _ Ek). reflexivity.
Qed.

(** The entries the duplicate pass writes for one row: one if the value
    of the row is repeated and not missing, none otherwise. *)
Lemma duplicate_entries_at (t : Table) (i : nat) (r : Row) :
  t !! i = Some r ->
  entries_at i (duplicate_entries t)
  = if negb (isnull (Barcode_ID r)) &&
       (2 <=? occurrences (Barcode_ID r) (column Barcode_ID t))
    then [mkEntry (SourceFile r) i (OriginalRow r)
            [duplicate_issue (Barcode_ID r)
               (indices_of (Barcode_ID r) (column Barcode_ID t))]]
    else [].
Proof.
  intros Hr. set (v := Barcode_ID r). set (c := column Barcode_ID t).
  destruct (barcode_groups_keys t) as (keys & Hgroups & Huniq & Hkeys).
  fold c in Hkeys.
  set (e := fun k : Ident =>
              [mkEntry (SourceFile r) i (OriginalRow r) [duplicate_issue k (indices_of v c)]]).
  assert (Hconcat : entries_at i (duplicate_entries t)
                    = concat ((fun k => if py_eqb k v then e k else []) <$> keys)).
  { unfold duplicate_entries. rewrite Hgroups, entries_at_concat, <- !list_fmap_compose.
    f_equal. apply list_fmap_ext. intros j k Hk. unfold compose. cbn beta.
    apply group_entries_at; [exact Hr|].
    apply list_elem_of_lookup_2 in Hk.
    assert (Hk' : existsb (fun k' => py_eqb k' k) keys = true).
    { apply existsb_exists. exists k. split; [apply list_elem_of_In, Hk|apply py_eqb_refl]. }
    rewrite Hkeys in Hk'. apply andb_true_iff in Hk' as [_ Hk'].
    apply Nat.leb_le, Hk'. }
  rewrite Hconcat, <- (Hkeys v).
  destruct (existsb (fun k => py_eqb k v) keys) eqn:Hex.
  - destruct (concat_unique_key e v keys Huniq Hex) as (key & _ & Ekey & ->).
    apply py_eqb_eq in Ekey. rewrite Ekey. reflexivity.
  - apply concat_no_key, Hex.
Qed.

(** C4. For every row whose barcode occurs in two rows or more, the
    validator returns normally and what it appends is the entry of the
    first pass followed by those of the duplicate pass.  If the barcode is
    not missing, the duplicate pass writes exactly one entry for the row; it
    carries the single issue [Duplicate Barcode_ID: '<value>' found in rows:
    <indices>], where the indices are all the rows holding the value, the
    same in every member's entry.  If the barcode is missing, the duplicate
    pass writes no entry for the row: missing values form no group. *)
Theorem duplicate_pass_reports_group (s : Env) (i : nat) (r : Row) :
  df s !! i = Some r ->
  2 <= occurrences (Barcode_ID r) (column Barcode_ID (df s)) ->
  outcome validate_barcodeid s = Ok tt /\
  appended validate_barcodeid s = first_pass_entries (df s) ++ duplicate_entries (df s) /\
  (isnull (Barcode_ID r) = false ->
   entries_at i (duplicate_entries (df s))
   = [mkEntry (SourceFile r) i (OriginalRow r)
        [duplicate_issue (Barcode_ID r)
           (indices_of (Barcode_ID r) (column Barcode_ID (df s)))]]) /\
  (isnull (Barcode_ID r) = true ->
   entries_at i (duplicate_entries (df s)) = []).
Proof.
  intros Hr Hocc.
  assert (Hnu : is_unique (column Barcode_ID (df s)) = false).
  { apply not_unique_occurrences. eauto. }
  assert (Hlast : exists r0, last (df s) = Some r0).
  { destruct (last (df s)) eqn:E; [eauto|]. apply last_None in E.
    rewrite E in Hr. discriminate. }
  destruct Hlast as [r0 Hlast].
  pose proof (validate_barcodeid_run s) as Hrun. rewrite Hlast in Hrun. cbn zeta in Hrun.
  rewrite Hnu in Hrun.
  split; [unfold outcome; rewrite Hrun; reflexivity|].
  split.
  - apply appended_app. unfold exec. rewrite Hrun. cbn [snd log].
    rewrite <- app_assoc. reflexivity.
  - rewrite (duplicate_entries_at _ _ _ Hr). apply Nat.leb_le in Hocc. rewrite Hocc.
    split; intros ->; reflexivity.
Qed.

Lemma duplicate_pass_reports_group_witness :
  entries_at 1 (duplicate_entries (df barcode_sample))
    = [mkEntry "a.xlsx" 1 3 ["Duplicate Barcode_ID: 'AB123456' found in rows: [1, 2]"]] /\
  entries_at 2 (duplicate_entries (df barcode_sample))
    = [mkEntry "b.xlsx" 2 2 ["Duplicate Barcode_ID: 'AB123456' found in rows: [1, 2]"]] /\
  entries_at 1 (duplicate_entries (df missing_barcode_sample)) = [].
Proof.
  split.
  - destruct (duplicate_pass_reports_group barcode_sample 1 _ eq_refl)
      as (_ & _ & Hent & _).
    { vm_compute. lia. }
    rewrite (Hent eq_refl). reflexivity.
  - split.
    + destruct (duplicate_pass_reports_group barcode_sample 2 _ eq_refl)
        as (_ & _ & Hent & _).
      { vm_compute. lia. }
      rewrite (Hent eq_refl). reflexivity.
    + destruct (duplicate_pass_reports_group missing_barcode_sample 1 _ eq_refl)
        as (_ & _ & _ & Hnone).
      { vm_compute. lia. }
      exact (Hnone eq_refl).
Defined.

(** Read with missing values included, the duplicate pass falls short: two
    rows without a barcode make a repeated value, and the pass writes
    nothing for them. *)
Lemma missing_barcodes_not_reported : ~ every_duplicate_reported missing_barcode_sample.
Proof.
  intros H.
  assert (Hocc : 2 <= occurrences (INull NaN) (column Barcode_ID (df missing_barcode_sample))).
  { vm_compute. lia. }
  pose proof (H 1 _ eq_refl Hocc) as Hin. vm_compute in Hin.
  destruct Hin as [Hin|[Hin|[Hin|[]]]]; discriminate Hin.
Qed.

(** *** The per-row pass *)

Lemma null_str_length (k : NullKind) : String.length (null_str k) <> 8.
Proof. destruct k; discriminate. Qed.

Lemma barcode_NA_only_after_length (c : Ident) :
  In "Barcode_ID is NA" (barcode_row_issues c) ->
  String.length (py_str c) = 8 /\ isnull c = true.
Proof.
  unfold barcode_row_issues.
  destruct (Nat.eqb_spec (String.length (py_str c)) 8) as [E|E]; cbn [negb].
  - destruct (isnull c); [auto|intros []].
  - intros [H|[]]. discriminate H.
Qed.

(** A missing barcode is never reported as missing. *)
Lemma barcode_NA_unreachable (c : Ident) : ~ In "Barcode_ID is NA" (barcode_row_issues c).
Proof.
  intros H. apply barcode_NA_only_after_length in H as [Hlen Hnull].
  destruct c; try discriminate. exact (null_str_length _ Hlen).
Qed.

Lemma first_pass_entries_snoc (t : Table) (r : Row) :
  first_pass_entries (t ++ [r]) = row_entries barcode_row_issues Barcode_ID (length t) r.
Proof.
  unfold first_pass_entries. rewrite last_snoc, length_app. cbn [length].
  replace (length t + 1 - 1) with (length t) by lia. reflexivity.
Qed.

Lemma validate_barcodeid_appended (s : Env) :
  exists rest, appended validate_barcodeid s = first_pass_entries (df s) ++ rest.
Proof.
  pose proof (validate_barcodeid_run s) as Hrun. unfold first_pass_entries.
  destruct (last (df s)) eqn:Hlast.
  - cbn zeta in Hrun. destruct (is_unique _).
    + exists []. apply appended_app. unfold exec. rewrite Hrun. cbn [snd log].
      unfold first_pass_entries. rewrite Hlast, app_nil_r. reflexivity.
    + eexists. apply appended_app. unfold exec. rewrite Hrun. cbn [snd log].
      unfold first_pass_entries. rewrite Hlast, <- app_assoc. reflexivity.
  - exists []. apply appended_app. unfold exec. rewrite Hrun. cbn [snd].
    rewrite app_nil_r. reflexivity.
Qed.

(** C6. The length check comes first and looks at the text of the value:
    a missing barcode whose text is not 8 characters long gets the
    length issue and not [Barcode_ID is NA], and when its row is the one the
    validator logs, the entry carries the length issue.  [Barcode_ID is NA]
    is an issue only of a value that passed the length check. *)
Theorem barcode_length_check_first (t : Table) (r : Row) (l : Log) :
  isnull (Barcode_ID r) = true ->
  String.length (py_str (Barcode_ID r)) <> 8 ->
  let issue := "Barcode_ID '" +:+ py_str (Barcode_ID r) +:+ "' length is not equal to 8" in
  barcode_row_issues (Barcode_ID r) = [issue] /\
  (exists rest,
     appended validate_barcodeid (mkEnv (t ++ [r]) l)
     = mkEntry (SourceFile r) (length t) (OriginalRow r) [issue] :: rest) /\
  (forall c, In "Barcode_ID is NA" (barcode_row_issues c) ->
             String.length (py_str c) = 8 /\ isnull c = true).
Proof.
  intros Hnull Hlen issue.
  assert (Hiss : barcode_row_issues (Barcode_ID r) = [issue]).
  { unfold barcode_row_issues.
    destruct (Nat.eqb_spec (String.length (py_str (Barcode_ID r))) 8); [contradiction|].
    reflexivity. }
  split; [exact Hiss|]. split; [|exact barcode_NA_only_after_length].
  destruct (validate_barcodeid_appended (mkEnv (t ++ [r]) l)) as [rest Hrest].
  exists rest. rewrite Hrest. cbn [df]. rewrite first_pass_entries_snoc.
  unfold row_entries. rewrite Hiss. reflexivity.
Qed.

Lemma barcode_length_check_first_witness :
  barcode_row_issues (INull NaN) = ["Barcode_ID 'nan' length is not equal to 8"] /\
  exists rest,
    appended validate_barcodeid missing_last_sample
    = mkEntry "a.xlsx" 1 3 ["Barcode_ID 'nan' length is not equal to 8"] :: rest.
Proof.
  destruct (barcode_length_check_first
              [mkRow (IStr "AB000001") (IStr "C-01") (VStr "03/01/2021") (VStr "Y") "a.xlsx" 2]
              (mkRow (INull NaN) (IStr "C-02") (VStr "03/02/2021") (VStr "Y") "a.xlsx" 3)
              [] eq_refl) as (Hiss & Hlog & _).
  { simpl. lia. }
  split; [exact Hiss|exact Hlog].
Defined.

(** The per-row pass never writes an entry for a row that is not the last. *)
Lemma first_pass_only_last_row (t : Table) (i : nat) :
  i + 1 < length t -> entries_at i (first_pass_entries t) = [].
Proof.
  intros Hi. unfold first_pass_entries, entries_at.
  destruct (last t) as [r|]; [|reflexivity].
  unfold row_entries. destruct (nonempty _); [|reflexivity].
  cbn [List.filter master_index].
  destruct (Nat.eqb_spec (length t - 1) i); [lia|reflexivity].
Qed.

(** C1. On the end-to-end example of the specification the 7-character
    barcode of row 0 has the length issue, and the validator, which returns
    normally, writes no entry for row 0: the [if issues:] block is outside
    the loop, so only the last row of the table can be logged by the
    per-row pass. *)
Theorem validate_barcodeid_skips_invalid_row :
  barcode_row_issues (IStr "AB12345") = ["Barcode_ID 'AB12345' length is not equal to 8"] /\
  outcome validate_barcodeid barcode_sample = Ok tt /\
  entries_at 0 (appended validate_barcodeid barcode_sample) = [] /\
  first_pass_entries (df barcode_sample) = [].
Proof.
  split; [reflexivity|]. split; [reflexivity|]. split; reflexivity.
Qed.

(** Neither does the availability validator, whatever the row holds. *)
Lemma validate_available_only_last_row (s : Env) (i : nat) :
  i + 1 < length (df s) -> entries_at i (appended validate_available s) = [].
Proof.
  intros Hi. pose proof (validate_available_run s) as Hrun.
  destruct (last (df s)) as [r|] eqn:Hlast.
  - cbn zeta in Hrun.
    rewrite (appended_app _ _ (row_entries (available_row_issues (length (df s) - 1))
                                           Available (length (df s) - 1) r)).
    2:{ by_run Hrun. }
    unfold row_entries, entries_at. destruct (nonempty _); [|reflexivity].
    cbn [List.filter master_index].
    destruct (Nat.eqb_spec (length (df s) - 1) i); [lia|reflexivity].
  - apply last_None in Hlast. rewrite Hlast in Hi. simpl in Hi. lia.
Qed.

(** C5. Both rows of the sample come out as [True], the first one through
    the last branch: its iteration leaves the unknown issue in [issues].
    Yet the validator, which returns normally, writes no entry: its
    [if issues:] block is outside the loop as well, and the last row has no
    issue. *)
Theorem validate_available_skips_unknown_row :
  Available <$> df (exec validate_available available_sample) = [VBool true; VBool true] /\
  outcome (available_row (0, VStr "maybe") None) available_sample
    = Ok (Some (0, ["Availability is unknown at index: 0, check to confirm availability"])) /\
  outcome validate_available available_sample = Ok tt /\
  appended validate_available available_sample = [].
Proof.
  split; [reflexivity|]. split; [reflexivity|]. split; reflexivity.
Qed.

(** ** The tables the validators leave *)

Lemma exec_validate_barcodeid_df (s : Env) : df (exec validate_barcodeid s) = df s.
Proof.
  unfold exec. rewrite validate_barcodeid_run.
  destruct (last (df s)); [|reflexivity].
  cbn zeta. destruct (is_unique _); reflexivity.
Qed.

Lemma exec_validate_ptid_df (s : Env) : df (exec validate_ptid s) = df s.
Proof.
  by_run validate_ptid_run.
Qed.

Lemma exec_validate_collection_date_df (clock : nat -> Timestamp) (today : date) (s : Env) :
  df (exec (validate_collection_date clock today) s) = to_datetime_column clock (df s).
Proof.
  by_run validate_collection_date_run.
Qed.

Lemma exec_validate_available_df (s : Env) :
  df (exec validate_available s) = available_column (df s).
Proof.
  unfold exec. rewrite validate_available_run.
  destruct (last (df s)) eqn:Hlast; [reflexivity|].
  apply last_None in Hlast. cbn [snd]. rewrite Hlast. reflexivity.
Qed.

(** Row by row, what holds for each row and its image under
    [to_datetime_column] holds for the two tables. *)
Lemma to_datetime_column_rows (P : Row -> Row -> Prop) (clock : nat -> Timestamp)
    (t : Table) :
  (forall i r, t !! i = Some r ->
               P r (set_Date_Collected (to_datetime (clock i) (Date_Collected r)) r)) ->
  Forall2 P t (to_datetime_column clock t).
Proof.
  intros H. apply Forall2_same_length_lookup_2.
  - symmetry. apply length_to_datetime_column.
  - intros i r r' Hr Hr'. rewrite (to_datetime_column_lookup _ _ _ _ Hr) in Hr'.
    injection Hr' as <-. apply H, Hr.
Qed.

Lemma available_value_bool (c : Cell) : exists b, available_value c = VBool b.
Proof.
  unfold available_value. destruct (isnull c); [eauto|]. destruct (eq_str c "N"); eauto.
Qed.

Lemma normalize_df (clock : nat -> Timestamp) (today : date) (s : Env) :
  df (normalize clock today s) = available_column (to_datetime_column clock (df s)).
Proof.
  unfold normalize. rewrite exec_validate_available_df, exec_validate_collection_date_df.
  reflexivity.
Qed.

Lemma normalize_dates (clock : nat -> Timestamp) (today : date) (s : Env) :
  Date_Collected <$> df (normalize clock today s)
  = imap (fun i r => to_datetime (clock i) (Date_Collected r)) (df s).
Proof.
  rewrite normalize_df. unfold available_column, to_datetime_column.
  rewrite <- list_fmap_compose, fmap_imap. reflexivity.
Qed.

(** The dates of a normalized table are dates that [to_datetime] no
    longer changes, whatever the clock. *)
Lemma normalize_date_fixed (clock : nat -> Timestamp) (today : date) (s : Env)
    (now : Timestamp) (idx : nat) (r1 : Row) :
  df (normalize clock today s) !! idx = Some r1 ->
  to_datetime now (Date_Collected r1) = Date_Collected r1.
Proof.
  rewrite normalize_df. unfold available_column. rewrite list_lookup_fmap.
  unfold to_datetime_column. rewrite list_lookup_imap.
  destruct (df s !! idx) as [r|]; [|discriminate].
  intros [= <-]. cbn [Date_Collected set_Available set_Date_Collected].
  apply to_datetime_idempotent.
Qed.

Lemma ts_le_trans (a b c : Timestamp) : ts_le a b -> ts_le b c -> ts_le a c.
Proof.
  intros [Hab| ->]; [|auto]. intros [Hbc| <-]; [|left; exact Hab].
  left. unfold ts_lt in *. lia.
Qed.

(** C3. Running the two normalizing validators again, on the day of the
    first run or later, leaves every [Date_Collected] as it was, and the
    collection-date validator writes nothing for a row that was in range.
    Every [Available] is a boolean after the first run and [True] after the
    second: [True] stays, [False] does not, a boolean being neither
    missing, nor ["N"], nor ["Y"]. *)
Theorem rerun_on_normalized_table (clock clock' : nat -> Timestamp)
    (today today' : date) (s : Env) :
  ts_le (Timestamp_of_date today) (Timestamp_of_date today') ->
  let s1 := normalize clock today s in
  let s2 := normalize clock' today' s1 in
  Date_Collected <$> df s2 = Date_Collected <$> df s1 /\
  (forall (idx : nat) (r1 : Row), df s1 !! idx = Some r1 ->
     exists b r2, Available r1 = VBool b /\
                  df s2 !! idx = Some r2 /\ Available r2 = VBool true) /\
  (forall (idx : nat) (r1 : Row), df s1 !! idx = Some r1 -> in_range today r1 ->
     entries_at idx (appended (validate_collection_date clock' today') s1) = []).
Proof.
  intros Hdays s1 s2. split; [|split].
  - unfold s2. rewrite (normalize_dates clock' today' s1).
    apply list_eq. intros i. rewrite list_lookup_imap, list_lookup_fmap.
    destruct (df s1 !! i) as [r1|] eqn:Hr1; [|reflexivity].
    cbn. rewrite (normalize_date_fixed _ _ _ _ _ _ Hr1). reflexivity.
  - intros idx r1 Hr1. unfold s2. rewrite normalize_df.
    pose proof (to_datetime_column_lookup clock' _ _ _ Hr1) as Hd.
    pose proof (available_column_lookup _ _ _ Hd) as Ha.
    unfold s1 in Hr1. rewrite normalize_df in Hr1.
    unfold available_column in Hr1. rewrite list_lookup_fmap in Hr1.
    destruct (to_datetime_column clock (df s) !! idx) as [r0|]; [|discriminate].
    injection Hr1 as <-. cbn [Available set_Available] in *.
    destruct (available_value_bool (Available r0)) as [b Hb].
    exists b. eexists. split; [exact Hb|]. split; [exact Ha|].
    cbn [Available set_Available set_Date_Collected]. rewrite Hb. reflexivity.
  - intros idx r1 Hr1 (t & Ht & Hlo & Hhi).
    assert (Hlog : log (exec (validate_collection_date clock' today') s1)
                   = log s1 ++ concat (imap (row_entries (date_row_issues today') Date_Collected)
                                            (to_datetime_column clock' (df s1)))).
    { by_run validate_collection_date_run. }
    rewrite (appended_app _ _ _ Hlog).
    rewrite (entries_at_items _ _ _ _ _ (to_datetime_column_lookup clock' _ _ _ Hr1)).
    unfold row_entries, date_row_issues. cbn [Date_Collected set_Date_Collected].
    rewrite (normalize_date_fixed _ _ _ _ _ _ Hr1), Ht. cbn [isnull Cell_PyValue].
    pose proof (ts_le_trans _ _ _ Hhi Hdays) as Hhi'.
    apply ts_leb_le in Hlo, Hhi'. unfold ts_leb in Hlo, Hhi'.
    apply negb_true_iff in Hlo, Hhi'. rewrite Hlo, Hhi'. reflexivity.
Qed.

Lemma rerun_on_normalized_table_witness :
  Date_Collected <$> df (normalize run_clock run_day
                           (normalize run_clock run_day rerun_sample))
    = Date_Collected <$> df (normalize run_clock run_day rerun_sample) /\
  (exists r2, df (normalize run_clock run_day
                    (normalize run_clock run_day rerun_sample)) !! 0 = Some r2 /\
              Available r2 = VBool true) /\
  entries_at 0 (appended (validate_collection_date run_clock run_day)
                         (normalize run_clock run_day rerun_sample))
    = [].
Proof.
  destruct (rerun_on_normalized_table run_clock run_clock run_day run_day rerun_sample)
    as (Hd & Ha & He).
  { right. reflexivity. }
  split; [exact Hd|]. split.
  - destruct (Ha 0 _ eq_refl) as (b & r2 & _ & Hr2 & Hv). exists r2. split; assumption.
  - apply (He 0 _ eq_refl). exists (Stamp 2021 3 1 0 0). split; [reflexivity|].
    split; left; ts_order.
Defined.

(** Idempotence as worded fails: a row that is not available reads [False]
    after the first run and [True] after the second, which also logs it. *)
Lemma rerun_flips_false : ~ rerun_changes_nothing run_clock run_day rerun_sample.
Proof.
  intros (_ & Ha & _). vm_compute in Ha. discriminate Ha.
Qed.

(** ** Provenance *)

Lemma keeps_provenance_refl (t : Table) : Forall2 keeps_provenance t t.
Proof.
  induction t as [|r t IH]; constructor; [|exact IH]. destruct r. reflexivity.
Qed.

Lemma keeps_provenance_trans (t1 t2 t3 : Table) :
  Forall2 keeps_provenance t1 t2 -> Forall2 keeps_provenance t2 t3 ->
  Forall2 keeps_provenance t1 t3.
Proof.
  intros H12. revert t3. induction H12 as [|r1 r2 t1 t2 Hr _ IH]; intros t3 H23.
  - inversion H23. constructor.
  - inversion H23 as [|? r3 ? t3' Hr' H23' ]; subst. constructor; [|apply IH, H23'].
    unfold keeps_provenance in *. rewrite Hr', Hr. reflexivity.
Qed.

Lemma to_datetime_column_provenance (clock : nat -> Timestamp) (t : Table) :
  Forall2 (fun r r' => r' = set_Date_Collected (Date_Collected r') r)
          t (to_datetime_column clock t).
Proof.
  apply to_datetime_column_rows. intros i r _. reflexivity.
Qed.

Lemma available_column_provenance (t : Table) :
  Forall2 (fun r r' => r' = set_Available (Available r') r) t (available_column t).
Proof.
  induction t as [|r t IH]; constructor; [reflexivity|exact IH].
Qed.

Lemma exec_bind {A B} (m : M A) (k : A -> M B) (s : Env) :
  exec (bind m k) s
  = match outcome m s with
    | Ok a => exec (k a) (exec m s)
    | Raised _ => exec m s
    end.
Proof.
  unfold exec, outcome, bind. destruct (m s) as [[a|e] s']; reflexivity.
Qed.

(** A computation that changes no row beyond its two rewritable fields. *)
Lemma keeps_provenance_bind {A B} (m : M A) (k : A -> M B) :
  (forall s, Forall2 keeps_provenance (df s) (df (exec m s))) ->
  (forall a s, Forall2 keeps_provenance (df s) (df (exec (k a) s))) ->
  forall s, Forall2 keeps_provenance (df s) (df (exec (bind m k) s)).
Proof.
  intros Hm Hk s. rewrite exec_bind. destruct (outcome m s); [|apply Hm].
  eapply keeps_provenance_trans; [apply Hm|apply Hk].
Qed.

(** C10. No validator removes a row or touches a provenance field: the
    identifier and patient-ID validators leave the table as it is, the
    collection-date validator changes [Date_Collected] alone, the
    availability validator changes [Available] alone, and after the whole
    pipeline, wherever it stops, every row has the [SourceFile],
    [OriginalRow], [Barcode_ID] and [Patient_Study_ID] it had at ingestion. *)
Theorem validators_keep_provenance (clock : nat -> Timestamp) (today : date) (s : Env) :
  df (exec validate_barcodeid s) = df s /\
  df (exec validate_ptid s) = df s /\
  Forall2 (fun r r' => r' = set_Date_Collected (Date_Collected r') r)
          (df s) (df (exec (validate_collection_date clock today) s)) /\
  Forall2 (fun r r' => r' = set_Available (Available r') r)
          (df s) (df (exec validate_available s)) /\
  Forall2 keeps_provenance (df s) (df (exec (pipeline clock today) s)) /\
  length (df (exec (pipeline clock today) s)) = length (df s).
Proof.
  assert (Hb : forall s, Forall2 keeps_provenance (df s) (df (exec validate_barcodeid s))).
  { intros s0. rewrite exec_validate_barcodeid_df. apply keeps_provenance_refl. }
  assert (Hp : forall s, Forall2 keeps_provenance (df s) (df (exec validate_ptid s))).
  { intros s0. rewrite exec_validate_ptid_df. apply keeps_provenance_refl. }
  assert (Hd : forall s, Forall2 keeps_provenance (df s)
                                 (df (exec (validate_collection_date clock today) s))).
  { intros s0. rewrite exec_validate_collection_date_df.
    eapply Forall2_impl; [apply to_datetime_column_provenance|].
    intros r r' ->. reflexivity. }
  assert (Ha : forall s, Forall2 keeps_provenance (df s) (df (exec validate_available s))).
  { intros s0. rewrite exec_validate_available_df.
    eapply Forall2_impl; [apply available_column_provenance|].
    intros r r' ->. reflexivity. }
  assert (Hpipe : Forall2 keeps_provenance (df s) (df (exec (pipeline clock today) s))).
  { unfold pipeline. revert s.
    apply keeps_provenance_bind; [exact Hb|]. intros _.
    apply keeps_provenance_bind; [exact Hp|]. intros _.
    apply keeps_provenance_bind; [exact Hd|]. intros _. exact Ha. }
  split; [apply exec_validate_barcodeid_df|].
  split; [apply exec_validate_ptid_df|].
  split; [rewrite exec_validate_collection_date_df; apply to_datetime_column_provenance|].
  split; [rewrite exec_validate_available_df; apply available_column_provenance|].
  split; [exact Hpipe|].
  symmetry. eapply Forall2_length, Hpipe.
Qed.

(** ** extract_data *)

Lemma read_all_nil (files : list (string * ReadOutcome)) :
  read_all files = [] <-> forall name o, In (name, o) files -> o = ReadError.
Proof.
  induction files as [|[name [rows|]] files IH].
  - simpl. split; [intros _ ? ? []|reflexivity].
  - simpl. split; [discriminate|]. intros H.
    specialize (H name (Sheet rows) (or_introl eq_refl)). discriminate.
  - simpl. rewrite IH. split.
    + intros H n o [[= <- <-]|Hin]; [reflexivity|eauto].
    + intros H n o Hin. eauto.
Qed.

Lemma read_all_rows (files : list (string * ReadOutcome)) (name : string)
    (rows : list SheetRow) (i : nat) (r : SheetRow) :
  In (name, Sheet rows) files -> rows !! i = Some r ->
  In (tag_row name i r) (concat (read_all files)).
Proof.
  intros Hin Hr. induction files as [|[n [rs|]] files IH]; [destruct Hin| |].
  - cbn [read_all concat]. apply in_or_app. destruct Hin as [[= -> ->]|Hin].
    + left. apply list_elem_of_In, elem_of_lookup_imap. eauto.
    + right. apply IH, Hin.
  - cbn [read_all]. destruct Hin as [[=]|Hin]. apply IH, Hin.
Qed.

Lemma read_all_rows_inv (files : list (string * ReadOutcome)) (row : Row) :
  In row (concat (read_all files)) ->
  exists name rows i r,
    In (name, Sheet rows) files /\ rows !! i = Some r /\ row = tag_row name i r.
Proof.
  induction files as [|[n [rs|]] files IH]; [intros []| |].
  - cbn [read_all concat]. intros H. apply in_app_or in H as [H|H].
    + apply list_elem_of_In, elem_of_lookup_imap in H as (i & r & -> & Hr).
      exists n, rs, i, r. split; [left; reflexivity|]. split; [exact Hr|reflexivity].
    + destruct (IH H) as (name & rows & i & r & Hin & Hr & ->).
      exists name, rows, i, r. split; [right; exact Hin|]. split; [exact Hr|reflexivity].
  - cbn [read_all]. intros H.
    destruct (IH H) as (name & rows & i & r & Hin & Hr & ->).
    exists name, rows, i, r. split; [right; exact Hin|]. split; [exact Hr|reflexivity].
Qed.

Lemma read_all_length (files : list (string * ReadOutcome)) :
  length (concat (read_all files))
  = sum_list ((fun f => match snd f with Sheet rows => length rows | ReadError => 0 end)
                <$> files).
Proof.
  induction files as [|[n [rs|]] files IH]; [reflexivity| |].
  - cbn [read_all concat]. rewrite length_app, length_imap, IH. reflexivity.
  - cbn [read_all]. rewrite IH. reflexivity.
Qed.

(** C9. The table builder fails, with the error of [pd.concat] on an empty
    list, exactly when the list of frames to concatenate is empty, that is
    when no spreadsheet could be read.  As soon as one spreadsheet is read
    it returns a table that holds every row of every spreadsheet read,
    tagged with its file and its row number, and nothing else. *)
Theorem extract_data_correct (files : list (string * ReadOutcome)) :
  (extract_data files = Raised (ValueError "No objects to concatenate") <->
   read_all files = []) /\
  (read_all files = [] <-> forall name o, In (name, o) files -> o = ReadError) /\
  (forall name rows, In (name, Sheet rows) files ->
     exists t,
       extract_data files = Ok t /\
       t = concat (read_all files) /\
       length t = sum_list ((fun f => match snd f with
                                      | Sheet rows => length rows
                                      | ReadError => 0
                                      end) <$> files) /\
       (forall name' rows' i r,
          In (name', Sheet rows') files -> rows' !! i = Some r ->
          In (tag_row name' i r) t) /\
       (forall row, In row t ->
          exists name' rows' i r,
            In (name', Sheet rows') files /\ rows' !! i = Some r /\
            row = tag_row name' i r)).
Proof.
  split; [|split].
  - unfold extract_data, pd_concat. destruct (read_all files); split; congruence.
  - apply read_all_nil.
  - intros name rows Hin. exists (concat (read_all files)).
    split; [|split; [reflexivity|split; [|split]]].
    + unfold extract_data, pd_concat. destruct (read_all files) eqn:E; [|reflexivity].
      pose proof (proj1 (read_all_nil files) E _ _ Hin) as Hbad. discriminate Hbad.
    + apply read_all_length.
    + intros name' rows' i r. apply read_all_rows.
    + apply read_all_rows_inv.
Qed.

Lemma extract_data_correct_witness :
  exists t, extract_data files_sample = Ok t /\ length t = 2 /\
            In (mkRow (IStr "AB000002") (IStr "C-02") (VStr "03/02/2021") (VStr "N") "a.xlsx" 3) t.
Proof.
  destruct (extract_data_correct files_sample) as (_ & _ & H).
  destruct (H "a.xlsx" _ (or_introl eq_refl)) as (t & Ht & _ & Hlen & Hrows & _).
  exists t. split; [exact Ht|]. split; [exact Hlen|].
  apply (Hrows "a.xlsx" _ 1 _ (or_introl eq_refl) eq_refl).
Defined.


(** * Beyond the validators' contracts *)

(** ** What each validator appends, in closed form *)

Lemma appended_validate_barcodeid (s : Env) :
  log (exec validate_barcodeid s) = log s ++ appended validate_barcodeid s /\
  appended validate_barcodeid s
  = first_pass_entries (df s)
    ++ (if is_unique (column Barcode_ID (df s)) then [] else duplicate_entries (df s)).
Proof.
  pose proof (validate_barcodeid_run s) as Hrun.
  assert (Hlog : log (exec validate_barcodeid s)
                 = log s ++ first_pass_entries (df s)
                   ++ (if is_unique (column Barcode_ID (df s)) then []
                       else duplicate_entries (df s))).
  { unfold exec. rewrite Hrun. unfold first_pass_entries.
    destruct (last (df s)) eqn:Hlast.
    - cbn zeta. destruct (is_unique _); cbn [snd log].
      + rewrite app_nil_r. reflexivity.
      + rewrite <- app_assoc. reflexivity.
    - apply last_None in Hlast. rewrite Hlast. cbn. rewrite app_nil_r. reflexivity. }
  rewrite (appended_app _ _ _ Hlog). split; [exact Hlog|reflexivity].
Qed.

Lemma appended_validate_ptid (s : Env) :
  log (exec validate_ptid s) = log s ++ appended validate_ptid s /\
  appended validate_ptid s = ptid_entries (df s).
Proof.
  assert (Hlog : log (exec validate_ptid s) = log s ++ ptid_entries (df s)).
  { by_run validate_ptid_run. }
  rewrite (appended_app _ _ _ Hlog). split; [exact Hlog|reflexivity].
Qed.

Lemma appended_validate_collection_date (clock : nat -> Timestamp) (today : date) (s : Env) :
  log (exec (validate_collection_date clock today) s)
  = log s ++ appended (validate_collection_date clock today) s /\
  appended (validate_collection_date clock today) s
  = date_entries today (to_datetime_column clock (df s)).
Proof.
  assert (Hlog : log (exec (validate_collection_date clock today) s)
                 = log s ++ date_entries today (to_datetime_column clock (df s))).
  { by_run validate_collection_date_run. }
  rewrite (appended_app _ _ _ Hlog). split; [exact Hlog|reflexivity].
Qed.

Lemma appended_validate_available (s : Env) :
  log (exec validate_available s) = log s ++ appended validate_available s /\
  appended validate_available s = available_entries (df s).
Proof.
  assert (Hlog : log (exec validate_available s) = log s ++ available_entries (df s)).
  { unfold exec, available_entries. rewrite validate_available_run.
    destruct (last (df s)); [reflexivity|]. cbn. rewrite app_nil_r. reflexivity. }
  rewrite (appended_app _ _ _ Hlog). split; [exact Hlog|reflexivity].
Qed.

(** The whole pipeline: it stops in [validate_barcodeid] unless the table
    has a repeated barcode, and otherwise runs the four validators. *)
Lemma pipeline_run (clock : nat -> Timestamp) (today : date) (s : Env) :
  pipeline clock today s
  = match last (df s) with
    | None => (Raised (UnboundLocalError "issues"), s)
    | Some _ =>
        if is_unique (column Barcode_ID (df s))
        then (Raised (UnboundLocalError "grouped"),
              mkEnv (df s) (log s ++ first_pass_entries (df s)))
        else (Ok tt,
              mkEnv (available_column (to_datetime_column clock (df s)))
                    (log s ++ first_pass_entries (df s) ++ duplicate_entries (df s)
                     ++ ptid_entries (df s)
                     ++ date_entries today (to_datetime_column clock (df s))
                     ++ available_entries (to_datetime_column clock (df s))))
    end.
Proof.
  unfold pipeline, bind at 1. rewrite validate_barcodeid_run.
  destruct (last (df s)) as [r|] eqn:Hlast; [|reflexivity].
  cbn zeta. destruct (is_unique (column Barcode_ID (df s))); [reflexivity|].
  unfold bind at 1. rewrite validate_ptid_run. cbn [df log].
  unfold bind. rewrite validate_collection_date_run. cbn [df log].
  rewrite validate_available_run. cbn [df log].
  unfold available_entries.
  rewrite (to_datetime_column_last _ _ _ Hlast). cbn zeta. unfold ptid_entries, date_entries.
  rewrite <- !app_assoc. reflexivity.
Qed.

(** ** The log only grows *)

Lemma grows_by (s s' : Env) (new : Log) :
  log s' = log s ++ new ->
  exists new', log s' = log s ++ new' /\
               log_text (log s') = log_text (log s) +:+ log_text new'.
Proof.
  intros H. exists new. split; [exact H|]. rewrite H. apply log_text_app.
Qed.

(** X1. The log file is append-only: whatever a validator or the whole
    pipeline does, and whether it returns or raises, the entries it found
    are still there, in the same order and before the new ones, and the
    text of the file starts with the text it had. *)
Theorem log_is_append_only (clock : nat -> Timestamp) (today : date) (s : Env) :
  Forall (fun s' => exists new,
            log s' = log s ++ new /\
            log_text (log s') = log_text (log s) +:+ log_text new)
         [ exec validate_barcodeid s;
           exec validate_ptid s;
           exec (validate_collection_date clock today) s;
           exec validate_available s;
           exec (pipeline clock today) s ].
Proof.
  repeat apply Forall_cons_2; [| | | | |apply Forall_nil_2].
  - eapply grows_by, (proj1 (appended_validate_barcodeid s)).
  - eapply grows_by, (proj1 (appended_validate_ptid s)).
  - eapply grows_by, (proj1 (appended_validate_collection_date clock today s)).
  - eapply grows_by, (proj1 (appended_validate_available s)).
  - unfold exec. rewrite pipeline_run.
    destruct (last (df s)).
    + destruct (is_unique _); eapply grows_by; reflexivity.
    + apply (grows_by s s []). cbn. rewrite app_nil_r. reflexivity.
Qed.

(** ** Every entry leads back to a row *)

Lemma traceable_provenance (t t' : Table) (e : DiagnosticEntry) :
  Forall2 keeps_provenance t t' -> traceable t' e -> traceable t e.
Proof.
  intros H (r' & Hr' & Hf & Ho & Hi).
  destruct (Forall2_lookup_r _ _ _ _ _ H Hr') as (r & Hr & Hk).
  exists r. split; [exact Hr|]. rewrite Hf, Ho, Hk. auto.
Qed.

Lemma row_entries_traceable {V} (f : V -> list string) (col : Row -> V)
    (t : Table) (i : nat) (r : Row) :
  t !! i = Some r -> Forall (traceable t) (row_entries f col i r).
Proof.
  intros Hr. unfold row_entries. destruct (f (col r)) as [|x xs] eqn:E; cbn [nonempty].
  - constructor.
  - repeat constructor. exists r. cbn. auto.
Qed.

Lemma loop_entries_traceable {V} (f : V -> list string) (col : Row -> V) (t : Table) :
  Forall (traceable t) (concat (imap (row_entries f col) t)).
Proof.
  apply Forall_forall. intros e He. apply list_elem_of_In, in_concat in He as (l & Hl & He).
  apply list_elem_of_In, elem_of_lookup_imap in Hl as (i & r & -> & Hr).
  pose proof (row_entries_traceable f col t i r Hr) as H.
  rewrite Forall_forall in H. apply H, list_elem_of_In, He.
Qed.

Lemma last_lookup_Some (t : Table) (r : Row) :
  last t = Some r -> t !! (length t - 1) = Some r.
Proof.
  intros H. rewrite <- H, last_lookup. f_equal. lia.
Qed.

Lemma first_pass_traceable (t : Table) : Forall (traceable t) (first_pass_entries t).
Proof.
  unfold first_pass_entries. destruct (last t) as [r|] eqn:E; [|constructor].
  apply row_entries_traceable, last_lookup_Some, E.
Qed.

Lemma available_entries_traceable (t : Table) : Forall (traceable t) (available_entries t).
Proof.
  unfold available_entries. destruct (last t) as [r|] eqn:E; [|constructor].
  apply row_entries_traceable, last_lookup_Some, E.
Qed.

Lemma duplicate_entries_traceable (t : Table) : Forall (traceable t) (duplicate_entries t).
Proof.
  apply Forall_forall. intros e He. unfold duplicate_entries in He.
  apply list_elem_of_In, in_concat in He as (l & Hl & He).
  apply list_elem_of_In, list_elem_of_fmap in Hl as (g & -> & _).
  apply list_elem_of_In, list_elem_of_omap in He as (j & _ & Hj).
  unfold entry_of in Hj. destruct (t !! j) as [r|] eqn:Hr; [|discriminate].
  injection Hj as <-. exists r. cbn. split; [exact Hr|]. auto.
Qed.

Lemma to_datetime_column_keeps (clock : nat -> Timestamp) (t : Table) :
  Forall2 keeps_provenance t (to_datetime_column clock t).
Proof.
  eapply Forall2_impl; [apply to_datetime_column_provenance|]. intros r r' ->. reflexivity.
Qed.

(** X2. Every entry that a validator, or the whole pipeline, appends can be
    traced: its index is the index of a row of the table, its file name and
    row number are the [SourceFile] and [OriginalRow] of that row, and it
    lists at least one issue. *)
Theorem entries_are_traceable (clock : nat -> Timestamp) (today : date) (s : Env) :
  Forall (traceable (df s)) (appended validate_barcodeid s) /\
  Forall (traceable (df s)) (appended validate_ptid s) /\
  Forall (traceable (df s)) (appended (validate_collection_date clock today) s) /\
  Forall (traceable (df s)) (appended validate_available s) /\
  Forall (traceable (df s)) (appended (pipeline clock today) s).
Proof.
  assert (Hdate : forall d, Forall (traceable (df s))
                                   (date_entries d (to_datetime_column clock (df s)))).
  { intros d. eapply Forall_impl; [apply loop_entries_traceable|].
    intros e. apply traceable_provenance, to_datetime_column_keeps. }
  assert (Havail : Forall (traceable (df s)) (available_entries (to_datetime_column clock (df s)))).
  { eapply Forall_impl; [apply available_entries_traceable|].
    intros e. apply traceable_provenance, to_datetime_column_keeps. }
  split; [|split; [|split; [|split]]].
  - rewrite (proj2 (appended_validate_barcodeid s)). apply Forall_app. split.
    + apply first_pass_traceable.
    + destruct (is_unique _); [constructor|apply duplicate_entries_traceable].
  - rewrite (proj2 (appended_validate_ptid s)). apply loop_entries_traceable.
  - rewrite (proj2 (appended_validate_collection_date clock today s)). apply Hdate.
  - rewrite (proj2 (appended_validate_available s)). apply available_entries_traceable.
  - pose proof (pipeline_run clock today s) as Hrun.
    destruct (last (df s)) eqn:Hlast.
    + destruct (is_unique (column Barcode_ID (df s))).
      * rewrite (appended_app _ _ (first_pass_entries (df s))) by (by_run Hrun).
        apply first_pass_traceable.
      * erewrite appended_app by (by_run Hrun).
        repeat (apply Forall_app; split);
          auto using first_pass_traceable, duplicate_entries_traceable.
        apply loop_entries_traceable.
    + rewrite (appended_app _ _ []); [constructor|].
      unfold exec. rewrite Hrun. cbn. rewrite app_nil_r. reflexivity.
Qed.

(** ** The order of the entries of a pass *)

Lemma loop_entries_sorted {V} (f : V -> list string) (col : Row -> V) (t : Table) (k : nat) :
  StronglySorted lt
    (master_index <$> concat (imap (fun i r => row_entries f col (k + i) r) t)) /\
  Forall (fun j => k <= j)
    (master_index <$> concat (imap (fun i r => row_entries f col (k + i) r) t)) /\
  length (concat (imap (fun i r => row_entries f col (k + i) r) t)) <= length t.
Proof.
  revert k. induction t as [|r t IH]; intros k.
  - cbn. repeat split; constructor.
  - rewrite imap_cons. cbn [concat length]. rewrite fmap_app, length_app.
    rewrite (imap_ext _ (fun i r0 => row_entries f col (S k + i) r0)).
    2:{ intros i x _. cbn. f_equal. lia. }
    destruct (IH (S k)) as (Hs & Hb & Hl).
    assert (Hhead : row_entries f col (k + 0) r = []
                    \/ exists e, row_entries f col (k + 0) r = [e] /\ master_index e = k).
    { unfold row_entries. destruct (nonempty _); [right|left; reflexivity].
      eexists. split; [reflexivity|]. cbn. lia. }
    destruct Hhead as [->|(e & -> & He)].
    + cbn [fmap list_fmap app length]. split; [exact Hs|]. split; [|lia].
      eapply Forall_impl; [exact Hb|]. cbn. intros; lia.
    + cbn [fmap list_fmap app length]. rewrite He. split; [|split; [|lia]].
      * apply StronglySorted_cons. split; [|exact Hs].
        eapply Forall_impl; [exact Hb|]. cbn. intros; lia.
      * constructor; [lia|]. eapply Forall_impl; [exact Hb|]. cbn. intros; lia.
Qed.

(** X3. The patient-ID validator and the collection-date validator write
    their entries in the order of the rows: the table indices of the
    entries of one pass are strictly increasing, so that a row has at most
    one entry and a pass writes no more entries than the table has rows. *)
Theorem passes_follow_row_order (clock : nat -> Timestamp) (today : date) (s : Env) :
  StronglySorted lt (master_index <$> appended validate_ptid s) /\
  length (appended validate_ptid s) <= length (df s) /\
  StronglySorted lt (master_index <$> appended (validate_collection_date clock today) s) /\
  length (appended (validate_collection_date clock today) s) <= length (df s).
Proof.
  rewrite (proj2 (appended_validate_ptid s)).
  rewrite (proj2 (appended_validate_collection_date clock today s)).
  destruct (loop_entries_sorted ptid_row_issues Patient_Study_ID (df s) 0) as (H1 & _ & H2).
  destruct (loop_entries_sorted (date_row_issues today) Date_Collected
              (to_datetime_column clock (df s)) 0) as (H3 & _ & H4).
  rewrite length_to_datetime_column in H4.
  repeat split; assumption.
Qed.

(** ** The identifier validator, beyond its last row *)

Lemma duplicate_entries_reports (t : Table) : Forall duplicate_report (duplicate_entries t).
Proof.
  apply Forall_forall. intros e He. unfold duplicate_entries in He.
  apply list_elem_of_In, in_concat in He as (l & Hl & He).
  apply list_elem_of_In, list_elem_of_fmap in Hl as ([k idxs] & -> & _).
  apply list_elem_of_In, list_elem_of_omap in He as (j & _ & Hj).
  unfold entry_of in Hj. destruct (t !! j); [|discriminate].
  injection Hj as <-. exists k, idxs. reflexivity.
Qed.

Lemma first_pass_entries_last (t : Table) :
  Forall (fun e => master_index e + 1 = length t /\
                   exists r, last t = Some r /\ issues e = barcode_row_issues (Barcode_ID r))
         (first_pass_entries t).
Proof.
  unfold first_pass_entries. destruct (last t) as [r|] eqn:E; [|constructor].
  unfold row_entries. destruct (nonempty _); [|constructor].
  repeat constructor; cbn.
  - destruct t; [discriminate|]. cbn. lia.
  - eauto.
Qed.

(** X4. Whatever the table, what the identifier validator appends is at
    most one entry about the last row of the table, followed by duplicate
    reports only: the length issue of a row that is not the last is never
    logged. *)
Theorem only_last_row_gets_length_issue (s : Env) :
  exists first rest,
    appended validate_barcodeid s = first ++ rest /\
    length first <= 1 /\
    Forall (fun e => master_index e + 1 = length (df s) /\
                     exists r, last (df s) = Some r /\
                               issues e = barcode_row_issues (Barcode_ID r)) first /\
    Forall duplicate_report rest.
Proof.
  exists (first_pass_entries (df s)),
         (if is_unique (column Barcode_ID (df s)) then [] else duplicate_entries (df s)).
  split; [apply appended_validate_barcodeid|]. split; [|split].
  - unfold first_pass_entries. destruct (last (df s)); [|cbn; lia].
    unfold row_entries. destruct (nonempty _); cbn; lia.
  - apply first_pass_entries_last.
  - destruct (is_unique _); [constructor|apply duplicate_entries_reports].
Qed.

Lemma duplicate_issue_not_NA (k : Ident) (idxs : list nat) :
  duplicate_issue k idxs <> "Barcode_ID is NA".
Proof. discriminate. Qed.

Lemma loop_entries_issues {V} (f : V -> list string) (col : Row -> V) (t : Table)
    (P : list string -> Prop) :
  (forall v, P (f v)) ->
  Forall (fun e => P (issues e)) (concat (imap (row_entries f col) t)).
Proof.
  intros H. apply Forall_forall. intros e He.
  apply list_elem_of_In, in_concat in He as (l & Hl & He).
  apply list_elem_of_In, elem_of_lookup_imap in Hl as (i & r & -> & _).
  unfold row_entries in He. destruct (nonempty _); [|destruct He].
  destruct He as [<-|[]]. apply H.
Qed.

(** X5. No entry of the log ever says [Barcode_ID is NA]: a missing
    barcode never reaches the branch that would report it, and no other
    validator writes that text. *)
Theorem barcode_NA_never_logged (clock : nat -> Timestamp) (today : date) (s : Env) :
  Forall (fun e => ~ In "Barcode_ID is NA" (issues e)) (appended validate_barcodeid s) /\
  Forall (fun e => ~ In "Barcode_ID is NA" (issues e)) (appended (pipeline clock today) s).
Proof.
  assert (Hfirst : Forall (fun e => ~ In "Barcode_ID is NA" (issues e))
                          (first_pass_entries (df s))).
  { eapply Forall_impl; [apply first_pass_entries_last|].
    intros e (_ & r & _ & ->). apply barcode_NA_unreachable. }
  assert (Hdup : Forall (fun e => ~ In "Barcode_ID is NA" (issues e))
                        (duplicate_entries (df s))).
  { eapply Forall_impl; [apply duplicate_entries_reports|].
    intros e (k & idxs & ->) [H|[]]. exact (duplicate_issue_not_NA _ _ H). }
  assert (Hptid : Forall (fun e => ~ In "Barcode_ID is NA" (issues e))
                         (ptid_entries (df s))).
  { apply (loop_entries_issues ptid_row_issues Patient_Study_ID (df s)
             (fun iss => ~ In "Barcode_ID is NA" iss)).
    intros v. unfold ptid_row_issues.
    destruct (isnull v); [intros [H|[]]; discriminate H|].
    destruct (negb _); [intros [H|[]]; discriminate H|intros []]. }
  assert (Hdate : Forall (fun e => ~ In "Barcode_ID is NA" (issues e))
                         (date_entries today (to_datetime_column clock (df s)))).
  { apply (loop_entries_issues (date_row_issues today) Date_Collected
             (to_datetime_column clock (df s)) (fun iss => ~ In "Barcode_ID is NA" iss)).
    intros v. unfold date_row_issues.
    destruct (isnull v); [intros [H|[]]; discriminate H|].
    destruct v; try (intros []).
    destruct (_ || _); [intros [H|[]]; discriminate H|intros []]. }
  assert (Havail : Forall (fun e => ~ In "Barcode_ID is NA" (issues e))
                          (available_entries (to_datetime_column clock (df s)))).
  { unfold available_entries. destruct (last _); [|constructor].
    unfold row_entries, available_row_issues. destruct (available_unknown _); cbn.
    - repeat constructor. cbn. intros [H|[]]. discriminate H.
    - constructor. }
  split.
  - rewrite (proj2 (appended_validate_barcodeid s)). apply Forall_app. split; [exact Hfirst|].
    destruct (is_unique _); [constructor|exact Hdup].
  - pose proof (pipeline_run clock today s) as Hrun.
    destruct (last (df s)) eqn:Hlast.
    + destruct (is_unique (column Barcode_ID (df s))).
      * rewrite (appended_app _ _ (first_pass_entries (df s))) by (by_run Hrun).
        exact Hfirst.
      * erewrite appended_app by (by_run Hrun).
        repeat (apply Forall_app; split); assumption.
    + rewrite (appended_app _ _ []); [constructor|].
      unfold exec. rewrite Hrun. cbn. rewrite app_nil_r. reflexivity.
Qed.

Lemma duplicate_entries_sound (s : Env) :
  Forall (fun e =>
            exists r,
              df s !! master_index e = Some r /\
              isnull (Barcode_ID r) = false /\
              2 <= occurrences (Barcode_ID r) (column Barcode_ID (df s)) /\
              e = mkEntry (SourceFile r) (master_index e) (OriginalRow r)
                    [duplicate_issue (Barcode_ID r)
                       (indices_of (Barcode_ID r) (column Barcode_ID (df s)))])
         (duplicate_entries (df s)).
Proof.
  apply Forall_forall. intros e He.
  pose proof (duplicate_entries_traceable (df s)) as Ht.
  rewrite Forall_forall in Ht. destruct (Ht e He) as (r & Hr & _).
  exists r. split; [exact Hr|].
  assert (Hat : In e (entries_at (master_index e) (duplicate_entries (df s)))).
  { apply filter_In. split; [apply list_elem_of_In, He|apply Nat.eqb_refl]. }
  rewrite (duplicate_entries_at _ _ _ Hr) in Hat.
  destruct (isnull (Barcode_ID r)); cbn [negb andb] in Hat; [destruct Hat|].
  destruct (Nat.leb_spec 2 (occurrences (Barcode_ID r) (column Barcode_ID (df s))));
    [|destruct Hat].
  destruct Hat as [<-|[]]. cbn. auto.
Qed.

Lemma first_pass_no_duplicate_report (t : Table) :
  Forall (fun e => ~ duplicate_report e) (first_pass_entries t).
Proof.
  eapply Forall_impl; [apply first_pass_entries_last|].
  intros e (_ & r & _ & He) (k & idxs & Hd). rewrite He in Hd.
  unfold barcode_row_issues in Hd.
  destruct (negb _); [discriminate Hd|]. destruct (isnull _); discriminate Hd.
Qed.

(** X6. The identifier validator reports nothing else than duplicates as
    duplicates: every duplicate report it appends is about a row whose
    barcode is not missing and occurs in two rows or more, and is the entry
    of that row, naming the barcode and all the rows that hold it. *)
Theorem duplicate_pass_is_sound (s : Env) :
  Forall (fun e =>
            duplicate_report e ->
            exists r,
              df s !! master_index e = Some r /\
              isnull (Barcode_ID r) = false /\
              2 <= occurrences (Barcode_ID r) (column Barcode_ID (df s)) /\
              e = mkEntry (SourceFile r) (master_index e) (OriginalRow r)
                    [duplicate_issue (Barcode_ID r)
                       (indices_of (Barcode_ID r) (column Barcode_ID (df s)))])
         (appended validate_barcodeid s).
Proof.
  rewrite (proj2 (appended_validate_barcodeid s)). apply Forall_app. split.
  - eapply Forall_impl; [apply first_pass_no_duplicate_report|].
    intros e Hn Hd. contradiction.
  - destruct (is_unique _); [constructor|].
    eapply Forall_impl; [apply duplicate_entries_sound|].
    intros e H _. exact H.
Qed.

(** ** The order of the duplicate groups *)

Lemma key_leb_total (a b : Ident) : key_leb a b = true \/ key_leb b a = true.
Proof.
  destruct a as [ka|sa], b as [kb|sb]; cbn; auto. apply String.leb_total.
Qed.

Lemma insert_key_hd (k a : Ident) (ks : list Ident) :
  key_leb a k = true ->
  HdRel (fun x y => key_leb x y = true) a ks ->
  HdRel (fun x y => key_leb x y = true) a (insert_key k ks).
Proof.
  intros Hak H. destruct ks as [|b ks]; cbn [insert_key].
  - constructor. exact Hak.
  - destruct (key_leb k b); constructor; [exact Hak|].
    inversion H; assumption.
Qed.

Lemma insert_key_sorted (k : Ident) (ks : list Ident) :
  Sorted (fun x y => key_leb x y = true) ks ->
  Sorted (fun x y => key_leb x y = true) (insert_key k ks).
Proof.
  induction 1 as [|a ks Hs IH Hhd]; cbn [insert_key].
  - repeat constructor.
  - destruct (key_leb k a) eqn:E.
    + constructor; [constructor; assumption|]. constructor. exact E.
    + constructor; [exact IH|]. apply insert_key_hd; [|exact Hhd].
      destruct (key_leb_total k a) as [H|H]; [congruence|exact H].
Qed.

Lemma sort_keys_sorted (ks : list Ident) :
  Sorted (fun x y => key_leb x y = true) (sort_keys ks).
Proof.
  induction ks as [|k ks IH]; [constructor|].
  unfold sort_keys in *. cbn [foldr]. apply insert_key_sorted, IH.
Qed.

Lemma is_unique_NoDup (c : list Ident) : is_unique c = true <-> NoDup c.
Proof.
  induction c as [|a c IH]; [split; [constructor|reflexivity]|].
  cbn [is_unique]. rewrite andb_true_iff, negb_true_iff, IH, NoDup_cons. split.
  - intros [Ha Hc]. split; [|exact Hc]. intros Hin.
    assert (existsb (py_eqb a) c = true); [|congruence].
    apply existsb_exists. exists a. split; [apply list_elem_of_In, Hin|apply py_eqb_refl].
  - intros [Ha Hc]. split; [|exact Hc].
    destruct (existsb (py_eqb a) c) eqn:E; [|reflexivity].
    apply existsb_exists in E as (x & Hx & Hq). apply py_eqb_eq in Hq. subst x.
    exfalso. apply Ha, list_elem_of_In, Hx.
Qed.

Lemma indices_sorted_from (k : Ident) (c : list Ident) (n : nat) :
  StronglySorted lt
    (fst <$> List.filter (fun it => py_eqb k (snd it)) (imap (fun j x => (n + j, x)) c)) /\
  Forall (fun j => n <= j)
    (fst <$> List.filter (fun it => py_eqb k (snd it)) (imap (fun j x => (n + j, x)) c)).
Proof.
  revert n. induction c as [|x c IH]; intros n; [cbn; split; constructor|].
  rewrite imap_cons. cbn [List.filter snd].
  rewrite (imap_ext _ (fun j y => (S n + j, y))).
  2:{ intros j y _. cbn. f_equal. lia. }
  destruct (IH (S n)) as [Hs Hb].
  assert (Hb' : Forall (fun j => n <= j)
                  (fst <$> List.filter (fun it => py_eqb k (snd it))
                             (imap (fun j y => (S n + j, y)) c))).
  { eapply Forall_impl; [exact Hb|]. cbn. intros; lia. }
  destruct (py_eqb k x); [|split; assumption].
  rewrite fmap_cons. cbn [fst]. rewrite Nat.add_0_r. split.
  - apply StronglySorted_cons. split; [|exact Hs].
    eapply Forall_impl; [exact Hb|]. cbn. intros; lia.
  - constructor; [lia|exact Hb'].
Qed.

Lemma indices_of_sorted (k : Ident) (c : list Ident) : StronglySorted lt (indices_of k c).
Proof.
  exact (proj1 (indices_sorted_from k c 0)).
Qed.

(** X7. The duplicate pass goes through the repeated barcodes in ascending
    order, each of them once, and through the rows of one barcode in the
    order of the table: the groups are keyed by exactly the barcodes that
    are not missing and occur twice or more, the keys are sorted and
    distinct, and each group lists all the rows of its key, by increasing
    index. *)
Theorem duplicate_groups_in_order (t : Table) :
  let keys := fst <$> barcode_groups t in
  barcode_groups t = (fun k => (k, indices_of k (column Barcode_ID t))) <$> keys /\
  Sorted (fun a b => String.leb (py_str a) (py_str b) = true) keys /\
  NoDup keys /\
  (forall k, k ∈ keys <->
             isnull k = false /\ 2 <= occurrences k (column Barcode_ID t)) /\
  Forall (fun g => StronglySorted lt (snd g)) (barcode_groups t).
Proof.
  destruct (barcode_groups_keys t) as (keys & Hgroups & Huniq & Hkeys).
  assert (Hfst : fst <$> barcode_groups t = keys).
  { rewrite Hgroups, <- list_fmap_compose. apply list_fmap_id. }
  cbn zeta. rewrite Hfst.
  assert (Hmem : forall k, k ∈ keys <->
                   isnull k = false /\ 2 <= occurrences k (column Barcode_ID t)).
  { intros k. rewrite <- Nat.leb_le, <- negb_true_iff, <- andb_true_iff, <- Hkeys. split.
    - intros Hk. apply existsb_exists. exists k.
      split; [apply list_elem_of_In, Hk|apply py_eqb_refl].
    - intros Hk. apply existsb_exists in Hk as (x & Hx & Hq).
      apply py_eqb_eq in Hq. subst x. apply list_elem_of_In, Hx. }
  assert (Hgroups' : barcode_groups t
                     = (fun k => (k, indices_of k (column Barcode_ID t))) <$> keys).
  { rewrite Hgroups. apply list_fmap_ext. intros i k Hk. f_equal.
    apply group_labels_indices. apply list_elem_of_lookup_2, Hmem in Hk. apply Hk. }
  split; [exact Hgroups'|]. split; [|split; [|split]].
  - rewrite <- Hfst. unfold barcode_groups, groupby_groups.
    rewrite <- list_fmap_compose, list_fmap_id.
    set (ks := uniques _).
    assert (Hnn : Forall (fun k => isnull k = false) (sort_keys ks)).
    { rewrite <- Hfst in Hmem. unfold barcode_groups, groupby_groups in Hmem.
      rewrite <- list_fmap_compose, list_fmap_id in Hmem. fold ks in Hmem.
      apply Forall_forall. intros k Hk. apply Hmem, Hk. }
    pose proof (sort_keys_sorted ks) as Hs.
    induction Hs as [|a l Hs IH Hhd]; [constructor|].
    apply Forall_cons in Hnn as [Ha Hl]. constructor; [apply IH, Hl|].
    destruct Hhd as [|b l' Hab]; constructor.
    apply Forall_cons in Hl as [Hb _].
    destruct a, b; try discriminate. exact Hab.
  - apply is_unique_NoDup, Huniq.
  - exact Hmem.
  - rewrite Hgroups'. apply Forall_fmap, Forall_forall. intros k _. apply indices_of_sorted.
Qed.

(** ** The availability validator on every table *)

Lemma available_value_false (c : Cell) : available_value c = VBool false <-> c = VStr "N".
Proof.
  unfold available_value. destruct c as [k|x|b|t]; cbn;
    try (split; intros H; discriminate H).
  destruct (String.eqb_spec x "N") as [->|Hne]; split; intros H;
    try reflexivity; try discriminate H.
  injection H as E. contradiction.
Qed.

Lemma available_value_true (c : Cell) : available_value c = VBool true <-> c <> VStr "N".
Proof.
  destruct (available_value_bool c) as [[|] Hb].
  - split; [|intros _; exact Hb]. intros _ E. apply available_value_false in E. congruence.
  - apply available_value_false in Hb. subst c. split; [discriminate|]. intros H. contradiction.
Qed.

(** X8. The availability validator rewrites the [Available] field of every
    row, and nothing else: the field becomes [False] exactly when it held
    the text ["N"], and [True] in every other case, so that no row is left
    without a boolean.  This holds on every table, also when the validator
    raises. *)
Theorem validate_available_fills (s : Env) :
  Forall2 (fun r r' =>
             r' = set_Available (Available r') r /\
             (Available r' = VBool false <-> Available r = VStr "N") /\
             (Available r' = VBool true <-> Available r <> VStr "N"))
          (df s) (df (exec validate_available s)).
Proof.
  rewrite exec_validate_available_df. unfold available_column.
  apply Forall2_fmap_r, Forall_Forall2_diag, Forall_forall. intros r _.
  cbn [Available set_Available]. split; [reflexivity|].
  split; [apply available_value_false|apply available_value_true].
Qed.

Lemma available_unknown_spec (c : Cell) :
  available_unknown c = true <->
  isnull c = false /\ c <> VStr "N" /\ c <> VStr "Y".
Proof.
  unfold available_unknown. destruct c as [k|x|b|t]; cbn.
  - split; [intros H; discriminate H|intros [H _]; discriminate H].
  - destruct (String.eqb_spec x "N") as [->|H1]; cbn.
    + split; [intros H; discriminate H|]. intros (_ & H & _). contradiction.
    + destruct (String.eqb_spec x "Y") as [->|H2]; cbn.
      * split; [intros H; discriminate H|]. intros (_ & _ & H). contradiction.
      * split; [|reflexivity]. intros _. repeat split; congruence.
  - split; [|reflexivity]. intros _. repeat split; intros H; discriminate H.
  - split; [|reflexivity]. intros _. repeat split; intros H; discriminate H.
Qed.

(** X9. The availability validator returns unless the table has no row,
    in which case it raises on the unbound [issues] and changes nothing.
    It writes at most one entry, always about the last row: the entry is
    there exactly when the last row held a value that is neither missing,
    nor ["N"], nor ["Y"], whatever the other rows held. *)
Theorem validate_available_logs_last_row (s : Env) :
  (outcome validate_available s = Ok tt <-> df s <> []) /\
  (outcome validate_available s = Raised (UnboundLocalError "issues") <-> df s = []) /\
  (outcome validate_available s = Ok tt \/ exec validate_available s = s) /\
  length (appended validate_available s) <= 1 /\
  Forall (fun e => master_index e + 1 = length (df s) /\
                   issues e = [unknown_issue (master_index e)])
         (appended validate_available s) /\
  (length (appended validate_available s) = 1 <->
   exists r, last (df s) = Some r /\
             isnull (Available r) = false /\
             Available r <> VStr "N" /\ Available r <> VStr "Y").
Proof.
  pose proof (validate_available_run s) as Hrun.
  rewrite (proj2 (appended_validate_available s)). unfold available_entries.
  unfold outcome, exec. rewrite Hrun.
  destruct (last (df s)) as [r|] eqn:Hlast.
  - assert (Hne : df s <> []) by (intros E; rewrite E in Hlast; discriminate).
    cbn zeta. cbn [fst snd].
    pose proof (available_unknown_spec (Available r)) as Hunk.
    split; [split; auto|]. split; [split; [discriminate|contradiction]|].
    split; [left; reflexivity|].
    unfold row_entries, available_row_issues.
    destruct (available_unknown (Available r)) eqn:E; cbn [nonempty length].
    + split; [lia|]. split.
      * repeat constructor; cbn. destruct (df s); [contradiction|cbn; lia].
      * split; [intros _; exists r; split; [reflexivity|apply Hunk; reflexivity]|reflexivity].
    + split; [lia|]. split; [constructor|].
      split; [discriminate|]. intros (r' & [= <-] & H). apply Hunk in H. congruence.
  - apply last_None in Hlast. cbn [fst snd length].
    split; [split; [discriminate|contradiction]|].
    split; [split; auto|]. split; [right; reflexivity|].
    split; [lia|]. split; [constructor|].
    split; [discriminate|]. intros (r' & H & _). discriminate H.
Qed.

(** ** The dates the collection-date validator leaves *)




(** ** extract_data *)

Lemma read_all_app (f1 f2 : list (string * ReadOutcome)) :
  read_all (f1 ++ f2) = read_all f1 ++ read_all f2.
Proof.
  induction f1 as [|[n [rs|]] f1 IH]; cbn [app read_all]; [reflexivity| |exact IH].
  rewrite IH. reflexivity.
Qed.

Lemma read_all_filter (files : list (string * ReadOutcome)) :
  read_all (List.filter readable files) = read_all files.
Proof.
  induction files as [|[n [rs|]] files IH]; cbn; [reflexivity| |exact IH].
  rewrite IH. reflexivity.
Qed.

(** X11. Reading is per file and in order: the table of two lists of files
    read one after the other is the table of the first followed by the
    table of the second, a list without a readable file contributing
    nothing; and the files that could not be read may as well not be there. *)
Theorem extract_data_composes (files1 files2 : list (string * ReadOutcome)) :
  extract_data (files1 ++ files2)
  = match extract_data files1, extract_data files2 with
    | Ok t1, Ok t2 => Ok (t1 ++ t2)
    | Ok t1, Raised _ => Ok t1
    | Raised _, Ok t2 => Ok t2
    | Raised e, Raised _ => Raised e
    end /\
  extract_data (List.filter readable files1) = extract_data files1.
Proof.
  unfold extract_data. rewrite read_all_app, read_all_filter. split; [|reflexivity].
  unfold pd_concat.
  destruct (read_all files1) as [|a l1], (read_all files2) as [|b l2]; cbn [app].
  - reflexivity.
  - reflexivity.
  - rewrite app_nil_r. reflexivity.
  - f_equal. change (a :: l1 ++ b :: l2) with ((a :: l1) ++ (b :: l2)).
    apply concat_app.
Qed.

Lemma sheet_names_cons_sheet (n : string) (rs : list SheetRow)
    (files : list (string * ReadOutcome)) :
  sheet_names ((n, Sheet rs) :: files) = n :: sheet_names files.
Proof. reflexivity. Qed.

Lemma sheet_names_cons_error (n : string) (files : list (string * ReadOutcome)) :
  sheet_names ((n, ReadError) :: files) = sheet_names files.
Proof. reflexivity. Qed.

Lemma read_all_names (files : list (string * ReadOutcome)) (r : Row) :
  In r (concat (read_all files)) -> SourceFile r ∈ sheet_names files.
Proof.
  intros H. apply read_all_rows_inv in H as (name & rows & i & sr & Hin & _ & ->).
  cbn [tag_row SourceFile]. unfold sheet_names.
  apply list_elem_of_fmap. exists (name, Sheet rows). split; [reflexivity|].
  apply list_elem_of_In, filter_In. split; [exact Hin|reflexivity].
Qed.

Lemma tagged_origins (n : string) (rs : list SheetRow) (k : nat) :
  NoDup (origin <$> imap (fun i r => tag_row n (k + i) r) rs) /\
  Forall (fun o => fst o = n /\ (Z.of_nat k + 2 <= snd o)%Z)
         (origin <$> imap (fun i r => tag_row n (k + i) r) rs).
Proof.
  revert k. induction rs as [|r rs IH]; intros k; [cbn; split; constructor|].
  rewrite imap_cons, fmap_cons.
  rewrite (imap_ext _ (fun i r0 => tag_row n (S k + i) r0)).
  2:{ intros i x _. cbn. f_equal. lia. }
  destruct (IH (S k)) as [Hn Hf]. split.
  - constructor; [|exact Hn]. intros Hin.
    rewrite Forall_forall in Hf. apply Hf in Hin as [_ Hin].
    unfold origin, tag_row in Hin. cbn in Hin. lia.
  - constructor.
    + unfold origin, tag_row. cbn. split; [reflexivity|lia].
    + eapply Forall_impl; [exact Hf|]. cbn. intros o [H1 H2]. split; [exact H1|lia].
Qed.

(** X12. Provenance identifies a row: when the spreadsheets read have
    distinct names, no two rows of the table share both [SourceFile] and
    [OriginalRow]; and [OriginalRow] is never below 2, the row under the
    header. *)
Theorem origin_identifies_row (files : list (string * ReadOutcome)) (t : Table) :
  extract_data files = Ok t ->
  NoDup (sheet_names files) ->
  NoDup (origin <$> t) /\ Forall (fun r => (2 <= OriginalRow r)%Z) t.
Proof.
  intros Ht Hnames.
  assert (Et : t = concat (read_all files)).
  { unfold extract_data, pd_concat in Ht. destruct (read_all files); [discriminate|].
    injection Ht as <-. reflexivity. }
  subst t. clear Ht. split.
  - induction files as [|[n [rs|]] files IH]; [constructor| |].
    + rewrite sheet_names_cons_sheet in Hnames. apply NoDup_cons in Hnames as [Hn Hrest].
      cbn [read_all concat]. rewrite fmap_app. apply NoDup_app.
      destruct (tagged_origins n rs 0) as [Hnd Hf]. cbn [Nat.add] in Hnd, Hf.
      split; [exact Hnd|]. split; [|apply IH, Hrest].
      intros o Ho Ho'. rewrite Forall_forall in Hf. apply Hf in Ho as [Ho _].
      apply list_elem_of_fmap in Ho' as (r & -> & Hr).
      apply list_elem_of_In, read_all_names in Hr. cbn in Ho. rewrite Ho in Hr.
      contradiction.
    + rewrite sheet_names_cons_error in Hnames. cbn [read_all]. apply IH, Hnames.
  - apply Forall_forall. intros r Hr.
    apply list_elem_of_In, read_all_rows_inv in Hr as (name & rows & i & sr & _ & _ & ->).
    cbn. lia.
Qed.

Lemma origin_identifies_row_witness :
  exists t, extract_data files_sample = Ok t /\ NoDup (origin <$> t).
Proof.
  exists [ mkRow (IStr "AB000001") (IStr "C-01") (VStr "03/01/2021") (VStr "Y") "a.xlsx" 2;
           mkRow (IStr "AB000002") (IStr "C-02") (VStr "03/02/2021") (VStr "N") "a.xlsx" 3 ].
  split; [reflexivity|].
  apply (origin_identifies_row files_sample); [reflexivity|].
  cbn. apply NoDup_singleton.
Defined.

(** ** The choice of the archive *)

Lemma head_insert_recent (x : Z * string) (l : list (Z * string)) :
  head (insert_recent x l)
  = match head l with
    | None => Some x
    | Some y => if (fst y <=? fst x)%Z then Some x else Some y
    end.
Proof.
  destruct l as [|y l]; [reflexivity|]. cbn [insert_recent head].
  destruct (fst y <=? fst x)%Z; reflexivity.
Qed.

(** The head of the sorted list is the first of the paths accessed last. *)
Lemma head_sort_recent (keyed : list (Z * string)) :
  match head (sort_recent keyed) with
  | None => keyed = []
  | Some x =>
      exists i, keyed !! i = Some x /\
                Forall (fun y => (fst y <= fst x)%Z) keyed /\
                forall j y, j < i -> keyed !! j = Some y -> (fst y < fst x)%Z
  end.
Proof.
  induction keyed as [|x keyed IH]; [reflexivity|].
  unfold sort_recent in *. cbn [foldr]. rewrite head_insert_recent.
  destruct (head (foldr insert_recent [] keyed)) as [y|].
  - destruct IH as (i & Hi & Hmax & Hfirst).
    destruct (Z.leb_spec (fst y) (fst x)) as [Hle|Hlt].
    + exists 0. split; [reflexivity|]. split; [|intros j y' Hj; lia].
      constructor; [lia|]. eapply Forall_impl; [exact Hmax|]. cbn. intros; lia.
    + exists (S i). split; [exact Hi|]. split.
      * constructor; [lia|exact Hmax].
      * intros [|j] y' Hj Hy'.
        -- injection Hy' as <-. exact Hlt.
        -- apply (Hfirst j); [lia|exact Hy'].
  - subst keyed. exists 0. split; [reflexivity|]. split; [|intros j y' Hj; lia].
    repeat constructor. lia.
Qed.

Lemma stat_all_None (zip_files : list ZipPath) :
  stat_all zip_files = None <-> exists z, z ∈ zip_files /\ st_atime z = None.
Proof.
  induction zip_files as [|z zs IH]; cbn [stat_all].
  - split; [discriminate|]. intros (z & Hz & _). inversion Hz.
  - destruct (st_atime z) as [a|] eqn:Ha.
    + destruct (stat_all zs) as [keyed|].
      * split; [discriminate|]. intros (z' & Hz' & Hn).
        apply elem_of_cons in Hz' as [->|Hz']; [congruence|].
        assert (Hbad : Some keyed = None) by (apply IH; eauto).
        discriminate Hbad.
      * split; [|reflexivity]. intros _.
        destruct (proj1 IH eq_refl) as (z' & Hz' & Hn). exists z'. split; [right|]; assumption.
    + split; [|reflexivity]. intros _. exists z. split; [left|exact Ha].
Qed.

Lemma stat_all_Some (zip_files : list ZipPath) (keyed : list (Z * string)) :
  stat_all zip_files = Some keyed ->
  Forall2 (fun z x => st_atime z = Some (fst x) /\ zip_name z = snd x) zip_files keyed.
Proof.
  revert keyed. induction zip_files as [|z zs IH]; intros keyed; cbn [stat_all].
  - intros [= <-]. constructor.
  - destruct (st_atime z) as [a|] eqn:Ha; [|discriminate].
    destruct (stat_all zs) as [l|]; [|discriminate].
    intros [= <-]. constructor; [split; [exact Ha|reflexivity]|apply IH; reflexivity].
Qed.

(** X13. The archive the script opens is the one accessed last and, of
    several accessed at that same time, the one that comes first in
    [zip_files]; no archive is chosen exactly when the list is empty or the
    access time of one of its paths cannot be read. *)
Theorem most_recent_zip_spec (zip_files : list ZipPath) :
  (most_recent_zip zip_files = None <->
   zip_files = [] \/ exists z, z ∈ zip_files /\ st_atime z = None) /\
  forall p, most_recent_zip zip_files = Some p ->
    exists i z a,
      zip_files !! i = Some z /\ zip_name z = p /\ st_atime z = Some a /\
      Forall (fun z' => exists a', st_atime z' = Some a' /\ (a' <= a)%Z) zip_files /\
      forall j z', j < i -> zip_files !! j = Some z' -> st_atime z' <> Some a.
Proof.
  unfold most_recent_zip.
  destruct (stat_all zip_files) as [keyed|] eqn:Hstat.
  - pose proof (stat_all_Some _ _ Hstat) as H2.
    pose proof (head_sort_recent keyed) as Hhead.
    destruct (sort_recent keyed) as [|x sorted]; cbn [head] in Hhead.
    + subst keyed. apply Forall2_nil_inv_r in H2. subst zip_files.
      split; [split; auto|]. intros p Hp. discriminate Hp.
    + destruct Hhead as (i & Hi & Hmax & Hfirst). split.
      * split; [discriminate|]. intros [->|Hnone].
        -- apply Forall2_nil_inv_l in H2. subst keyed. discriminate Hi.
        -- apply stat_all_None in Hnone. congruence.
      * intros p [= <-].
        destruct (Forall2_lookup_r _ _ _ _ _ H2 Hi) as (z & Hz & Ha & Hn).
        exists i, z, (fst x). split; [exact Hz|]. split; [exact Hn|]. split; [exact Ha|].
        split.
        -- apply Forall_forall. intros z' Hz'.
           apply list_elem_of_lookup_1 in Hz' as [j Hj].
           destruct (Forall2_lookup_l _ _ _ _ _ H2 Hj) as (y & Hy & Hay & _).
           exists (fst y). split; [exact Hay|].
           rewrite Forall_forall in Hmax. apply Hmax. eapply list_elem_of_lookup_2, Hy.
        -- intros j z' Hj Hz' Hsame.
           destruct (Forall2_lookup_l _ _ _ _ _ H2 Hz') as (y & Hy & Hay & _).
           specialize (Hfirst j y Hj Hy). rewrite Hay in Hsame. injection Hsame as Hsame. lia.
  - split; [|intros p Hp; discriminate Hp].
    split; [|reflexivity]. intros _. right. apply stat_all_None, Hstat.
Qed.

Lemma most_recent_zip_spec_witness :
  most_recent_zip zips_sample = Some "mar.zip" /\
  exists i z, zips_sample !! i = Some z /\ zip_name z = "mar.zip" /\
              Forall (fun z' => exists a', st_atime z' = Some a' /\ (a' <= 300)%Z)
                     zips_sample.
Proof.
  split; [reflexivity|].
  destruct (proj2 (most_recent_zip_spec zips_sample) "mar.zip" eq_refl)
    as (i & z & a & Hz & Hn & Ha & Hmax & _).
  exists i, z. split; [exact Hz|]. split; [exact Hn|].
  destruct i as [|[|[|i]]]; cbn in Hz; try discriminate Hz;
    injection Hz as <-; cbn in Hn; try discriminate Hn.
  cbn in Ha. injection Ha as <-. exact Hmax.
Defined.

(** ** The pipeline *)

(** X14. The pipeline either runs its four validators or stops in the
    first.  When a barcode is repeated it returns: the table is the one the
    two normalizing validators leave, and the log gets, in this order, what
    the identifier, patient-ID, collection-date and availability validators
    append, the last one reading the table with its dates parsed.  When no
    barcode is repeated it raises the unbound-name error of the identifier
    validator and leaves the state that validator left: no patient ID is
    checked, no date parsed, no availability filled. *)
Theorem pipeline_composes (clock : nat -> Timestamp) (today : date) (s : Env) :
  match outcome (pipeline clock today) s with
  | Ok _ =>
      (exists v, 2 <= occurrences v (column Barcode_ID (df s))) /\
      df (exec (pipeline clock today) s) = df (normalize clock today s) /\
      appended (pipeline clock today) s
      = appended validate_barcodeid s ++ appended validate_ptid s
        ++ appended (validate_collection_date clock today) s
        ++ appended validate_available (exec (validate_collection_date clock today) s)
  | Raised e =>
      (forall v, occurrences v (column Barcode_ID (df s)) < 2) /\
      e = UnboundLocalError (if decide (df s = []) then "issues" else "grouped") /\
      exec (pipeline clock today) s = exec validate_barcodeid s /\
      df (exec (pipeline clock today) s) = df s
  end.
Proof.
  pose proof (pipeline_run clock today s) as Hrun.
  pose proof (validate_barcodeid_run s) as Hb.
  rewrite (proj2 (appended_validate_barcodeid s)), (proj2 (appended_validate_ptid s)),
    (proj2 (appended_validate_collection_date clock today s)),
    (proj2 (appended_validate_available _)), exec_validate_collection_date_df.
  rewrite normalize_df.
  unfold outcome. unfold exec at 1 2 3 4. rewrite Hrun, Hb.
  destruct (last (df s)) as [r|] eqn:Hlast.
  - destruct (is_unique (column Barcode_ID (df s))) eqn:Hu; cbn [fst snd df].
    + split; [|split; [|split; reflexivity]].
      * intros v. apply Nat.lt_succ_r. apply is_unique_occurrences, Hu.
      * destruct (decide (df s = [])) as [E|_]; [|reflexivity].
        rewrite E in Hlast. discriminate.
    + split; [apply not_unique_occurrences, Hu|]. split; [reflexivity|].
      apply appended_app. unfold exec. rewrite Hrun. cbn [snd log].
      rewrite <- !app_assoc. reflexivity.
  - apply last_None in Hlast. cbn [fst snd].
    split; [|split; [|split; reflexivity]].
    + intros v. rewrite Hlast. cbn. lia.
    + destruct (decide (df s = [])) as [_|N]; [reflexivity|contradiction].
Qed.

(** ** What a validator reads *)

Lemma agree_on_columns {V} (col : Row -> V) (t t' : Table) :
  same_origin t t' -> column col t = column col t' -> agree_on col t t'.
Proof.
  unfold same_origin, agree_on, column. intros H.
  induction H as [|r r' t t' Hr _ IH]; intros Hc; [constructor|].
  rewrite !fmap_cons in Hc. injection Hc as Hc1 Hc2.
  constructor; [split; assumption|apply IH; assumption].
Qed.

Lemma imap_agree {A B} (R : A -> A -> Prop) (f g : nat -> A -> B) (l l' : list A) :
  Forall2 R l l' -> (forall i x y, R x y -> f i x = g i y) -> imap f l = imap g l'.
Proof.
  intros H. revert f g.
  induction H as [|x y l l' Hxy _ IH]; intros f g Hfg; [reflexivity|].
  cbn. f_equal; [apply Hfg, Hxy|]. apply IH. intros i a b. apply Hfg.
Qed.

Lemma row_entries_agree {V} (f : V -> list string) (col : Row -> V) (i : nat) (r r' : Row) :
  col r = col r' /\ origin r = origin r' -> row_entries f col i r = row_entries f col i r'.
Proof.
  intros [Hc Ho]. unfold origin in Ho. injection Ho as Hf Hi.
  unfold row_entries. rewrite Hc, Hf, Hi. reflexivity.
Qed.

Lemma loop_entries_agree {V} (f : V -> list string) (col : Row -> V) (t t' : Table) :
  agree_on col t t' ->
  concat (imap (row_entries f col) t) = concat (imap (row_entries f col) t').
Proof.
  intros H. f_equal. apply (imap_agree _ _ _ _ _ H).
  intros i x y. apply row_entries_agree.
Qed.

Lemma last_entries_agree {V} (f : nat -> V -> list string) (col : Row -> V) (t t' : Table) :
  agree_on col t t' ->
  match last t with
  | Some r => row_entries (f (length t - 1)) col (length t - 1) r
  | None => []
  end
  = match last t' with
    | Some r => row_entries (f (length t' - 1)) col (length t' - 1) r
    | None => []
    end.
Proof.
  intros H. rewrite <- (Forall2_length _ _ _ H).
  destruct (Forall2_last _ _ _ H) as [r r' Hr|]; [|reflexivity].
  apply row_entries_agree, Hr.
Qed.

Lemma last_agree {V} (col : Row -> V) (t t' : Table) :
  agree_on col t t' -> is_Some (last t) <-> is_Some (last t').
Proof.
  intros H. destruct (Forall2_last _ _ _ H); split; intros [a Ha]; try discriminate Ha; eauto.
Qed.

Lemma entry_of_agree (t t' : Table) (iss : list string) (idx : nat) :
  same_origin t t' -> entry_of t iss idx = entry_of t' iss idx.
Proof.
  intros H. unfold entry_of.
  destruct (proj1 (Forall2_lookup _ _ _) H idx) as [r r' Hr|]; [|reflexivity].
  unfold origin in Hr. injection Hr as -> ->. reflexivity.
Qed.

Lemma agree_on_origin {V} (col : Row -> V) (t t' : Table) :
  agree_on col t t' -> same_origin t t'.
Proof.
  intros H. apply (Forall2_impl _ _ _ _ H). intros r r' [_ Ho]. exact Ho.
Qed.

Lemma agree_on_column {V} (col : Row -> V) (t t' : Table) :
  agree_on col t t' -> column col t = column col t'.
Proof.
  unfold column. induction 1 as [|r r' t t' [Hc _] _ IH]; [reflexivity|].
  rewrite !fmap_cons, Hc, IH. reflexivity.
Qed.

Lemma duplicate_entries_agree (t t' : Table) :
  agree_on Barcode_ID t t' -> duplicate_entries t = duplicate_entries t'.
Proof.
  intros H. unfold duplicate_entries, barcode_groups.
  rewrite !items_column, (agree_on_column _ _ _ H). f_equal.
  apply list_fmap_ext. intros _ g _. unfold group_entries.
  generalize [duplicate_issue (fst g) (snd g)] as iss. intros iss.
  induction (snd g) as [|idx l IH]; [reflexivity|].
  cbn. rewrite (entry_of_agree t t' _ idx (agree_on_origin _ _ _ H)), IH. reflexivity.
Qed.

Lemma first_pass_entries_agree (t t' : Table) :
  agree_on Barcode_ID t t' -> first_pass_entries t = first_pass_entries t'.
Proof.
  apply (last_entries_agree (fun _ => barcode_row_issues)).
Qed.

Lemma to_datetime_column_agree (clock : nat -> Timestamp) (t t' : Table) :
  agree_on Date_Collected t t' ->
  agree_on Date_Collected (to_datetime_column clock t) (to_datetime_column clock t').
Proof.
  unfold agree_on. intros H. apply Forall2_same_length_lookup_2.
  - rewrite !length_to_datetime_column. apply (Forall2_length _ _ _ H).
  - intros i x y Hx Hy. unfold to_datetime_column in Hx, Hy.
    apply list_lookup_imap_Some in Hx as (r & Hr & ->).
    apply list_lookup_imap_Some in Hy as (r' & Hr' & ->).
    destruct (Forall2_lookup_lr _ _ _ _ _ _ H Hr Hr') as [Hc Ho].
    cbn. rewrite Hc. split; [reflexivity|exact Ho].
Qed.

(** X16. Each validator reads one column and the provenance.  Of two
    tables whose rows have the same provenance, row by row, the identifier
    validator writes the same entries and ends the same way when the
    barcodes are the same, whatever the other columns hold; likewise the
    patient-ID validator on equal patient IDs, the collection-date
    validator on equal dates, which it then normalizes to the same column,
    and the availability validator on equal availabilities.  What the log
    held before plays no part. *)
Theorem validators_read_own_column (clock : nat -> Timestamp) (today : date) (s s' : Env)
    (Horigin : same_origin (df s) (df s')) :
  (column Barcode_ID (df s) = column Barcode_ID (df s') ->
   appended validate_barcodeid s = appended validate_barcodeid s' /\
   outcome validate_barcodeid s = outcome validate_barcodeid s') /\
  (column Patient_Study_ID (df s) = column Patient_Study_ID (df s') ->
   appended validate_ptid s = appended validate_ptid s') /\
  (column Date_Collected (df s) = column Date_Collected (df s') ->
   appended (validate_collection_date clock today) s
   = appended (validate_collection_date clock today) s' /\
   column Date_Collected (df (exec (validate_collection_date clock today) s))
   = column Date_Collected (df (exec (validate_collection_date clock today) s'))) /\
  (column Available (df s) = column Available (df s') ->
   appended validate_available s = appended validate_available s' /\
   outcome validate_available s = outcome validate_available s' /\
   column Available (df (exec validate_available s))
   = column Available (df (exec validate_available s'))).
Proof.
  split; [|split; [|split]]; intros Hc;
    pose proof (agree_on_columns _ _ _ Horigin Hc) as H.
  - rewrite (proj2 (appended_validate_barcodeid s)), (proj2 (appended_validate_barcodeid s')).
    unfold outcome. rewrite !validate_barcodeid_run, Hc.
    rewrite (first_pass_entries_agree _ _ H), (duplicate_entries_agree _ _ H).
    split; [reflexivity|].
    pose proof (last_agree _ _ _ H) as Hl.
    destruct (last (df s)) as [r|], (last (df s')) as [r'|]; cbn zeta.
    + destruct (is_unique _); reflexivity.
    + destruct (proj1 Hl (ltac:(eauto))) as [x Hx]. discriminate Hx.
    + destruct (proj2 Hl (ltac:(eauto))) as [x Hx]. discriminate Hx.
    + reflexivity.
  - rewrite (proj2 (appended_validate_ptid s)), (proj2 (appended_validate_ptid s')).
    apply loop_entries_agree, H.
  - rewrite (proj2 (appended_validate_collection_date clock today s)),
      (proj2 (appended_validate_collection_date clock today s')),
      !exec_validate_collection_date_df.
    apply (to_datetime_column_agree clock) in H.
    split; [apply loop_entries_agree, H|apply agree_on_column, H].
  - rewrite (proj2 (appended_validate_available s)), (proj2 (appended_validate_available s')),
      !exec_validate_available_df.
    split; [apply (last_entries_agree available_row_issues), H|]. split.
    + unfold outcome. rewrite !validate_available_run.
      pose proof (last_agree _ _ _ H) as Hl.
      destruct (last (df s)) as [r|], (last (df s')) as [r'|]; cbn zeta; try reflexivity.
      * destruct (proj1 Hl (ltac:(eauto))) as [x Hx]. discriminate Hx.
      * destruct (proj2 Hl (ltac:(eauto))) as [x Hx]. discriminate Hx.
    + unfold column, available_column in *. rewrite <- !list_fmap_compose.
      unfold compose. cbn [Available set_Available].
      rewrite !(list_fmap_compose Available available_value). f_equal. exact Hc.
Qed.

Lemma validators_read_own_column_witness :
  same_origin (df barcode_sample) (df other_columns_sample) /\
  appended validate_barcodeid barcode_sample
  = appended validate_barcodeid other_columns_sample /\
  outcome validate_barcodeid barcode_sample = outcome validate_barcodeid other_columns_sample.
Proof.
  assert (H : same_origin (df barcode_sample) (df other_columns_sample)).
  { repeat constructor. }
  split; [exact H|].
  exact (proj1 (validators_read_own_column run_clock run_day barcode_sample
                  other_columns_sample H) eq_refl).
Defined.
